(** * SoftTeacher (ssod/models/soft_teacher.py): the contrastive feature queue,
      the distributed gather, the cross-view alignment and the two
      contrastive losses, as a shallow embedding.

    Python objects are modelled as follows.
    - A 2-D torch tensor is a list of rows together with its column count
      ([size1]), so that an empty tensor still has a second dimension.
    - Python ints and torch longs are [Z]; slices follow Python's rules for
      negative and out-of-range bounds.
    - The scalar type of float tensors is a parameter [A]: nothing in the
      queue bookkeeping computes with the entries.
    - Exceptions keep the mutations made before they were raised: a
      computation maps a state to a state and an outcome.
    - Collaborators outside the file (detector heads, torch functions, the
      helpers of ssod.utils, the process group, the random generator) are
      fields of the records [Detector] and [SoftTeacher]. *)

From Stdlib Require Import ZArith List Lia Reals Lra Field.
From stdpp Require Import base list gmap strings.

Open Scope Z_scope.

(** ** Outcomes and exceptions *)

Inductive exn : Type :=
  | AssertionError
  | RuntimeError
  | ZeroDivisionError
  | NotImplementedError
  | ValueError
  | IndexError
  | KeyError
  | TypeError
  | UnboundLocalError.

(** [NoReturn]: the call blocks in a collective that a peer never joins. *)
Inductive outcome (X : Type) : Type :=
  | Done (x : X)
  | Raised (e : exn)
  | NoReturn.
Arguments Done {X} x.
Arguments Raised {X} e.
Arguments NoReturn {X}.

Definition obind {X Y : Type} (o : outcome X) (k : X -> outcome Y) : outcome Y :=
  match o with
  | Done x => k x
  | Raised e => Raised e
  | NoReturn => NoReturn
  end.

Definition assert (b : bool) : outcome unit :=
  if b then Done tt else Raised AssertionError.

Fixpoint omap {X Y : Type} (f : X -> outcome Y) (l : list X) : outcome (list Y) :=
  match l with
  | [] => Done []
  | x :: l' => obind (f x) (fun y => obind (omap f l') (fun ys => Done (y :: ys)))
  end.

(** ** Python slices *)

(** A slice bound [i] of a sequence of length [len], as Python normalises it. *)
Definition slice_bound (len i : Z) : Z :=
  if i <? 0 then Z.max 0 (len + i) else Z.min i len.

(** [l[a:b]] with [None] written as [None]. *)
Definition py_slice {X : Type} (l : list X) (a b : option Z) : list X :=
  let len := Z.of_nat (length l) in
  let lo := match a with Some i => slice_bound len i | None => 0 end in
  let hi := match b with Some i => slice_bound len i | None => len end in
  firstn (Z.to_nat (hi - lo)) (skipn (Z.to_nat lo) l).

(** The integer a row count becomes on its way through a float32 tensor
    ([local_batch.float()] then [int(bs.item())]): 24 significant bits,
    round to nearest, ties to even. *)
Definition float32_of_int (n : Z) : Z :=
  if n <? 2 ^ 24 then n
  else
    let e := Z.log2 n - 23 in
    let q := Z.shiftr n e in
    let r := Z.land n (Z.ones e) in
    let half := Z.shiftl 1 (e - 1) in
    let q' := if (half <? r) || ((r =? half) && Z.odd q) then q + 1 else q in
    Z.shiftl q' e.

(** The entries of a list that are present. *)
Definition omap_filter {X : Type} (l : list (option X)) : list X :=
  flat_map (fun o => match o with Some x => [x] | None => [] end) l.

Fixpoint list_max_Z (x : Z) (l : list Z) : Z :=
  match l with
  | [] => x
  | y :: l' => list_max_Z (Z.max x y) l'
  end.

(** [l[i] for i in idx]: an index outside the list is an IndexError. *)
Definition select {X : Type} (l : list X) (idx : list nat) : outcome (list X) :=
  omap (fun i => match l !! i with
                 | Some x => Done x
                 | None => Raised IndexError
                 end) idx.

(** [t[mask]] for a boolean mask: the mask must be as long as the sequence. *)
Definition mask_select {X : Type} (l : list X) (mask : list bool) : outcome (list X) :=
  if (length l =? length mask)%nat
  then Done (map fst (filter (fun p => snd p = true) (combine l mask)))
  else Raised IndexError.

(** Python's [list.index]. *)
Fixpoint index (l : list string) (x : string) : outcome nat :=
  match l with
  | [] => Raised ValueError
  | y :: l' => if String.eqb y x then Done 0%nat
               else obind (index l' x) (fun i => Done (S i))
  end.

(** Values a configuration entry may hold; [isinstance(v, float)] holds of
    the first only. *)
Inductive cfg_value (F : Type) : Type :=
  | CfgFloat (x : F)
  | CfgInt (z : Z)
  | CfgNone
  | CfgStr (s : string)
  | CfgList (l : list F).
Arguments CfgFloat {F} x.
Arguments CfgInt {F} z.
Arguments CfgNone {F}.
Arguments CfgStr {F} s.
Arguments CfgList {F} l.

Section Model.
Context {A Image Feat RpnOut Mat : Type}.

(** ** Tensors *)

Record Tensor2 : Type := mkT2 { rows : list (list A); size1 : Z }.

Definition size0 (t : Tensor2) : Z := Z.of_nat (length (rows t)).

(** [torch.zeros(n, d)]; a negative dimension is a RuntimeError. *)
Definition zeros (zero : A) (n d : Z) : outcome Tensor2 :=
  if (n <? 0) || (d <? 0) then Raised RuntimeError
  else Done (mkT2 (repeat (repeat zero (Z.to_nat d)) (Z.to_nat n)) d).

(** [torch.cat(ts, dim=0)] of 2-D tensors: the column counts must agree. *)
Definition cat2 (a b : Tensor2) : outcome Tensor2 :=
  if size1 a =? size1 b then Done (mkT2 (rows a ++ rows b) (size1 a))
  else Raised RuntimeError.

Fixpoint cat (d : Z) (ts : list Tensor2) : outcome Tensor2 :=
  match ts with
  | [] => Done (mkT2 [] d)
  | t :: ts' =>
      if size1 t =? d
      then obind (cat d ts') (fun r => Done (mkT2 (rows t ++ rows r) d))
      else Raised RuntimeError
  end.

(** [t[a:b, :]] *)
Definition slice_rows (t : Tensor2) (a b : option Z) : Tensor2 :=
  mkT2 (py_slice (rows t) a b) (size1 t).

(** Broadcasting of a value of shape (m, c) to the shape (n, d) of the
    slice it is assigned to. *)
Definition broadcast_row (r : list A) (c d : Z) : list A :=
  if c =? d then r
  else match r with
       | x :: _ => repeat x (Z.to_nat d)
       | [] => []
       end.

Definition expand (v : Tensor2) (n d : Z) : outcome (list (list A)) :=
  if negb ((size1 v =? d) || (size1 v =? 1)) then Raised RuntimeError
  else
    let rs := map (fun r => broadcast_row r (size1 v) d) (rows v) in
    if size0 v =? n then Done rs
    else match rs with
         | [r] => Done (repeat r (Z.to_nat n))
         | _ => Raised RuntimeError
         end.

(** [t[a:b, :] = v] *)
Definition setitem_rows (t : Tensor2) (a b : option Z) (v : Tensor2)
  : outcome Tensor2 :=
  let len := size0 t in
  let lo := match a with Some i => slice_bound len i | None => 0 end in
  let hi := match b with Some i => slice_bound len i | None => len end in
  let n := Z.max 0 (hi - lo) in
  obind (expand v n (size1 t)) (fun rs =>
    Done (mkT2 (firstn (Z.to_nat lo) (rows t) ++ rs
                  ++ skipn (Z.to_nat (lo + n)) (rows t))
               (size1 t))).

(** ** The process group *)

(** What the ranks below and above this one pass to [concat_all_gather]
    in one round of the collective. *)
Record Group : Type := mkGroup { lower : list Tensor2; upper : list Tensor2 }.

(** ** Mutable state *)

(** The registered buffers, the Python list objects that [ctr_loss] and
    [ctr_loss_2] share (by identity), the positions in the random and
    dataset streams, and two ghost logs. *)
Record State : Type := mkState {
  queue_vector : Tensor2;
  queue_ptr : Z;
  box_lists : gmap nat (list Tensor2);
  label_lists : gmap nat (list (list Z));
  rng_pos : nat;
  dataset_pos : nat;
  rounds : nat;
  (** ghost: the argument of every [_dequeue_and_enqueue] call so far *)
  calls : list Tensor2;
  (** ghost: for every loss computed across two views, the filenames of
      the images it pairs *)
  paired : list (list (string * string));
}.

Definition set_queue_vector (q : Tensor2) (s : State) : State :=
  mkState q (queue_ptr s) (box_lists s) (label_lists s) (rng_pos s)
    (dataset_pos s) (rounds s) (calls s) (paired s).
Definition set_queue_ptr (p : Z) (s : State) : State :=
  mkState (queue_vector s) p (box_lists s) (label_lists s) (rng_pos s)
    (dataset_pos s) (rounds s) (calls s) (paired s).
Definition set_box_lists (h : gmap nat (list Tensor2)) (s : State) : State :=
  mkState (queue_vector s) (queue_ptr s) h (label_lists s) (rng_pos s)
    (dataset_pos s) (rounds s) (calls s) (paired s).
Definition set_label_lists (h : gmap nat (list (list Z))) (s : State) : State :=
  mkState (queue_vector s) (queue_ptr s) (box_lists s) h (rng_pos s)
    (dataset_pos s) (rounds s) (calls s) (paired s).
Definition set_rng_pos (n : nat) (s : State) : State :=
  mkState (queue_vector s) (queue_ptr s) (box_lists s) (label_lists s) n
    (dataset_pos s) (rounds s) (calls s) (paired s).
Definition set_dataset_pos (n : nat) (s : State) : State :=
  mkState (queue_vector s) (queue_ptr s) (box_lists s) (label_lists s)
    (rng_pos s) n (rounds s) (calls s) (paired s).
Definition set_rounds (n : nat) (s : State) : State :=
  mkState (queue_vector s) (queue_ptr s) (box_lists s) (label_lists s)
    (rng_pos s) (dataset_pos s) n (calls s) (paired s).
Definition set_calls (l : list Tensor2) (s : State) : State :=
  mkState (queue_vector s) (queue_ptr s) (box_lists s) (label_lists s)
    (rng_pos s) (dataset_pos s) (rounds s) l (paired s).
Definition set_paired (l : list (list (string * string))) (s : State) : State :=
  mkState (queue_vector s) (queue_ptr s) (box_lists s) (label_lists s)
    (rng_pos s) (dataset_pos s) (rounds s) (calls s) l.

(** ** Computations: a state in, a state and an outcome out *)

Definition M (X : Type) : Type := State -> State * outcome X.

Definition ret {X : Type} (x : X) : M X := fun s => (s, Done x).
Definition raise {X : Type} (e : exn) : M X := fun s => (s, Raised e).
Definition lift {X : Type} (o : outcome X) : M X := fun s => (s, o).
Definition bind {X Y : Type} (m : M X) (k : X -> M Y) : M Y :=
  fun s =>
    match m s with
    | (s', Done x) => k x s'
    | (s', Raised e) => (s', Raised e)
    | (s', NoReturn) => (s', NoReturn)
    end.
Definition gets {X : Type} (f : State -> X) : M X := fun s => (s, Done (f s)).
Definition modify (f : State -> State) : M unit := fun s => (f s, Done tt).

Notation "'let!' x ':=' m 'in' k" := (bind m (fun x => k))
  (at level 10, x name, m at level 200, k at level 200, only parsing).
Notation "m ';;;' k" := (bind m (fun _ => k))
  (at level 100, k at level 200, right associativity, only parsing).

(** [self.queue_vector[a:b, :] = v] *)
Definition setitem_queue (a b : option Z) (v : Tensor2) : M unit :=
  fun s =>
    match setitem_rows (queue_vector s) a b v with
    | Done q => (set_queue_vector q s, Done tt)
    | Raised e => (s, Raised e)
    | NoReturn => (s, NoReturn)
    end.

(** Python's [a % b] on ints. *)
Definition py_mod (a b : Z) : outcome Z :=
  if b =? 0 then Raised ZeroDivisionError else Done (a mod b).

(** ** Batches and collaborators *)

(** An entry of [img_metas]. *)
Record Meta : Type := mkMeta {
  filename : string;
  transform_matrix : Mat;
  img_shape : Z * Z * Z;
}.

(** One role group of the batch, as [dict_split] returns it.  [gt_bboxes]
    and [gt_labels] are Python lists: the record holds their identities and
    the state holds their contents. *)
Record Data : Type := mkData {
  img : list Image;
  img_metas : list Meta;
  gt_bboxes : nat;
  gt_labels : nat;
  proposals : option (list Tensor2);
}.

(** What the box sampler returns for one image. *)
Record SamplingResult : Type := mkSamplingResult {
  bboxes : Tensor2;
  pos_bboxes : Tensor2;
  pos_assigned_gt_inds : list Z;
  pos_gt_labels : list Z;
}.

(** An entry of the labeled-item index. *)
Record Item : Type := mkItem {
  item_img : Image;
  item_gt_bboxes : Tensor2;
  item_gt_labels : list Z;
}.

(** A loss value: a 0-dim tensor or a 1-D one. *)
Inductive LossT : Type :=
  | Scalar (x : A)
  | Vector (l : list A).

(** The detector interface (mmdet), one instance per role. *)
Record Detector : Type := mkDetector {
  with_rpn : bool;
  extract_feat : list Image -> Feat;
  rpn_head : Feat -> RpnOut;
  get_bboxes : RpnOut -> list Meta -> list Tensor2;
  rpn_head_loss : RpnOut -> list Tensor2 -> list Meta -> gmap string LossT;
  simple_test_bboxes :
    Feat -> list Meta -> list Tensor2 -> list Tensor2 * list (list Z);
  (** [bbox_assigner.assign] followed by [bbox_sampler.sample] *)
  assign_and_sample : Tensor2 -> Tensor2 -> list Z -> SamplingResult;
  bbox_roi_extractor : Feat -> Tensor2 -> Tensor2;
  projector : Tensor2 -> Tensor2;
  roi_head_forward_train :
    Feat -> list Meta -> list Tensor2 -> list Tensor2 -> list (list Z)
    -> gmap string LossT;
  detector_forward_train :
    list Image -> list Meta -> list Tensor2 -> list (list Z)
    -> gmap string LossT;
}.

(** The configuration of a [SoftTeacher] and everything it calls that is
    not defined in soft_teacher.py. *)
Record SoftTeacher : Type := mkSelf {
  (** constructor arguments *)
  memory_k : Z;
  projector_dim : Z;
  ctr2_num : Z;
  ctr1_T : A;
  ctr2_T : A;
  ctr1_lam_sup : A;
  ctr2_lam_sup : A;
  teacher : Detector;
  student : Detector;
  (** train_cfg *)
  unsup_weight : A;
  pseudo_label_initial_score_thr : cfg_value A;
  min_pseduo_box_size : A;
  cls_pseudo_threshold : A;
  rpn_pseudo_threshold : A;
  use_teacher_proposal : bool;
  (** torch *)
  zero : A;
  of_int : Z -> A;
  fmul : A -> A -> A;
  fdiv : A -> A -> A;
  dot : list A -> list A -> A;
  normalize : list A -> list A;
  cross_entropy : Tensor2 -> list Z -> A;
  matmul : Mat -> Mat -> Mat;
  inverse : Mat -> outcome Mat;
  randn_entry : nat -> nat -> A;
  rand : nat -> Z;
  (** ssod.utils *)
  filter_invalid : Tensor2 -> list Z -> list A -> A -> A -> Tensor2 * list Z;
  filter_invalid_boxes : Tensor2 -> list A -> A -> A -> Tensor2;
  transform_bboxes : list Tensor2 -> list Mat -> list (Z * Z * Z) -> list Tensor2;
  weighted_loss : gmap string LossT -> A -> gmap string LossT;
  (** the labeled-item index: the label asked for and the number of the call *)
  get_same_label_item : Z -> nat -> list Item;
  (** the tensors the other ranks pass to the n-th gather *)
  world : nat -> Group;
}.

Section Methods.
Variable self : SoftTeacher.

(** Lines 476-477: the tensor of one rank, zero rows added up to
    [max_batch]. *)
Definition pad_to (max_batch : Z) (t : Tensor2) : outcome Tensor2 :=
  obind (zeros (zero self) (max_batch - size0 t) (size1 t)) (cat2 t).

(** [concat_all_gather], lines 460-489, on the rank whose peers pass the
    tensors of [g].  Both collectives return the contributions in rank
    order.  Every rank pads its own tensor before the second one: a peer
    whose padding fails never joins it, and tensors of another shape than
    the receive buffers are refused. *)
Definition concat_all_gather (g : Group) (features : Tensor2) : outcome Tensor2 :=
  let everyone := lower g ++ features :: upper g in
  let local_batch := size0 features in
  let batch_size_gather := map (fun t => float32_of_int (size0 t)) everyone in
  let max_batch := list_max_Z (float32_of_int local_batch) batch_size_gather in
  obind (pad_to max_batch features) (fun _ =>
  obind (omap (fun t =>
                 match pad_to max_batch t with
                 | Done p => if size1 p =? size1 features then Done p
                             else Raised RuntimeError
                 | _ => NoReturn
                 end) everyone) (fun features_gather =>
  cat (size1 features)
    (map (fun '(bs, f) => slice_rows f None (Some bs))
         (combine batch_size_gather features_gather)))).

(** The process group at the next collective of this rank. *)
Definition next_round : M Group :=
  fun s => (set_rounds (S (rounds s)) s, Done (world self (rounds s))).

(** [_dequeue_and_enqueue], lines 491-515. *)
Definition _dequeue_and_enqueue (features : Tensor2) : M unit :=
  modify (fun s => set_calls (calls s ++ [features]) s) ;;;
  let! g := next_round in
  let! features := lift (concat_all_gather g features) in
  let batch_size := size0 features in
  if batch_size =? 0 then ret tt
  else
    lift (assert (size1 features =? projector_dim self)) ;;;
    let! ptr := gets queue_ptr in
    (if memory_k self <=? ptr + batch_size then
       let redundant := ptr + batch_size - memory_k self in
       setitem_queue (Some ptr) (Some (memory_k self))
         (slice_rows features None (Some (batch_size - redundant))) ;;;
       setitem_queue None (Some redundant)
         (slice_rows features (Some (batch_size - redundant)) None)
     else
       setitem_queue (Some ptr) (Some (ptr + batch_size)) features) ;;;
    let! ptr := lift (py_mod (ptr + batch_size) (memory_k self)) in
    modify (set_queue_ptr ptr).

(** [SoftTeacher.__init__], lines 38-41: the buffers after construction.
    [torch.randn(memory_k, projector_dim)] is the sample [randn_entry]. *)
Definition __init__ : outcome State :=
  if (memory_k self <? 0) || (projector_dim self <? 0) then Raised RuntimeError
  else
    let sample :=
      map (fun i => map (randn_entry self i) (seq 0 (Z.to_nat (projector_dim self))))
          (seq 0 (Z.to_nat (memory_k self))) in
    Done (mkState (mkT2 (map (normalize self) sample) (projector_dim self))
            0 ∅ ∅ 0 0 0 [] []).

(** [_get_trans_mat], lines 332-334. *)
Definition _get_trans_mat (a b : list Mat) : outcome (list Mat) :=
  omap (fun '(bt, at_) => obind (inverse self at_) (fun i => Done (matmul self bt i)))
       (combine b a).

(** [_transform_bbox], lines 327-330. *)
Definition _transform_bbox (bs : list Tensor2) (trans_mat : list Mat)
    (max_shape : list (Z * Z * Z)) : list Tensor2 :=
  transform_bboxes self bs trans_mat max_shape.

(** [t[:, :n]] and [t[:, j]] *)
Definition columns_upto (t : Tensor2) (n : Z) : Tensor2 :=
  mkT2 (map (fun r => py_slice r None (Some n)) (rows t))
       (slice_bound (size1 t) n).

Definition column (t : Tensor2) (j : Z) : outcome (list A) :=
  let k := if j <? 0 then size1 t + j else j in
  if (k <? 0) || (size1 t <=? k) then Raised IndexError
  else omap (fun r => match r !! Z.to_nat k with
                      | Some x => Done x
                      | None => Raised IndexError
                      end) (rows t).

(** What [extract_teacher_info] returns. *)
Record TeacherInfo : Type := mkTeacherInfo {
  t_backbone_feature : Feat;
  t_proposals : list Tensor2;
  det_bboxes : list Tensor2;
  det_labels : list (list Z);
  t_transform_matrix : list Mat;
  t_img_metas : list Meta;
}.

(** [extract_teacher_info], lines 352-409. *)
Definition extract_teacher_info (img_ : list Image) (metas : list Meta)
    (props : option (list Tensor2)) : outcome TeacherInfo :=
  let feat := extract_feat (teacher self) img_ in
  let proposal_list0 :=
    match props with
    | None => get_bboxes (teacher self) (rpn_head (teacher self) feat) metas
    | Some p => p
    end in
  let '(proposal_list, proposal_label_list) :=
    simple_test_bboxes (teacher self) feat metas proposal_list0 in
  let proposal_list :=
    map (fun p => if 0 <? size0 p then p else mkT2 [] 5) proposal_list in
  obind (match pseudo_label_initial_score_thr self with
         | CfgFloat thr => Done thr
         | _ => Raised NotImplementedError
         end) (fun thr =>
  obind (omap (fun '(proposal, proposal_label) =>
                 obind (column proposal (-1)) (fun score =>
                 Done (filter_invalid self proposal proposal_label score thr
                         (min_pseduo_box_size self))))
              (combine proposal_list proposal_label_list)) (fun filtered =>
  match filtered with
  | [] => Raised ValueError
  | _ =>
      Done (mkTeacherInfo feat proposal_list0 (map fst filtered)
              (map snd filtered) (map transform_matrix metas) metas)
  end)).


(** ** Python list objects *)

(** A new list object holding [l]. *)
Definition new_box_list (l : list Tensor2) : M nat :=
  fun s => let i := fresh (dom (box_lists s)) in
           (set_box_lists (<[i := l]> (box_lists s)) s, Done i).
Definition new_label_list (l : list (list Z)) : M nat :=
  fun s => let i := fresh (dom (label_lists s)) in
           (set_label_lists (<[i := l]> (label_lists s)) s, Done i).

(** Reading the list behind a key of a data dict; a key that was never set
    is a KeyError. *)
Definition read_box_list (i : nat) : M (list Tensor2) :=
  fun s => (s, match box_lists s !! i with
               | Some l => Done l
               | None => Raised KeyError
               end).
Definition read_label_list (i : nat) : M (list (list Z)) :=
  fun s => (s, match label_lists s !! i with
               | Some l => Done l
               | None => Raised KeyError
               end).

(** [lst[i] = v] on the list object [o]. *)
Definition setitem_box_list (o i : nat) (v : Tensor2) : M unit :=
  let! l := read_box_list o in
  if (i <? length l)%nat
  then modify (fun s => set_box_lists (<[o := <[i := v]> l]> (box_lists s)) s)
  else raise IndexError.
Definition setitem_label_list (o i : nat) (v : list Z) : M unit :=
  let! l := read_label_list o in
  if (i <? length l)%nat
  then modify (fun s => set_label_lists (<[o := <[i := v]> l]> (label_lists s)) s)
  else raise IndexError.

(** [lst[i]] *)
Definition getitem {X : Type} (l : list X) (i : nat) : outcome X :=
  match l !! i with
  | Some x => Done x
  | None => Raised IndexError
  end.

(** ** torch and mmdet functions *)

(** [torch.randint(low=0, high=high, size=(n,))]: [n] draws from the random
    stream, each reduced into [0, high). *)
Definition randint (high n : Z) : M (list nat) :=
  if (high <=? 0) || (n <? 0) then raise RuntimeError
  else fun s =>
    (set_rng_pos (rng_pos s + Z.to_nat n) s,
     Done (map (fun i => Z.to_nat (rand self (rng_pos s + i) mod high))
               (seq 0 (Z.to_nat n)))).

(** [t[idx]] for a tensor of indices. *)
Definition index_rows (t : Tensor2) (idx : list nat) : outcome Tensor2 :=
  obind (select (rows t) idx) (fun rs => Done (mkT2 rs (size1 t))).

(** [mmdet.core.bbox2roi]: the image index in front of the four
    coordinates of every box. *)
Definition bbox2roi (bbox_list : list Tensor2) : outcome Tensor2 :=
  match bbox_list with
  | [] => Raised RuntimeError
  | _ =>
      cat 5 (imap (fun img_id b =>
                     if 0 <? size0 b
                     then mkT2 (map (fun r => of_int self (Z.of_nat img_id)
                                              :: py_slice r None (Some 4)) (rows b))
                               (1 + slice_bound (size1 b) 4)
                     else mkT2 [] 5) bbox_list)
  end.

(** [F.normalize(t, dim=1)] *)
Definition F_normalize (t : Tensor2) : Tensor2 :=
  mkT2 (map (normalize self) (rows t)) (size1 t).

(** [torch.einsum('nc,kc->nk', [x, y])] *)
Definition einsum_nc_kc (x y : Tensor2) : outcome (list (list A)) :=
  if size1 x =? size1 y
  then Done (map (fun r => map (dot self r) (rows y)) (rows x))
  else Raised RuntimeError.

(** [torch.einsum('nc,nc->n', [x, y])] *)
Definition einsum_nc_nc (x y : Tensor2) : outcome (list A) :=
  if (size1 x =? size1 y) && (size0 x =? size0 y)
  then Done (map (fun '(r, r') => dot self r r') (combine (rows x) (rows y)))
  else Raised RuntimeError.

(** Lines 670-675 and 719-725: the (1 + K)-way logits against the queue,
    divided by the temperature, and their cross entropy against class 0. *)
Definition contrast (student_vec teacher_vec : Tensor2) (T : A) : M A :=
  let! queue := gets queue_vector in
  let! neg_logits := lift (einsum_nc_kc student_vec queue) in
  let! pos_logits := lift (einsum_nc_nc student_vec teacher_vec) in
  let logits := map (fun '(p0, ns) => map (fun x => fdiv self x T) (p0 :: ns))
                    (combine pos_logits neg_logits) in
  let labels := repeat 0 (length logits) in
  ret (cross_entropy self (mkT2 logits (1 + size0 queue)) labels).

Definition detector (mode : bool) : Detector :=
  if mode then student self else teacher self.

(** [get_sampling_result], lines 287-325; [mode] is true for 'student'. *)
Definition get_sampling_result (metas : list Meta) (proposal_list : list Tensor2)
    (gt_bboxes_ : list Tensor2) (gt_labels_ : list (list Z)) (mode : bool)
  : outcome (list SamplingResult) :=
  omap (fun i =>
          obind (getitem proposal_list i) (fun p =>
          obind (getitem gt_bboxes_ i) (fun b =>
          obind (getitem gt_labels_ i) (fun l =>
          Done (assign_and_sample (detector mode) p b l)))))
       (seq 0 (length metas)).

(** One half of what [extract_ctr_info] returns. *)
Record CtrInfo : Type := mkCtrInfo {
  c_img : list Image;
  backbone_feature : Feat;
  c_img_metas : list Meta;
  c_proposals : list Tensor2;
  c_transform_matrix : list Mat;
  sampling_result : list SamplingResult;
}.

(** [extract_ctr_info], lines 517-572: the anchor through the student, the
    counterpart through the teacher.  [rpn_out] is one local variable: it
    is unbound when the student has no RPN, and keeps the student's value
    when only the teacher has none. *)
Definition extract_ctr_info (anchor_data ctr_data : Data) : M (CtrInfo * CtrInfo) :=
  let feat := extract_feat (student self) (img anchor_data) in
  if negb (with_rpn (student self)) then raise UnboundLocalError
  else
    let rpn_out := rpn_head (student self) feat in
    let proposal_list := get_bboxes (student self) rpn_out (img_metas anchor_data) in
    let! bs := read_box_list (gt_bboxes anchor_data) in
    let! ls := read_label_list (gt_labels anchor_data) in
    let! sr := lift (get_sampling_result (img_metas anchor_data) proposal_list
                       bs ls true) in
    let anchor_info :=
      mkCtrInfo (img anchor_data) feat (img_metas anchor_data) proposal_list
        (map transform_matrix (img_metas anchor_data)) sr in
    let feat := extract_feat (teacher self) (img ctr_data) in
    let rpn_out :=
      if with_rpn (teacher self) then rpn_head (teacher self) feat else rpn_out in
    let proposal_list := get_bboxes (teacher self) rpn_out (img_metas ctr_data) in
    let! bs := read_box_list (gt_bboxes ctr_data) in
    let! ls := read_label_list (gt_labels ctr_data) in
    let! sr := lift (get_sampling_result (img_metas ctr_data) proposal_list
                       bs ls false) in
    ret (anchor_info,
         mkCtrInfo (img ctr_data) feat (img_metas ctr_data) proposal_list
           (map transform_matrix (img_metas ctr_data)) sr).

Definition len {X : Type} (l : list X) : Z := Z.of_nat (length l).

(** The loop of lines 634-642 for the image pair number [i]. *)
Definition ctr_loss_1_collect (batch : Z) (i : nat)
    (res : SamplingResult * SamplingResult)
  : outcome (list Z * list Z * Tensor2 * Tensor2) :=
  let '(res_anchor, res_ctr) := res in
  obind (assert ((len (pos_assigned_gt_inds res_anchor) =? len (pos_gt_labels res_anchor))
                 && (len (pos_gt_labels res_anchor) =? size0 (pos_bboxes res_anchor))
                 && negb (size0 (pos_bboxes res_anchor) =? 0))) (fun _ =>
  obind (assert ((len (pos_assigned_gt_inds res_ctr) =? len (pos_gt_labels res_ctr))
                 && (len (pos_gt_labels res_ctr) =? size0 (pos_bboxes res_ctr))
                 && negb (size0 (pos_bboxes res_ctr) =? 0))) (fun _ =>
  Done (map (fun g => g + Z.of_nat i * batch) (pos_assigned_gt_inds res_anchor),
        map (fun g => g + Z.of_nat i * batch) (pos_assigned_gt_inds res_ctr),
        pos_bboxes res_anchor, pos_bboxes res_ctr))).

Fixpoint omapi {X Y : Type} (f : nat -> X -> outcome Y) (i : nat) (l : list X)
  : outcome (list Y) :=
  match l with
  | [] => Done []
  | x :: l' => obind (f i x) (fun y =>
               obind (omapi f (S i) l') (fun ys => Done (y :: ys)))
  end.

(** The loop of lines 649-653: for every anchor positive, one counterpart
    positive of the same ground-truth index, drawn at random. *)
Fixpoint ctr_loss_1_select (gt_maps pos_gt_map_ctr : list Z) (ctr_proposal : Tensor2)
    (ctr_select_proposal : Tensor2) : M Tensor2 :=
  match gt_maps with
  | [] => ret ctr_select_proposal
  | gt_map :: rest =>
      let pos_inds := map (fun g => g =? gt_map) pos_gt_map_ctr in
      let! pos_rows := lift (mask_select (rows ctr_proposal) pos_inds) in
      let pos_proposal := mkT2 pos_rows (size1 ctr_proposal) in
      let! rand_index := randint (size0 pos_proposal) 1 in
      let! picked := lift (index_rows pos_proposal rand_index) in
      let! acc := lift (cat2 ctr_select_proposal picked) in
      ctr_loss_1_select rest pos_gt_map_ctr ctr_proposal acc
  end.

(** Lines 617-660 of [ctr_loss_1]: the positives of both views, the
    counterpart matched to every anchor positive, and the pooled features
    of both. *)
Definition ctr_loss_1_proposals (anchor_info ctr_info : CtrInfo) : M (Tensor2 * Tensor2) :=
  let student_feat := backbone_feature anchor_info in
  let teacher_feat := backbone_feature ctr_info in
  let anchor_sample_res := sampling_result anchor_info in
  let ctr_sample_res := sampling_result ctr_info in
  let! first := lift (getitem anchor_sample_res 0) in
  let batch := size0 (bboxes first) in
  let! collected :=
    lift (omapi (ctr_loss_1_collect batch) 0
            (combine anchor_sample_res ctr_sample_res)) in
  let pos_gt_map_anchor := concat (map (fun c => c.1.1.1) collected) in
  let pos_gt_map_ctr := concat (map (fun c => c.1.1.2) collected) in
  let pos_labels_anchor :=
    concat (map (fun r => pos_gt_labels r.1) (combine anchor_sample_res ctr_sample_res)) in
  let pos_labels_ctr :=
    concat (map (fun r => pos_gt_labels r.2) (combine anchor_sample_res ctr_sample_res)) in
  let! anchor_proposal := lift (bbox2roi (map (fun c => c.1.2) collected)) in
  let! ctr_proposal := lift (bbox2roi (map (fun c => c.2) collected)) in
  lift (assert ((len pos_gt_map_anchor =? len pos_labels_anchor)
                && (len pos_labels_anchor =? size0 anchor_proposal))) ;;;
  lift (assert ((len pos_gt_map_ctr =? len pos_labels_ctr)
                && (len pos_labels_ctr =? size0 ctr_proposal))) ;;;
  let! ctr_select_proposal :=
    ctr_loss_1_select pos_gt_map_anchor pos_gt_map_ctr ctr_proposal (mkT2 [] 5) in
  lift (assert ((size0 anchor_proposal =? size0 ctr_select_proposal)
                && (size1 anchor_proposal =? size1 ctr_select_proposal)
                && (size1 ctr_select_proposal =? 5))) ;;;
  ret (bbox_roi_extractor (student self) student_feat anchor_proposal,
       bbox_roi_extractor (teacher self) teacher_feat ctr_select_proposal).

(** The features [ctr_loss_1] enqueues, lines 661-677: none when either
    view has no pooled features, the counterpart embeddings otherwise. *)
Definition ctr_loss_1_keys (student_proposals teacher_proposals : Tensor2) : Tensor2 :=
  if (size0 student_proposals =? 0) || (size0 teacher_proposals =? 0)
  then mkT2 [] 128
  else F_normalize (projector (teacher self) teacher_proposals).

(** [ctr_loss_1], lines 617-679. *)
Definition ctr_loss_1 (anchor_info ctr_info : CtrInfo) : M (gmap string LossT) :=
  let! pooled := ctr_loss_1_proposals anchor_info ctr_info in
  let '(student_proposals, teacher_proposals) := pooled in
  if (size0 student_proposals =? 0) || (size0 teacher_proposals =? 0) then
    _dequeue_and_enqueue (mkT2 [] 128) ;;;
    ret {[ "ctr1_loss"%string := Vector [zero self] ]}
  else
    let student_vec := F_normalize (projector (student self) student_proposals) in
    let teacher_vec := F_normalize (projector (teacher self) teacher_proposals) in
    let! loss := contrast student_vec teacher_vec (ctr1_T self) in
    _dequeue_and_enqueue teacher_vec ;;;
    ret {[ "ctr1_loss"%string := Scalar loss ]}.

(** The body of the loop of lines 687-692 for the image [box_i]. *)
Definition ctr_loss_2_subsample (bboxes_ labels : nat) (box_i : nat) : M unit :=
  let! bl := read_box_list bboxes_ in
  let! ll := read_label_list labels in
  let! b := lift (getitem bl box_i) in
  let! l := lift (getitem ll box_i) in
  lift (assert ((size0 b =? len l) && negb (len l =? 0))) ;;;
  if ctr2_num self <? size0 b then
    let! rand_index := randint (size0 b) (ctr2_num self) in
    let! b' := lift (index_rows b rand_index) in
    setitem_box_list bboxes_ box_i b' ;;;
    let! l' := lift (select l rand_index) in
    setitem_label_list labels box_i l'
  else ret tt.

Fixpoint for_each {X : Type} (l : list X) (body : X -> M unit) : M unit :=
  match l with
  | [] => ret tt
  | x :: l' => body x ;;; for_each l' body
  end.

(** [t.view(t.size(0), -1)] *)
Definition view_rows (t : Tensor2) : outcome Tensor2 :=
  if size0 t =? 0 then Raised RuntimeError else Done t.

(** The loop of lines 704-715.  The retry of line 709 rebinds
    [same_label_item] to the whole list the index returns, so the loop
    condition that follows it subscripts a list with a string. *)
Fixpoint ctr_loss_2_exemplars (all_labels : list Z) (teacher_vec : Tensor2)
  : M Tensor2 :=
  match all_labels with
  | [] => ret teacher_vec
  | label :: rest =>
      let! n := gets dataset_pos in
      modify (set_dataset_pos (S n)) ;;;
      let same_label_item := get_same_label_item self label n in
      lift (assert (len same_label_item =? 3)) ;;;
      let! item := lift (getitem same_label_item 2) in
      (if existsb (fun g => g =? label) (item_gt_labels item) then ret tt
       else modify (set_dataset_pos (S (S n))) ;;; raise TypeError) ;;;
      let feat := extract_feat (teacher self) [item_img item] in
      let! same := lift (mask_select (rows (item_gt_bboxes item))
                           (map (fun g => g =? label) (item_gt_labels item))) in
      let! teacher_proposal_rois :=
        lift (bbox2roi [mkT2 same (size1 (item_gt_bboxes item))]) in
      let! rand_index := randint (size0 teacher_proposal_rois) 1 in
      let! picked := lift (index_rows teacher_proposal_rois rand_index) in
      let teacher_proposal := bbox_roi_extractor (teacher self) feat picked in
      let! flat := lift (view_rows teacher_proposal) in
      let vec := projector (teacher self) flat in
      let! acc := lift (cat2 teacher_vec vec) in
      ctr_loss_2_exemplars rest acc
  end.

(** Lines 694-727 of [ctr_loss_2]: the contrast of the anchor boxes with
    one exemplar of the same class each. *)
Definition ctr_loss_2_contrast (anchor_info : CtrInfo) (bboxes_ labels : nat)
  : M (gmap string LossT) :=
  let! bl := read_box_list bboxes_ in
  let! student_proposal_rois := lift (bbox2roi bl) in
  let student_proposals :=
    bbox_roi_extractor (student self) (backbone_feature anchor_info)
      student_proposal_rois in
  lift (assert (negb (size0 student_proposals =? 0))) ;;;
  let student_vec := F_normalize (projector (student self) student_proposals) in
  let! ll := read_label_list labels in
  let all_labels := concat ll in
  lift (assert (size0 student_proposal_rois =? len all_labels)) ;;;
  let! teacher_vec :=
    ctr_loss_2_exemplars all_labels (mkT2 [] (projector_dim self)) in
  let teacher_vec := F_normalize teacher_vec in
  lift (assert ((size0 student_vec =? size0 teacher_vec)
                && negb (size0 teacher_vec =? 0)
                && (size1 student_vec =? size1 teacher_vec)
                && (size1 teacher_vec =? projector_dim self))) ;;;
  let! loss := contrast student_vec teacher_vec (ctr2_T self) in
  ret {[ "ctr2_loss"%string := Scalar loss ]}.

(** [ctr_loss_2], lines 683-727.  [bboxes_] and [labels] are the list
    objects of the caller. *)
Definition ctr_loss_2 (anchor_info : CtrInfo) (bboxes_ labels : nat)
  : M (gmap string LossT) :=
  let! bl := read_box_list bboxes_ in
  let! ll := read_label_list labels in
  let! _ := lift (getitem bl 0) in
  lift (assert (len bl =? len ll)) ;;;
  for_each (seq 0 (length bl)) (ctr_loss_2_subsample bboxes_ labels) ;;;
  ctr_loss_2_contrast anchor_info bboxes_ labels.

(** The loop of lines 592-601 for the image [i]: the four per-image counts
    agree, and an image with boxes is kept. *)
Definition ctr_loss_valid (a_b c_b : list Tensor2) (a_l c_l : list (list Z))
    (a_m c_m : list Meta) (i : nat)
  : outcome (option (Tensor2 * list Z * Meta * Tensor2 * list Z * Meta)) :=
  obind (getitem a_b i) (fun ab =>
  obind (getitem a_l i) (fun al =>
  obind (getitem c_b i) (fun cb =>
  obind (getitem c_l i) (fun cl =>
  obind (assert ((size0 ab =? len al) && (len al =? size0 cb)
                 && (size0 cb =? len cl))) (fun _ =>
  if size0 ab =? 0 then Done None
  else
    obind (getitem a_m i) (fun am =>
    obind (getitem c_m i) (fun cm =>
    Done (Some (ab, al, am, cb, cl, cm))))))))).

(** Lines 589-608 of [ctr_loss]: the images with boxes, as two new data
    dicts with lists of their own. *)
Definition ctr_loss_valid_data (anchor_data ctr_data : Data)
    (a_b c_b : list Tensor2) (a_l c_l : list (list Z)) : M (Data * Data) :=
  let! kept :=
    lift (omap (ctr_loss_valid a_b c_b a_l c_l (img_metas anchor_data)
                  (img_metas ctr_data)) (seq 0 (length a_b))) in
  let valid_ind :=
    map fst (filter (fun p => is_Some (snd p)) (combine (seq 0 (length a_b)) kept)) in
  let valid := omap_filter kept in
  let! a_img := lift (select (img anchor_data) valid_ind) in
  let! c_img := lift (select (img ctr_data) valid_ind) in
  let valid_a_b := map (fun v => v.1.1.1.1.1) valid in
  let valid_a_l := map (fun v => v.1.1.1.1.2) valid in
  let valid_c_b := map (fun v => v.1.1.2) valid in
  let valid_c_l := map (fun v => v.1.2) valid in
  let! va_b := new_box_list valid_a_b in
  let! va_l := new_label_list valid_a_l in
  let! vc_b := new_box_list valid_c_b in
  let! vc_l := new_label_list valid_c_l in
  lift (assert ((len valid_a_b =? len valid_c_b) && (len valid_c_b =? len valid_a_l)
                && (len valid_a_l =? len valid_c_l) && (len valid_c_l =? len a_img)
                && (len a_img =? len c_img))) ;;;
  ret (mkData a_img (map (fun v => v.1.1.1.2) valid) va_b va_l None,
       mkData c_img (map (fun v => v.2) valid) vc_b vc_l None).

(** The number of ground-truth boxes of a batch, lines 580-582. *)
Definition gt_num (a_b : list Tensor2) : Z := fold_right Z.add 0 (map size0 a_b).

(** [ctr_loss], lines 574-615.  The ghost log [paired] records which
    anchor image is contrasted with which counterpart image. *)
Definition ctr_loss (anchor_data ctr_data : Data) : M (gmap string LossT) :=
  let! a_b := read_box_list (gt_bboxes anchor_data) in
  let! c_b := read_box_list (gt_bboxes ctr_data) in
  let! a_l := read_label_list (gt_labels anchor_data) in
  let! c_l := read_label_list (gt_labels ctr_data) in
  lift (assert ((len a_b =? len c_b) && (len c_b =? len a_l)
                && (len a_l =? len c_l) && (len c_l =? len (img anchor_data))
                && (len (img anchor_data) =? len (img ctr_data)))) ;;;
  if gt_num a_b =? 0 then
    _dequeue_and_enqueue (mkT2 [] 128) ;;;
    ret (<[ "ctr2_loss"%string := Vector [zero self] ]>
           {[ "ctr1_loss"%string := Vector [zero self] ]})
  else
    let! valid := ctr_loss_valid_data anchor_data ctr_data a_b c_b a_l c_l in
    let '(anchor_data, ctr_data) := valid in
    modify (fun s => set_paired
                       (paired s ++ [combine (map filename (img_metas anchor_data))
                                       (map filename (img_metas ctr_data))]) s) ;;;
    let! infos := extract_ctr_info anchor_data ctr_data in
    let! ctr1_loss := ctr_loss_1 infos.1 infos.2 in
    let! ctr2_loss :=
      ctr_loss_2 infos.1 (gt_bboxes anchor_data) (gt_labels anchor_data) in
    ret (ctr2_loss ∪ ctr1_loss).

(** The realignment of lines 85-87 and 112-114:
    [tidx = [tnames.index(name) for name in snames]]. *)
Definition align (t_metas s_metas : list Meta) : outcome (list nat) :=
  omap (index (map filename t_metas)) (map filename s_metas).

(** The call of [extract_teacher_info] on the realigned batch,
    lines 88-98 and 115-125. *)
Definition extract_aligned (d : Data) (tidx : list nat) : outcome TeacherInfo :=
  obind (select (img d) tidx) (fun imgs =>
  obind (select (img_metas d) tidx) (fun metas =>
  obind (match proposals d with
         | Some p => obind (select p tidx) (fun p' => Done (Some p'))
         | None => Done None
         end) (fun props =>
  extract_teacher_info imgs metas props))).

(** [multi_apply(filter_invalid, [bbox[:, :4] ...], labels, [bbox[:, 4] ...],
    thr=cls_pseudo_threshold, min_size=min_pseduo_box_size)],
    lines 127-134 and 260-267. *)
Definition filter_pseudo (bs : list Tensor2) (ls : list (list Z))
  : outcome (list Tensor2 * list (list Z)) :=
  obind (omap (fun b => obind (column b 4) (fun score =>
                        Done (columns_upto b 4, score))) bs) (fun split =>
  match combine split ls with
  | [] => Raised ValueError
  | args =>
      let filtered :=
        map (fun '(b, score, l) =>
               filter_invalid self b l score (cls_pseudo_threshold self)
                 (min_pseduo_box_size self)) args in
      Done (map fst filtered, map snd filtered)
  end).

(** [foward_unsup_ctr_train], lines 111-158. *)
Definition foward_unsup_ctr_train (anchor_data ctr_data : Data)
  : M (gmap string LossT) :=
  let! tidx := lift (align (img_metas ctr_data) (img_metas anchor_data)) in
  let! ctr_info := lift (extract_aligned ctr_data tidx) in
  let! filtered := lift (filter_pseudo (det_bboxes ctr_info) (det_labels ctr_info)) in
  let '(ctr_bboxes, ctr_labels) := filtered in
  let stumatrix := map transform_matrix (img_metas anchor_data) in
  let! trans := lift (_get_trans_mat (t_transform_matrix ctr_info) stumatrix) in
  let anchor_bboxes :=
    _transform_bbox ctr_bboxes trans (map img_shape (img_metas anchor_data)) in
  let anchor_labels := ctr_labels in
  let! a_b := new_box_list anchor_bboxes in
  let! a_l := new_label_list anchor_labels in
  let! c_b := new_box_list ctr_bboxes in
  let! c_l := new_label_list ctr_labels in
  ctr_loss
    (mkData (img anchor_data) (img_metas anchor_data) a_b a_l (proposals anchor_data))
    (mkData (img ctr_data) (img_metas ctr_data) c_b c_l (proposals ctr_data)).

(** What [extract_student_info] returns, lines 336-350. *)
Record StudentInfo : Type := mkStudentInfo {
  s_img : list Image;
  s_backbone_feature : Feat;
  s_rpn_out : option RpnOut;
  s_img_metas : list Meta;
  s_proposals : option (list Tensor2);
  s_transform_matrix : list Mat;
}.

Definition extract_student_info (d : Data) : StudentInfo :=
  let feat := extract_feat (student self) (img d) in
  mkStudentInfo (img d) feat
    (if with_rpn (student self) then Some (rpn_head (student self) feat) else None)
    (img_metas d) (proposals d) (map transform_matrix (img_metas d)).

(** [sum([len(bbox) for bbox in l]) / len(l)], the argument of [log_every_n]. *)
Definition log_mean_len (l : list Tensor2) : outcome unit :=
  if len l =? 0 then Raised ZeroDivisionError else Done tt.

(** [rpn_loss], lines 203-248. *)
Definition rpn_loss (rpn_out : RpnOut) (pseudo_bboxes : list Tensor2)
    (metas : list Meta) (student_info : StudentInfo)
  : outcome (gmap string LossT * option (list Tensor2)) :=
  if with_rpn (student self) then
    obind (omap (fun b => obind (column b 4) (fun score =>
                 Done (filter_invalid_boxes self (columns_upto b 4) score
                         (rpn_pseudo_threshold self) (min_pseduo_box_size self))))
                pseudo_bboxes) (fun gts =>
    obind (log_mean_len gts) (fun _ =>
    let losses := rpn_head_loss (student self) rpn_out gts metas in
    let proposal_list := get_bboxes (student self) rpn_out metas in
    obind (getitem (s_img student_info) 0) (fun _ =>
    obind (getitem pseudo_bboxes 0) (fun b0 =>
    obind (column b0 4) (fun _ =>
    obind (getitem (s_img_metas student_info) 0) (fun _ =>
    Done (losses, Some proposal_list)))))))
  else Done (∅, None).

(** [unsup_rcnn_loss], lines 250-285. *)
Definition unsup_rcnn_loss (feat : Feat) (metas : list Meta)
    (proposal_list : list Tensor2) (pseudo_bboxes : list Tensor2)
    (pseudo_labels : list (list Z)) (student_info : StudentInfo)
  : outcome (gmap string LossT) :=
  obind (filter_pseudo pseudo_bboxes pseudo_labels) (fun '(gts, gls) =>
  obind (log_mean_len gts) (fun _ =>
  let losses := roi_head_forward_train (student self) feat metas proposal_list gts gls in
  obind (getitem gts 0) (fun g0 =>
  obind (if 0 <? size0 g0
         then obind (getitem (s_img student_info) 0) (fun _ =>
              obind (getitem gls 0) (fun _ =>
              obind (getitem (s_img_metas student_info) 0) (fun _ => Done tt)))
         else Done tt) (fun _ =>
  Done losses)))).

(** [compute_pseudo_label_loss], lines 161-201.  The entries of
    [student_info] and [teacher_info] are used index by index. *)
Definition compute_pseudo_label_loss (student_info : StudentInfo)
    (teacher_info : TeacherInfo) : M (gmap string LossT) :=
  modify (fun s => set_paired
                     (paired s ++ [combine (map filename (s_img_metas student_info))
                                     (map filename (t_img_metas teacher_info))]) s) ;;;
  let! trans := lift (_get_trans_mat (t_transform_matrix teacher_info)
                        (s_transform_matrix student_info)) in
  let shapes := map img_shape (s_img_metas student_info) in
  let pseudo_bboxes := _transform_bbox (det_bboxes teacher_info) trans shapes in
  let pseudo_labels := det_labels teacher_info in
  let! rpn_out := lift (match s_rpn_out student_info with
                        | Some r => Done r
                        | None => Raised KeyError
                        end) in
  let! rpn := lift (rpn_loss rpn_out pseudo_bboxes (s_img_metas student_info)
                      student_info) in
  let '(rpn_losses, proposal_list) := rpn in
  let student_proposals :=
    match proposal_list with
    | Some p => Some p
    | None => s_proposals student_info
    end in
  let! props :=
    lift (if use_teacher_proposal self
          then Done (_transform_bbox (t_proposals teacher_info) trans shapes)
          else match student_proposals with
               | Some p => Done p
               | None => Raised TypeError
               end) in
  let! rcnn := lift (unsup_rcnn_loss (s_backbone_feature student_info)
                       (s_img_metas student_info) props pseudo_bboxes pseudo_labels
                       student_info) in
  ret (rcnn ∪ rpn_losses).

(** [foward_unsup_train], lines 83-109. *)
Definition foward_unsup_train (teacher_data student_data anchor_data ctr_data : Data)
  : M (gmap string LossT) :=
  let! tidx := lift (align (img_metas teacher_data) (img_metas student_data)) in
  let! teacher_info := lift (extract_aligned teacher_data tidx) in
  let student_info := extract_student_info student_data in
  let! ctr := foward_unsup_ctr_train anchor_data ctr_data in
  let! pseudo_loss := compute_pseudo_label_loss student_info teacher_info in
  ret (pseudo_loss ∪ ctr).

(** [loss * lam] *)
Definition scale (l : LossT) (w : A) : LossT :=
  match l with
  | Scalar x => Scalar (fmul self x w)
  | Vector v => Vector (map (fun x => fmul self x w) v)
  end.

Definition group (data_groups : gmap string Data) (k : string) : outcome Data :=
  match data_groups !! k with
  | Some d => Done d
  | None => Raised KeyError
  end.

Definition key (d : gmap string LossT) (k : string) : outcome LossT :=
  match d !! k with
  | Some v => Done v
  | None => Raised KeyError
  end.

Definition prefixed (pre : string) (d : gmap string LossT) : gmap string LossT :=
  kmap (String.append pre) d.

(** [forward_train], lines 44-81, from the groups [dict_split] returns. *)
Definition forward_train (data_groups : gmap string Data) : M (gmap string LossT) :=
  let! loss :=
    match data_groups !! "sup"%string with
    | Some sup =>
        let! gts := read_box_list (gt_bboxes sup) in
        lift (log_mean_len gts) ;;;
        let! gls := read_label_list (gt_labels sup) in
        let sup_loss :=
          detector_forward_train (student self) (img sup) (img_metas sup) gts gls in
        let! anchor := lift (group data_groups "ctr_anchor_sup") in
        let! ctr := lift (group data_groups "ctr_ctr_sup") in
        let! sup_ctr_loss := ctr_loss anchor ctr in
        let! c1 := lift (key sup_ctr_loss "ctr1_loss") in
        let sup_ctr_loss := <[ "ctr1_loss"%string := scale c1 (ctr1_lam_sup self) ]> sup_ctr_loss in
        let! c2 := lift (key sup_ctr_loss "ctr2_loss") in
        let sup_ctr_loss := <[ "ctr2_loss"%string := scale c2 (ctr2_lam_sup self) ]> sup_ctr_loss in
        ret (prefixed "sup_" sup_ctr_loss ∪ prefixed "sup_" sup_loss)
    | None => ret ∅
    end in
  match data_groups !! "unsup_student"%string with
  | Some unsup_student =>
      let! unsup_teacher := lift (group data_groups "unsup_teacher") in
      let! anchor := lift (group data_groups "ctr_anchor_unsup") in
      let! ctr := lift (group data_groups "ctr_ctr_unsup") in
      let! unsup := foward_unsup_train unsup_teacher unsup_student anchor ctr in
      let unsup_loss := weighted_loss self unsup (unsup_weight self) in
      ret (prefixed "unsup_" unsup_loss ∪ loss)
  | None => ret loss
  end.

End Methods.
End Model.

(** ** Box augmentation and checkpoint keys

    The two methods of the class that read no attribute of the detector. *)

Section AugBox.
Context {A : Type}.
(** The float operations of torch on the entries, the constant 1 and the
    sample [torch.randn(times, n, 4)] drawn for the box tensor number [k]:
    [randn k t i c]. *)
Variables (add sub mul : A -> A -> A) (clamp_min : A -> A -> A) (one : A).
Variable randn : nat -> nat -> nat -> nat -> A.

(** The row [i] of the copy [t] of [_aug_single(box)], lines 413-429: the
    width and the height of the box, at least 1, repeated to
    (w, h, w, h), times [frac], times the sample, added to the four
    coordinates; the columns from the fifth on are copied. *)
Definition aug_row (frac : A) (k t i : nat) (r : list A) : list A :=
  let box_scale :=
    zip_with sub (py_slice r (Some 2) (Some 4)) (py_slice r None (Some 2)) in
  let box_scale := map (clamp_min one) box_scale in
  let aug_scale := map (fun x => mul x frac) (box_scale ++ box_scale) in
  let offset := imap (fun c a => mul (randn k t i c) a) aug_scale in
  zip_with add (py_slice r None (Some 4)) offset ++ py_slice r (Some 4) None.

(** [_aug_single(box)] for the box tensor number [k]: [times] jittered
    copies.  A tensor with fewer than four columns is a shape error in
    the difference of the slices, the expansion or the sum; a negative
    [times] is an error of [torch.randn]. *)
Definition _aug_single (times : Z) (frac : A) (k : nat) (box : @Tensor2 A)
  : outcome (list (@Tensor2 A)) :=
  if (size1 box <? 4) || (times <? 0) then Raised RuntimeError
  else
    Done (map (fun t => mkT2 (imap (aug_row frac k t) (rows box)) (size1 box))
              (seq 0 (Z.to_nat times))).

(** [aug_box], lines 411-431: [[_aug_single(box) for box in boxes]]. *)
Definition aug_box (boxes : list (@Tensor2 A)) (times : Z) (frac : A)
  : outcome (list (list (@Tensor2 A))) :=
  omapi (_aug_single times frac) 0 boxes.

End AugBox.

(** Python's [needle in hay] on strings. *)
Fixpoint contains (needle hay : string) : bool :=
  String.prefix needle hay
  || match hay with
     | EmptyString => false
     | String _ hay' => contains needle hay'
     end.

Section StateDict.
Context {V R : Type}.

(** [{pre + k: state_dict[k] for k in keys}], built key by key on [acc]. *)
Fixpoint comprehension (pre : string) (keys : list string)
    (state_dict acc : gmap string V) : outcome (gmap string V) :=
  match keys with
  | [] => Done acc
  | k :: keys' =>
      match state_dict !! k with
      | Some v => comprehension pre keys' state_dict (<[pre +:+ k := v]> acc)
      | None => Raised KeyError
      end
  end.

(** [for k in keys: state_dict.pop(k)] *)
Fixpoint pop_all (keys : list string) (state_dict : gmap string V)
  : outcome (gmap string V) :=
  match keys with
  | [] => Done state_dict
  | k :: keys' =>
      match state_dict !! k with
      | Some _ => pop_all keys' (delete k state_dict)
      | None => Raised KeyError
      end
  end.

(** [_load_from_state_dict], lines 433-458: the dict as it is handed to the
    parent class, and what the parent class returns for it.  The dict is a
    finite map (its order plays no part), [dict.update(other)] is the union
    that prefers [other], and [super_load] is the method of the parent
    class with its other arguments fixed. *)
Definition _load_from_state_dict (super_load : gmap string V -> R)
    (state_dict : gmap string V) : outcome (gmap string V * R) :=
  obind (if negb (existsb (fun key => contains "student" key || contains "teacher" key)
                    (map_to_list state_dict).*1)
         then
           let keys := (map_to_list state_dict).*1 in
           obind (comprehension "teacher." keys state_dict ∅) (fun t =>
           let state_dict := t ∪ state_dict in
           obind (comprehension "student." keys state_dict ∅) (fun s =>
           let state_dict := s ∪ state_dict in
           pop_all keys state_dict))
         else Done state_dict) (fun state_dict =>
  Done (state_dict, super_load state_dict)).

End StateDict.

(** ** A small concrete instance

    Integers stand for the float entries, an image is named by a string,
    and the features of a batch are the names of its images.  The instance
    serves the examples and counterexamples at the end of the file. *)

(** A sampler that returns every ground-truth box as its own positive. *)
Definition sample_gt (p b : @Tensor2 Z) (l : list Z) : @SamplingResult Z :=
  mkSamplingResult b b (map Z.of_nat (seq 0 (length l))) l.

(** A sampler that finds no positive proposal at all. *)
Definition sample_none (p b : @Tensor2 Z) (l : list Z) : @SamplingResult Z :=
  mkSamplingResult b (mkT2 [] 4) [] [].

Definition demo_detector {Mat : Type}
    (sampler : @Tensor2 Z -> @Tensor2 Z -> list Z -> @SamplingResult Z)
    (roi_extractor : list string -> @Tensor2 Z -> @Tensor2 Z)
  : @Detector Z string (list string) (list string) Mat :=
  mkDetector true (fun imgs => imgs) (fun feat => feat)
    (fun rpn_out _ => map (fun _ => mkT2 [[0; 0; 4; 4; 1]] 5) rpn_out)
    (fun _ _ _ => ∅)
    (fun _ _ props => (props, map (fun p => map (fun _ => 7) (rows p)) props))
    sampler roi_extractor (fun t => t)
    (fun _ _ _ _ _ => ∅)
    (fun _ _ _ _ => ∅).

(** The row (1, 0, ..., 0) of the length of [r]. *)
Definition first_axis (r : list Z) : list Z :=
  match r with
  | [] => []
  | _ :: r' => 1 :: map (fun _ => 0) r'
  end.

Definition demo_self {Mat : Type} (matmul_ : Mat -> Mat -> Mat)
    (inverse_ : Mat -> outcome Mat) (K D : Z) (thr : cfg_value Z)
    (det : @Detector Z string (list string) (list string) Mat)
    (peers : nat -> @Group Z)
  : @SoftTeacher Z string (list string) (list string) Mat :=
  mkSelf K D 2 1 1 1 1 det det
    1 thr 0 0 0 false
    0 (fun z => z) Z.mul Z.div
    (fun x y => fold_right Z.add 0 (map (fun p => fst p * snd p) (combine x y)))
    first_axis (fun logits _ => len (rows logits))
    matmul_ inverse_ (fun i j => Z.of_nat (i + j)) (fun n => Z.of_nat n)
    (fun b l _ _ _ => (b, l)) (fun b _ _ _ => b) (fun bs _ _ => bs) (fun d _ => d)
    (fun label _ => [mkItem "x" (mkT2 [] 4) []; mkItem "y" (mkT2 [] 4) [];
                     mkItem "z" (mkT2 [[1; 1; 2; 2]] 4) [label]])
    peers.

(** A single process: no peer in any round. *)
Definition alone : nat -> @Group Z := fun _ => mkGroup [] [].

(** The instance with trivial transform matrices, a queue of [K] rows of
    [D] columns and the threshold [thr]. *)
Definition unit_self (K D : Z) (thr : cfg_value Z)
    (sampler : @Tensor2 Z -> @Tensor2 Z -> list Z -> @SamplingResult Z)
    (roi_extractor : list string -> @Tensor2 Z -> @Tensor2 Z)
    (peers : nat -> @Group Z)
  : @SoftTeacher Z string (list string) (list string) unit :=
  demo_self (fun _ _ => tt) (fun _ => Done tt) K D thr
    (demo_detector sampler roi_extractor) peers.

Definition keep_rois (feat : list string) (rois : @Tensor2 Z) : @Tensor2 Z := rois.
Definition drop_rois (feat : list string) (rois : @Tensor2 Z) : @Tensor2 Z :=
  mkT2 [] 5.

Definition meta (name : string) : @Meta unit := mkMeta name tt (8, 8, 3).

(** A state whose queue holds [q] with the cursor at [p], and whose list
    objects 0, 1, ... hold the given box lists and label lists. *)
Definition demo_state (q : @Tensor2 Z) (p : Z)
    (boxes : list (list (@Tensor2 Z))) (labels : list (list (list Z))) : @State Z :=
  mkState q p (list_to_map (imap (fun i l => (i, l)) boxes))
    (list_to_map (imap (fun i l => (i, l)) labels)) 0 0 0 [] [].

Definition box (x : Z) : list Z := [x; x; x + 2; x + 2].
Definition one_box (x : Z) : @Tensor2 Z := mkT2 [box x] 4.

(** A queue of [k] rows (1, 0, 0, 0, 0). *)
Definition axis_queue (k : nat) : @Tensor2 Z := mkT2 (repeat [1; 0; 0; 0; 0] k) 5.

(** The squared L2 norm of an integer row is 1. *)
Definition unit_row (r : list Z) : Prop :=
  fold_right (fun x acc => x * x + acc) 0 r = 1.

(** *** 3 x 3 matrices over the reals, for the transform matrices *)

Record Mat3 : Type := mkMat3 {
  m00 : R; m01 : R; m02 : R;
  m10 : R; m11 : R; m12 : R;
  m20 : R; m21 : R; m22 : R;
}.

Definition mat3_eye : Mat3 := mkMat3 1 0 0 0 1 0 0 0 1.

Definition mat3_mul (x y : Mat3) : Mat3 :=
  mkMat3
    (m00 x * m00 y + m01 x * m10 y + m02 x * m20 y)
    (m00 x * m01 y + m01 x * m11 y + m02 x * m21 y)
    (m00 x * m02 y + m01 x * m12 y + m02 x * m22 y)
    (m10 x * m00 y + m11 x * m10 y + m12 x * m20 y)
    (m10 x * m01 y + m11 x * m11 y + m12 x * m21 y)
    (m10 x * m02 y + m11 x * m12 y + m12 x * m22 y)
    (m20 x * m00 y + m21 x * m10 y + m22 x * m20 y)
    (m20 x * m01 y + m21 x * m11 y + m22 x * m21 y)
    (m20 x * m02 y + m21 x * m12 y + m22 x * m22 y).

Definition mat3_det (x : Mat3) : R :=
  (m00 x * (m11 x * m22 x - m12 x * m21 x)
   - m01 x * (m10 x * m22 x - m12 x * m20 x)
   + m02 x * (m10 x * m21 x - m11 x * m20 x))%R.

(** The adjugate over the determinant. *)
Definition mat3_adjugate_over (x : Mat3) (d : R) : Mat3 :=
  mkMat3
    ((m11 x * m22 x - m12 x * m21 x) / d)
    ((m02 x * m21 x - m01 x * m22 x) / d)
    ((m01 x * m12 x - m02 x * m11 x) / d)
    ((m12 x * m20 x - m10 x * m22 x) / d)
    ((m00 x * m22 x - m02 x * m20 x) / d)
    ((m02 x * m10 x - m00 x * m12 x) / d)
    ((m10 x * m21 x - m11 x * m20 x) / d)
    ((m01 x * m20 x - m00 x * m21 x) / d)
    ((m00 x * m11 x - m01 x * m10 x) / d).

(** [x.inverse()]: a singular matrix is a RuntimeError. *)
Definition mat3_inverse (x : Mat3) : outcome Mat3 :=
  if Req_dec_T (mat3_det x) 0 then Raised RuntimeError
  else Done (mat3_adjugate_over x (mat3_det x)).

Definition mat3_self : @SoftTeacher Z string (list string) (list string) Mat3 :=
  demo_self mat3_mul mat3_inverse 4 5 (CfgFloat 0)
    (demo_detector sample_gt keep_rois) alone.

(** A scaling by 2 with a shift, and a horizontal flip in an image 8 wide. *)
Definition scale_shift : Mat3 := mkMat3 2 0 1 0 2 3 0 0 1.
Definition flip : Mat3 := mkMat3 (-1) 0 8 0 1 0 0 0 1.

(** * Proofs *)

(** ** Lists, slices and outcomes *)

Lemma slice_bound_in (n i : Z) : 0 <= i <= n -> slice_bound n i = i.
Proof. intros H. unfold slice_bound. destruct (Z.ltb_spec i 0); lia. Qed.

Lemma py_slice_prefix {X : Type} (l : list X) (n : Z) :
  0 <= n <= Z.of_nat (length l) ->
  py_slice l None (Some n) = take (Z.to_nat n) l.
Proof.
  intros H. unfold py_slice. rewrite slice_bound_in by lia.
  simpl. f_equal. lia.
Qed.

Lemma py_slice_suffix {X : Type} (l : list X) (n : Z) :
  0 <= n <= Z.of_nat (length l) ->
  py_slice l (Some n) None = drop (Z.to_nat n) l.
Proof.
  intros H. unfold py_slice. rewrite slice_bound_in by lia.
  apply take_ge. rewrite length_drop. lia.
Qed.

Lemma omap_Done {X Y : Type} (f : X -> outcome Y) (g : X -> Y) (l : list X) :
  (forall x, x ∈ l -> f x = Done (g x)) -> omap f l = Done (map g l).
Proof.
  induction l as [|x l IH]; intros H; simpl; [done|].
  rewrite H by apply list_elem_of_here. simpl.
  rewrite IH; [done|]. intros y Hy. apply H. by apply list_elem_of_further.
Qed.

Lemma omap_inv {X Y : Type} (f : X -> outcome Y) (l : list X) (ys : list Y) :
  omap f l = Done ys -> Forall2 (fun x y => f x = Done y) l ys.
Proof.
  revert ys. induction l as [|x l IH]; intros ys H; simpl in H.
  - injection H as <-. constructor.
  - destruct (f x) as [y| |] eqn:Hx; simpl in H; try discriminate.
    destruct (omap f l) as [ys'| |]; simpl in H; try discriminate.
    injection H as <-. constructor; auto.
Qed.

Lemma list_max_Z_le (x : Z) (l : list Z) :
  x <= list_max_Z x l /\ Forall (fun y => y <= list_max_Z x l) l.
Proof.
  revert x. induction l as [|y l IH]; intros x; simpl.
  - split; [lia | constructor].
  - destruct (IH (Z.max x y)) as [H1 H2]. split; [lia|].
    constructor; [lia | done].
Qed.

(** Below 2^24 every integer is a float32. *)
Lemma float32_of_int_exact (n : Z) : 0 <= n <= 2 ^ 24 -> float32_of_int n = n.
Proof.
  intros H. unfold float32_of_int.
  destruct (Z.ltb_spec n (2 ^ 24)) as [|Hge]; [done|].
  assert (n = 2 ^ 24) as -> by lia. reflexivity.
Qed.

Section Proofs.
Context {A Image Feat RpnOut Mat : Type}.
Variable self : @SoftTeacher A Image Feat RpnOut Mat.

Abbreviation T2 := (@Tensor2 A).
Abbreviation St := (@State A).
Abbreviation Cmd := (@M A).
Abbreviation Batch := (@Data A Image Mat).
Abbreviation Losses := (gmap string (@LossT A)).

(** ** The gather *)

Lemma tensor_eta (t : T2) : mkT2 (rows t) (size1 t) = t.
Proof. by destruct t. Qed.

Lemma cat_all (d : Z) (ts : list T2) :
  Forall (fun t => size1 t = d) ts ->
  cat d ts = Done (mkT2 (concat (map rows ts)) d).
Proof.
  induction 1 as [|t ts Ht _ IH]; simpl; [done|].
  rewrite Ht, Z.eqb_refl, IH. reflexivity.
Qed.

Lemma pad_to_rows (max_batch : Z) (t : T2) :
  0 <= size1 t -> size0 t <= max_batch ->
  pad_to self max_batch t =
    Done (mkT2 (rows t ++ repeat (repeat (zero self) (Z.to_nat (size1 t)))
                            (Z.to_nat (max_batch - size0 t)))
               (size1 t)).
Proof.
  intros Hd Hn. unfold pad_to, zeros.
  destruct (Z.ltb_spec (max_batch - size0 t) 0); [lia|].
  destruct (Z.ltb_spec (size1 t) 0); [lia|].
  simpl. unfold cat2. simpl. by rewrite Z.eqb_refl.
Qed.

Lemma truncate_padded (t : T2) (pad : list (list A)) :
  slice_rows (mkT2 (rows t ++ pad) (size1 t)) None (Some (size0 t)) = t.
Proof.
  unfold slice_rows. simpl. rewrite py_slice_prefix.
  - unfold size0. rewrite Nat2Z.id, take_app_length. apply tensor_eta.
  - unfold size0. rewrite length_app. lia.
Qed.

Lemma truncate_all (pad : T2 -> list (list A)) (l : list T2) :
  map (fun '(bs, f) => slice_rows f None (Some bs))
      (combine (map size0 l) (map (fun t => mkT2 (rows t ++ pad t) (size1 t)) l))
  = l.
Proof.
  induction l as [|t l IH]; simpl; [done|].
  rewrite IH. f_equal. apply truncate_padded.
Qed.

Lemma gather_of_exact_counts (g : Group) (features : T2) :
  0 <= size1 features ->
  Forall (fun t => size0 t <= 2 ^ 24 /\ size1 t = size1 features)
         (lower g ++ features :: upper g) ->
  concat_all_gather self g features =
    Done (mkT2 (concat (map rows (lower g ++ features :: upper g)))
               (size1 features)).
Proof.
  intros Hd Hall. unfold concat_all_gather.
  set (everyone := lower g ++ features :: upper g) in *.
  assert (Hsz : map (fun t : T2 => float32_of_int (size0 t)) everyone
                = map size0 everyone).
  { apply map_ext_in. intros t Ht. apply float32_of_int_exact.
    rewrite Forall_forall in Hall. destruct (Hall t) as [? _].
    - by apply list_elem_of_In.
    - unfold size0 in *. lia. }
  rewrite Hsz.
  set (max_batch := list_max_Z _ _).
  assert (Hmax : Forall (fun t : T2 => size0 t <= max_batch) everyone).
  { destruct (list_max_Z_le (float32_of_int (size0 features)) (map size0 everyone))
      as [_ H]. by rewrite Forall_map in H. }
  assert (Hf : features ∈ everyone).
  { apply elem_of_app. right. apply list_elem_of_here. }
  rewrite Forall_forall in Hmax, Hall.
  rewrite pad_to_rows by auto. simpl.
  erewrite omap_Done; cycle 1.
  { intros t Ht. destruct (Hall t Ht) as [_ Hc].
    rewrite pad_to_rows by (auto; rewrite Hc; lia). simpl.
    rewrite Hc, Z.eqb_refl, <- Hc. reflexivity. }
  simpl.
  rewrite (truncate_all (fun t => repeat (repeat (zero self) (Z.to_nat (size1 t)))
                                   (Z.to_nat (max_batch - size0 t)))).
  apply cat_all.
  apply Forall_forall. intros t Ht. by destruct (Hall t Ht).
Qed.

Lemma size0_concat (ts : list T2) (d : Z) :
  size0 (mkT2 (concat (map rows ts)) d) = fold_right Z.add 0 (map size0 ts).
Proof.
  unfold size0. simpl. induction ts as [|t ts IH]; simpl; [done|].
  rewrite length_app. lia.
Qed.

(** ** One enqueue *)

Definition entered (features : T2) (s : St) : St :=
  set_rounds (S (rounds s)) (set_calls (calls s ++ [features]) s).

Lemma enqueue_nothing (features merged : T2) (s : St) :
  concat_all_gather self (world self (rounds s)) features = Done merged ->
  size0 merged = 0 ->
  _dequeue_and_enqueue self features s = (entered features s, Done tt).
Proof.
  intros Hg H0. unfold _dequeue_and_enqueue, bind, modify, next_round, lift.
  simpl. rewrite Hg, H0. reflexivity.
Qed.

Lemma expand_same_shape (v : T2) (n d : Z) :
  size1 v = d -> size0 v = n -> expand v n d = Done (rows v).
Proof.
  intros Hd Hn. unfold expand. rewrite Hd, Hn, !Z.eqb_refl. simpl.
  f_equal. unfold broadcast_row. rewrite Z.eqb_refl. apply map_id.
Qed.

Lemma setitem_rows_range (t v : T2) (lo hi : Z) :
  0 <= lo <= hi -> hi <= size0 t -> size1 v = size1 t -> size0 v = hi - lo ->
  setitem_rows t (Some lo) (Some hi) v =
    Done (mkT2 (take (Z.to_nat lo) (rows t) ++ rows v ++ drop (Z.to_nat hi) (rows t))
               (size1 t)).
Proof.
  intros Hlo Hhi Hd Hn. unfold setitem_rows.
  rewrite !slice_bound_in by lia.
  rewrite (expand_same_shape v) by lia. simpl.
  by replace (lo + Z.max 0 (hi - lo)) with hi by lia.
Qed.

Lemma setitem_rows_head (t v : T2) (hi : Z) :
  0 <= hi <= size0 t -> size1 v = size1 t -> size0 v = hi ->
  setitem_rows t None (Some hi) v =
    Done (mkT2 (rows v ++ drop (Z.to_nat hi) (rows t)) (size1 t)).
Proof.
  intros Hhi Hd Hn. unfold setitem_rows.
  rewrite !slice_bound_in by lia.
  rewrite (expand_same_shape v) by lia. simpl.
  by replace (Z.max 0 (hi - 0)) with hi by lia.
Qed.

Lemma size0_slice_prefix (t : T2) (n : Z) :
  0 <= n <= size0 t -> size0 (slice_rows t None (Some n)) = n.
Proof.
  intros H. unfold size0 in *. simpl. rewrite py_slice_prefix by lia.
  rewrite length_take. lia.
Qed.

Lemma size0_slice_suffix (t : T2) (n : Z) :
  0 <= n <= size0 t -> size0 (slice_rows t (Some n) None) = size0 t - n.
Proof.
  intros H. unfold size0 in *. simpl. rewrite py_slice_suffix by lia.
  rewrite length_drop. lia.
Qed.

(** The queue after a batch [m] is written at the cursor [p] of a queue [q]
    of [k] rows. *)
Definition written (q m : list (list A)) (p k : nat) : list (list A) :=
  if (k <=? p + length m)%nat
  then drop (k - p) m ++ drop (p + length m - k) (take p q) ++ take (k - p) m
  else take p q ++ m ++ drop (p + length m) q.

Lemma enqueue_writes (features merged : T2) (s : St) :
  concat_all_gather self (world self (rounds s)) features = Done merged ->
  0 < size0 merged <= memory_k self ->
  0 <= queue_ptr s < memory_k self ->
  size0 (queue_vector s) = memory_k self ->
  size1 merged = projector_dim self ->
  size1 (queue_vector s) = projector_dim self ->
  _dequeue_and_enqueue self features s =
    (set_queue_ptr ((queue_ptr s + size0 merged) mod memory_k self)
       (set_queue_vector
          (mkT2 (written (rows (queue_vector s)) (rows merged)
                   (Z.to_nat (queue_ptr s)) (Z.to_nat (memory_k self)))
                (projector_dim self))
          (entered features s)),
     Done tt).
Proof.
  intros Hg HB Hp HK Hd Hq.
  unfold _dequeue_and_enqueue, bind, modify, next_round, lift, gets. simpl.
  rewrite Hg. destruct (Z.eqb_spec (size0 merged) 0) as [|_]; [lia|].
  rewrite Hd, Z.eqb_refl. simpl. unfold written, py_mod.
  destruct (Z.eqb_spec (memory_k self) 0) as [|_]; [lia|].
  assert (Hlen : length (rows merged) = Z.to_nat (size0 merged))
    by (unfold size0; lia).
  destruct (Z.leb_spec (memory_k self) (queue_ptr s + size0 merged)) as [Hw|Hw].
  - destruct (Nat.leb_spec (Z.to_nat (memory_k self))
                (Z.to_nat (queue_ptr s) + length (rows merged))) as [_|]; [|lia].
    unfold setitem_queue. simpl.
    rewrite setitem_rows_range
      by (simpl; rewrite ?size0_slice_prefix by lia; lia).
    simpl. rewrite setitem_rows_head; cycle 1.
    { unfold size0 in *. simpl. rewrite !length_app, length_take, length_drop.
      rewrite py_slice_prefix by lia. rewrite length_take. lia. }
    { simpl. lia. }
    { rewrite size0_slice_suffix; lia. }
    simpl. unfold entered, set_queue_ptr, set_queue_vector, set_rounds, set_calls.
    simpl. rewrite Hq.
    rewrite py_slice_prefix, py_slice_suffix by (unfold size0 in *; lia).
    rewrite (drop_ge (rows (queue_vector s)) (Z.to_nat (memory_k self)))
      by (unfold size0 in HK; lia).
    rewrite app_nil_r.
    rewrite drop_app_le by (rewrite length_take; unfold size0 in HK; lia).
    repeat f_equal; lia.
  - destruct (Nat.leb_spec (Z.to_nat (memory_k self))
                (Z.to_nat (queue_ptr s) + length (rows merged))) as [|_]; [lia|].
    unfold setitem_queue. simpl.
    rewrite setitem_rows_range; try lia.
    simpl. unfold entered, set_queue_ptr, set_queue_vector, set_rounds, set_calls.
    simpl. rewrite Hq. repeat f_equal; lia.
Qed.

Lemma written_length (q m : list (list A)) (p k : nat) :
  (length q = k -> p < k -> length m <= k -> length (written q m p k) = k)%nat.
Proof.
  intros Hq Hp Hm. unfold written.
  destruct (Nat.leb_spec k (p + length m));
    rewrite !length_app, ?length_take, ?length_drop, ?length_take; lia.
Qed.

(** Rows that fit before the end of the queue land at the cursor. *)
Lemma written_tail (q m : list (list A)) (p k j : nat) :
  (length q = k -> p < k -> length m <= k -> j < length m -> p + j < k ->
   written q m p k !! (p + j) = m !! j)%nat.
Proof.
  intros Hq Hp Hm Hj Hfit. unfold written.
  destruct (Nat.leb_spec k (p + length m)).
  - rewrite lookup_app_r by (rewrite length_drop; lia).
    rewrite lookup_app_r by (rewrite !length_drop, length_take; lia).
    rewrite !length_drop, length_take, lookup_take_lt by lia.
    f_equal. lia.
  - rewrite lookup_app_r by (rewrite length_take; lia).
    rewrite length_take, lookup_app_l by lia. f_equal. lia.
Qed.

(** Rows past the end of the queue land at its head. *)
Lemma written_head (q m : list (list A)) (p k j : nat) :
  (length q = k -> p < k -> length m <= k -> j < length m -> k <= p + j ->
   written q m p k !! (p + j - k) = m !! j)%nat.
Proof.
  intros Hq Hp Hm Hj Hwrap. unfold written.
  destruct (Nat.leb_spec k (p + length m)); [|lia].
  rewrite lookup_app_l by (rewrite length_drop; lia).
  rewrite lookup_drop. f_equal. lia.
Qed.

(** Every other row stays. *)
Lemma written_frame (q m : list (list A)) (p k i : nat) :
  (length q = k -> p < k -> length m <= k -> i < k ->
   (i < p /\ p + length m - k <= i) \/ p + length m <= i ->
   written q m p k !! i = q !! i)%nat.
Proof.
  intros Hq Hp Hm Hi Hout. unfold written.
  destruct (Nat.leb_spec k (p + length m)).
  - destruct Hout as [[H1 H2]|]; [|lia].
    rewrite lookup_app_r by (rewrite length_drop; lia).
    rewrite lookup_app_l by (rewrite !length_drop, length_take; lia).
    rewrite length_drop, lookup_drop, lookup_take_lt by lia. f_equal. lia.
  - destruct Hout as [[H1 _]|H2].
    + rewrite lookup_app_l by (rewrite length_take; lia).
      by rewrite lookup_take_lt.
    + rewrite lookup_app_r by (rewrite length_take; lia).
      rewrite lookup_app_r by (rewrite length_take; lia).
      rewrite lookup_drop, length_take. f_equal. lia.
Qed.

(** C1, as amended: a merged batch of [B] rows, [0 < B <= K], is written at
    the cursor [ptr] with wraparound.  The rows that fit before the end of
    the queue go to [ptr], [ptr + 1], ...; when [ptr + B] exceeds [K] the
    remaining [B - (K - ptr)] rows go to positions [0], [1], ...; every
    other row of the queue stays, and the cursor becomes
    [(ptr + B) mod K]. *)
Theorem enqueue_wraps_around (features merged : T2) (s : St) :
  let K := memory_k self in
  let ptr := queue_ptr s in
  let B := size0 merged in
  concat_all_gather self (world self (rounds s)) features = Done merged ->
  0 < B <= K ->
  0 <= ptr < K ->
  size0 (queue_vector s) = K ->
  size1 merged = projector_dim self ->
  size1 (queue_vector s) = projector_dim self ->
  exists s',
    _dequeue_and_enqueue self features s = (s', Done tt)
    /\ queue_ptr s' = (ptr + B) mod K
    /\ size0 (queue_vector s') = K
    /\ (forall j, 0 <= j < B -> ptr + j < K ->
          rows (queue_vector s') !! Z.to_nat (ptr + j) = rows merged !! Z.to_nat j)
    /\ (forall j, 0 <= j < B -> K <= ptr + j ->
          rows (queue_vector s') !! Z.to_nat (ptr + j - K)
          = rows merged !! Z.to_nat j)
    /\ (forall i, 0 <= i < K ->
          (i < ptr /\ ptr + B - K <= i) \/ ptr + B <= i ->
          rows (queue_vector s') !! Z.to_nat i
          = rows (queue_vector s) !! Z.to_nat i).
Proof.
  intros K ptr B Hg HB Hp HK Hd Hq. subst K ptr B.
  eexists. split; [by apply enqueue_writes|]. simpl.
  unfold size0 in *.
  assert (HqK : length (rows (queue_vector s)) = Z.to_nat (memory_k self)) by lia.
  split; [done|]. split.
  { simpl. rewrite written_length; lia. }
  split; [|split].
  - intros j Hj Hfit. rewrite Z2Nat.inj_add by lia.
    apply written_tail; lia.
  - intros j Hj Hwrap.
    replace (Z.to_nat (queue_ptr s + j - memory_k self))
      with (Z.to_nat (queue_ptr s) + Z.to_nat j - Z.to_nat (memory_k self))%nat
      by lia.
    apply written_head; lia.
  - intros i Hi Hout. apply written_frame; lia.
Qed.

(** ** Reasoning about computations *)

(** [m] keeps the invariant [I] whatever its outcome, and a value it
    returns satisfies [Q]. *)
Definition triple {X : Type} (I : St -> Prop) (m : Cmd X) (Q : X -> Prop) : Prop :=
  forall s s' o, I s -> m s = (s', o) -> I s' /\ forall x, o = Done x -> Q x.

Lemma triple_bind {X Y : Type} (I : St -> Prop) (m : Cmd X) (k : X -> Cmd Y)
    (Q : X -> Prop) (R : Y -> Prop) :
  triple I m Q -> (forall x, Q x -> triple I (k x) R) -> triple I (bind m k) R.
Proof.
  intros Hm Hk s s' o HI Hrun. unfold bind in Hrun.
  destruct (m s) as [s1 [x| |]] eqn:Hms.
  - destruct (Hm _ _ _ HI Hms) as [HI1 HQ]. eapply Hk; eauto.
  - injection Hrun as <- <-. destruct (Hm _ _ _ HI Hms) as [HI1 _].
    split; [done | discriminate].
  - injection Hrun as <- <-. destruct (Hm _ _ _ HI Hms) as [HI1 _].
    split; [done | discriminate].
Qed.

Lemma triple_ret {X : Type} (I : St -> Prop) (x : X) (Q : X -> Prop) :
  Q x -> triple I (ret x) Q.
Proof. intros HQ s s' o HI [= <- <-]. split; [done|]. by intros ? [= <-]. Qed.

Lemma triple_lift {X : Type} (I : St -> Prop) (o : outcome X) (Q : X -> Prop) :
  (forall x, o = Done x -> Q x) -> triple I (lift o) Q.
Proof. intros HQ s s' o' HI [= <- <-]. by split. Qed.

Lemma triple_gets {X : Type} (I : St -> Prop) (f : St -> X) (Q : X -> Prop) :
  (forall s, I s -> Q (f s)) -> triple I (gets f) Q.
Proof. intros HQ s s' o HI [= <- <-]. split; [done|]. intros ? [= <-]. auto. Qed.

Lemma triple_modify (I : St -> Prop) (f : St -> St) :
  (forall s, I s -> I (f s)) -> triple I (modify f) (fun _ => True).
Proof. intros Hf s s' o HI [= <- <-]. split; auto. Qed.

Lemma triple_weaken {X : Type} (I : St -> Prop) (m : Cmd X) (Q Q' : X -> Prop) :
  triple I m Q -> (forall x, Q x -> Q' x) -> triple I m Q'.
Proof. intros Hm HQ s s' o HI Hrun. destruct (Hm _ _ _ HI Hrun). split; eauto. Qed.

Lemma triple_for_each {X : Type} (I : St -> Prop) (l : list X) (body : X -> Cmd unit) :
  (forall x, x ∈ l -> triple I (body x) (fun _ => True)) ->
  triple I (for_each l body) (fun _ => True).
Proof.
  induction l as [|x l IH]; intros Hb; simpl.
  - by apply triple_ret.
  - eapply triple_bind; [apply Hb, list_elem_of_here|].
    intros _ _. apply IH. intros y Hy. apply Hb. by apply list_elem_of_further.
Qed.

(** ** The queue invariant *)

Section Invariant.
(** [unit_norm r]: the row [r] has L2 norm 1 up to epsilon. *)
Variable unit_norm : list A -> Prop.

Definition queue_ok (s : St) : Prop :=
  size0 (queue_vector s) = memory_k self
  /\ size1 (queue_vector s) = projector_dim self
  /\ 0 <= queue_ptr s < memory_k self
  /\ Forall unit_norm (rows (queue_vector s)).

(** A tensor a rank may pass to an enqueue: its row count is a float32 and
    its rows are normalized. *)
Definition normalized (t : T2) : Prop :=
  size0 t <= 2 ^ 24 /\ Forall unit_norm (rows t).

Lemma slice_bound_range (n i : Z) : 0 <= n -> 0 <= slice_bound n i <= n.
Proof. intros H. unfold slice_bound. destruct (Z.ltb_spec i 0); lia. Qed.

Lemma py_slice_Forall {X : Type} (Q : X -> Prop) (l : list X) (a b : option Z) :
  Forall Q l -> Forall Q (py_slice l a b).
Proof. intros H. unfold py_slice. by apply Forall_take, Forall_drop. Qed.

Lemma expand_rows (v : T2) (n d : Z) (rs : list (list A)) :
  expand v n d = Done rs -> size1 v = d -> 0 <= n ->
  Forall unit_norm (rows v) ->
  Forall unit_norm rs /\ length rs = Z.to_nat n.
Proof.
  intros He Hd Hn Hv. unfold expand in He. rewrite Hd, Z.eqb_refl in He.
  simpl in He.
  assert (Hid : map (fun r => broadcast_row r d d) (rows v) = rows v).
  { unfold broadcast_row. rewrite Z.eqb_refl. apply map_id. }
  rewrite Hid in He.
  destruct (Z.eqb_spec (size0 v) n) as [Hsz|Hsz].
  - injection He as <-. split; [done|]. unfold size0 in Hsz. lia.
  - destruct (rows v) as [|r [|? ?]]; try discriminate.
    injection He as <-. split; [|by rewrite repeat_length].
    apply Forall_forall. intros x Hx. apply list_elem_of_In, repeat_spec in Hx.
    subst x. by inversion Hv.
Qed.

(** A slice assignment never changes the shape of the tensor, and the rows
    it holds afterwards are rows it held before or rows of the value. *)
Lemma setitem_rows_keeps (t v t' : T2) (a b : option Z) :
  setitem_rows t a b v = Done t' -> size1 v = size1 t ->
  Forall unit_norm (rows t) -> Forall unit_norm (rows v) ->
  size0 t' = size0 t /\ size1 t' = size1 t /\ Forall unit_norm (rows t').
Proof.
  intros Hs Hd Ht Hv. unfold setitem_rows in Hs.
  set (lo := match a with Some i => slice_bound (size0 t) i | None => 0 end) in *.
  set (hi := match b with Some i => slice_bound (size0 t) i | None => size0 t end) in *.
  assert (Hlen : 0 <= size0 t) by (unfold size0; lia).
  assert (Hlo : 0 <= lo <= size0 t).
  { subst lo. destruct a; [by apply slice_bound_range | lia]. }
  assert (Hhi : 0 <= hi <= size0 t).
  { subst hi. destruct b; [by apply slice_bound_range | lia]. }
  destruct (expand v (Z.max 0 (hi - lo)) (size1 t)) as [rs| |] eqn:He;
    simpl in Hs; try discriminate.
  injection Hs as <-. apply expand_rows in He as [Hrs Hn]; [|done|lia|done].
  split; [|split]; simpl.
  - unfold size0 in *. simpl. rewrite !length_app, length_take, length_drop. lia.
  - done.
  - apply Forall_app. split; [by apply Forall_take|].
    apply Forall_app. split; [done | by apply Forall_drop].
Qed.

Lemma cat_inv (d : Z) (ts : list T2) (r : T2) :
  cat d ts = Done r -> r = mkT2 (concat (map rows ts)) d.
Proof.
  revert r. induction ts as [|t ts IH]; intros r H; simpl in H.
  - by injection H as <-.
  - destruct (size1 t =? d); [|discriminate].
    destruct (cat d ts) as [r'| |]; simpl in H; try discriminate.
    injection H as <-. by rewrite (IH r' eq_refl).
Qed.

Lemma pad_to_inv (max_batch : Z) (t p : T2) :
  pad_to self max_batch t = Done p -> 0 <= size1 t /\ size1 p = size1 t.
Proof.
  unfold pad_to, zeros. intros H.
  destruct (Z.ltb_spec (max_batch - size0 t) 0); [discriminate|].
  destruct (Z.ltb_spec (size1 t) 0); [discriminate|].
  simpl in H. unfold cat2 in H. simpl in H. rewrite Z.eqb_refl in H.
  injection H as <-. simpl. lia.
Qed.

(** When every row count is a float32, a gather that returns has returned
    the rows of all ranks, in rank order. *)
Lemma gather_returns_rows (g : Group) (features merged : T2) :
  Forall (fun t => size0 t <= 2 ^ 24) (lower g ++ features :: upper g) ->
  concat_all_gather self g features = Done merged ->
  merged = mkT2 (concat (map rows (lower g ++ features :: upper g)))
                (size1 features).
Proof.
  intros Hsz Hg.
  rewrite gather_of_exact_counts in Hg; [by injection Hg as <-| |].
  - unfold concat_all_gather in Hg.
    destruct (pad_to self _ features) eqn:Hp; try discriminate.
    by apply pad_to_inv in Hp as [? _].
  - unfold concat_all_gather in Hg.
    destruct (pad_to self _ features) eqn:Hp; try discriminate. simpl in Hg.
    destruct (omap _ _) as [ps| |] eqn:Ho; try discriminate.
    apply omap_inv in Ho. rewrite Forall_forall in Hsz.
    apply Forall_forall. intros t Ht. split; [by apply Hsz|].
    apply list_elem_of_lookup in Ht as [i Hi].
    destruct (Forall2_lookup_l _ _ _ _ _ Ho Hi) as (p & _ & Hpad).
    destruct (pad_to self _ t) as [p'| |] eqn:Hp'; try discriminate.
    destruct (Z.eqb_spec (size1 p') (size1 features)); [|discriminate].
    apply pad_to_inv in Hp' as [_ <-]. done.
Qed.

Lemma setitem_queue_keeps (a b : option Z) (v : T2) :
  size1 v = projector_dim self -> Forall unit_norm (rows v) ->
  triple queue_ok (setitem_queue a b v) (fun _ => True).
Proof.
  intros Hd Hv s s' o (HK & HD & Hp & Hq) Hrun. unfold setitem_queue in Hrun.
  destruct (setitem_rows (queue_vector s) a b v) as [q| |] eqn:Hs;
    injection Hrun as <- <-; try (split; [done | discriminate]).
  apply setitem_rows_keeps in Hs as (H0 & H1 & Hrows); [|congruence|done|done].
  split; [|done]. unfold queue_ok. simpl.
  repeat split; try lia; try congruence; try done.
Qed.

(** An enqueue keeps the queue invariant, whether it returns, raises or
    blocks. *)
Lemma enqueue_keeps (features : T2) :
  (forall n, Forall normalized (lower (world self n) ++ upper (world self n))) ->
  normalized features ->
  triple queue_ok (_dequeue_and_enqueue self features) (fun _ => True).
Proof.
  intros Hw Hf. unfold _dequeue_and_enqueue.
  eapply triple_bind; [by apply triple_modify|]. intros _ _.
  eapply (triple_bind _ _ _
            (fun g => Forall normalized (lower g ++ features :: upper g))).
  { intros s s' o HI [= <- <-]. split; [done|]. intros g [= <-].
    specialize (Hw (rounds s)). apply Forall_app in Hw as [Hl Hu].
    apply Forall_app. split; [done|]. by constructor. }
  intros g Hg.
  eapply (triple_bind _ _ _
            (fun m => size1 m = size1 features /\ Forall unit_norm (rows m))).
  { apply triple_lift. intros m Hm. apply gather_returns_rows in Hm.
    - subst m. simpl. split; [done|]. apply Forall_concat, Forall_map.
      eapply Forall_impl; [exact Hg|]. by intros t [_ ?].
    - eapply Forall_impl; [exact Hg|]. by intros t [? _]. }
  intros merged [Hd Hm].
  destruct (size0 merged =? 0); [by apply triple_ret|].
  eapply (triple_bind _ _ _ (fun _ => size1 merged = projector_dim self)).
  { apply triple_lift. intros []. unfold assert.
    destruct (Z.eqb_spec (size1 merged) (projector_dim self)); [done | discriminate]. }
  intros _ HD.
  eapply triple_bind; [by apply (triple_gets _ _ (fun _ => True))|]. intros ptr _.
  eapply triple_bind.
  { instantiate (1 := fun _ => True).
    destruct (memory_k self <=? ptr + size0 merged).
    - eapply triple_bind; [|intros _ _];
        apply setitem_queue_keeps; simpl; try done; by apply py_slice_Forall.
    - by apply setitem_queue_keeps. }
  intros _ _.
  eapply (triple_bind _ _ _ (fun p => 0 < memory_k self -> 0 <= p < memory_k self)).
  { apply triple_lift. intros p. unfold py_mod.
    destruct (memory_k self =? 0); [discriminate|]. intros [= <-] HK.
    by apply Z.mod_pos_bound. }
  intros p Hp. apply triple_modify.
  intros s (HK & HD' & Hptr & Hq). unfold queue_ok. simpl.
  repeat split; try done; apply Hp; lia.
Qed.

(** Construction establishes the invariant. *)
Lemma init_queue_ok (s0 : St) :
  0 < memory_k self ->
  (forall i, (i < Z.to_nat (memory_k self))%nat ->
     unit_norm (normalize self (map (randn_entry self i)
                                    (seq 0 (Z.to_nat (projector_dim self)))))) ->
  __init__ self = Done s0 ->
  queue_ok s0.
Proof.
  intros HK Hn Hinit. unfold __init__ in Hinit.
  destruct (_ || _); [discriminate|]. injection Hinit as <-.
  unfold queue_ok, size0. simpl. rewrite !length_map, length_seq.
  repeat split; try lia.
  rewrite map_map. apply Forall_map, Forall_forall. intros i Hi.
  apply Hn. apply list_elem_of_In, in_seq in Hi. lia.
Qed.


End Invariant.

(** C4, as amended: when every rank holds at most 2^24 rows (so that the
    row counts survive the float32 exchange) and all ranks agree on the
    number of columns, every local tensor is padded with zero rows up to
    the largest count, every gathered chunk is cut back to its own count,
    and the result is the concatenation of the unpadded tensors in rank
    order, with as many rows as the ranks hold together; when that number
    is zero, [_dequeue_and_enqueue] leaves the queue and the cursor as they
    are. *)
Theorem gather_concatenates (g : Group) (features : T2) :
  let everyone := lower g ++ features :: upper g in
  let max_batch := list_max_Z (size0 features) (map size0 everyone) in
  0 <= size1 features ->
  Forall (fun t => size0 t <= 2 ^ 24 /\ size1 t = size1 features) everyone ->
  Forall (fun t =>
            exists p,
              pad_to self max_batch t = Done p
              /\ rows p = rows t ++ repeat (repeat (zero self) (Z.to_nat (size1 t)))
                                      (Z.to_nat (max_batch - size0 t))
              /\ size0 p = max_batch
              /\ slice_rows p None (Some (float32_of_int (size0 t))) = t)
         everyone
  /\ concat_all_gather self g features
     = Done (mkT2 (concat (map rows everyone)) (size1 features))
  /\ size0 (mkT2 (concat (map rows everyone)) (size1 features))
     = fold_right Z.add 0 (map size0 everyone)
  /\ forall s : St,
       world self (rounds s) = g ->
       fold_right Z.add 0 (map size0 everyone) = 0 ->
       exists s',
         _dequeue_and_enqueue self features s = (s', Done tt)
         /\ queue_vector s' = queue_vector s
         /\ queue_ptr s' = queue_ptr s.
Proof.
  intros everyone max_batch Hd Hall.
  pose proof (gather_of_exact_counts g features Hd Hall) as Hg.
  fold everyone in Hg.
  split; [|split; [exact Hg|split; [apply size0_concat|]]].
  - destruct (list_max_Z_le (size0 features) (map size0 everyone)) as [_ Hmax].
    rewrite Forall_map in Hmax. fold max_batch in Hmax.
    rewrite Forall_forall in Hall, Hmax. apply Forall_forall. intros t Ht.
    destruct (Hall t Ht) as [Hsz Hc]. specialize (Hmax t Ht). simpl in Hmax.
    eexists. split; [apply pad_to_rows; lia|]. simpl. split; [done|]. split.
    + unfold size0 in *. simpl. rewrite length_app, repeat_length. lia.
    + rewrite float32_of_int_exact by (unfold size0 in *; lia).
      apply truncate_padded.
  - intros s Hs Hzero. eexists. split.
    + eapply enqueue_nothing; [by rewrite Hs|]. by rewrite size0_concat.
    + done.
Qed.

(** ** The relative transform *)

Section TransMat.
(** The laws of exact matrix arithmetic: [eye] is the identity matrix, and
    [inverse] returns a two-sided inverse whenever it returns. *)
Variable eye : Mat.
Hypothesis matmul_assoc :
  forall x y z, matmul self (matmul self x y) z = matmul self x (matmul self y z).
Hypothesis matmul_eye_l : forall x, matmul self eye x = x.
Hypothesis inverse_l : forall x x', inverse self x = Done x' -> matmul self x' x = eye.
Hypothesis inverse_r : forall x x', inverse self x = Done x' -> matmul self x x' = eye.

Definition invertible (m : Mat) : Prop := exists m', inverse self m = Done m'.

Lemma get_trans_mat_entries (a b : list Mat) :
  Forall invertible a ->
  exists ms,
    _get_trans_mat self a b = Done ms
    /\ length ms = Nat.min (length a) (length b)
    /\ forall i at_ bt, a !! i = Some at_ -> b !! i = Some bt ->
         exists at', inverse self at_ = Done at'
                     /\ ms !! i = Some (matmul self bt at').
Proof.
  intros Ha. revert b. induction Ha as [|at_ a [at' Hinv] _ IH]; intros b.
  - exists []. unfold _get_trans_mat. destruct b; simpl; repeat split; try done; lia.
  - destruct b as [|bt b].
    + exists []. unfold _get_trans_mat. simpl. repeat split; try done.
    + destruct (IH b) as (ms & Hms & Hlen & Hent).
      exists (matmul self bt at' :: ms). unfold _get_trans_mat in *. simpl.
      rewrite Hinv. simpl. rewrite Hms. simpl. split; [done|]. split; [lia|].
      intros [|i] x y Hx Hy; simpl in *.
      * injection Hx as <-. injection Hy as <-. eauto.
      * eauto.
Qed.


End TransMat.

(** ** The score threshold of the teacher *)

Lemma omap_Raised {X Y : Type} (f : X -> outcome Y) (l : list X) (e : exn) :
  omap f l = Raised e -> exists x, x ∈ l /\ f x = Raised e.
Proof.
  induction l as [|x l IH]; simpl; [discriminate|]. intros H.
  destruct (f x) as [y| |] eqn:Hx; simpl in H; try discriminate.
  - destruct (omap f l) as [ys| |]; simpl in H; try discriminate.
    destruct IH as (x' & Hin & Hx'); [done|].
    exists x'. split; [by apply list_elem_of_further | done].
  - exists x. split; [apply list_elem_of_here | congruence].
Qed.

Lemma column_raises (t : T2) (j : Z) (e : exn) :
  column t j = Raised e -> e = IndexError.
Proof.
  unfold column. destruct (_ || _); [congruence|]. intros H.
  apply omap_Raised in H as (r & _ & Hr). destruct (r !! _); congruence.
Qed.

(** The proposals [extract_teacher_info] filters, with their labels. *)
Definition scored_proposals (img_ : list Image) (metas : list Meta)
    (props : option (list T2)) : list (T2 * list Z) :=
  let feat := extract_feat (teacher self) img_ in
  let r := simple_test_bboxes (teacher self) feat metas
             (match props with
              | None => get_bboxes (teacher self) (rpn_head (teacher self) feat) metas
              | Some p => p
              end) in
  combine (map (fun p => if 0 <? size0 p then p else mkT2 [] 5) r.1) r.2.

Lemma extract_teacher_info_unfold (img_ : list Image) (metas : list Meta)
    (props : option (list T2)) :
  extract_teacher_info self img_ metas props =
  obind (match pseudo_label_initial_score_thr self with
         | CfgFloat thr => Done thr
         | _ => Raised NotImplementedError
         end) (fun thr =>
  obind (omap (fun '(proposal, proposal_label) =>
                 obind (column proposal (-1)) (fun score =>
                 Done (filter_invalid self proposal proposal_label score thr
                         (min_pseduo_box_size self))))
              (scored_proposals img_ metas props)) (fun filtered =>
  match filtered with
  | [] => Raised ValueError
  | _ =>
      Done (mkTeacherInfo (extract_feat (teacher self) img_)
              (match props with
               | None => get_bboxes (teacher self)
                           (rpn_head (teacher self) (extract_feat (teacher self) img_))
                           metas
               | Some p => p
               end)
              (map fst filtered) (map snd filtered)
              (map transform_matrix metas) metas)
  end)).
Proof.
  unfold extract_teacher_info, scored_proposals.
  by destruct (simple_test_bboxes _ _ _ _).
Qed.

(** C8: [extract_teacher_info] raises NotImplementedError exactly when
    [pseudo_label_initial_score_thr] is not a float; when it is the float
    [thr], the detections of every image are what [filter_invalid] keeps
    under that one threshold. *)
Theorem threshold_is_static (img_ : list Image) (metas : list Meta)
    (props : option (list T2)) :
  (extract_teacher_info self img_ metas props = Raised NotImplementedError
   <-> forall thr, pseudo_label_initial_score_thr self <> CfgFloat thr)
  /\ forall thr info,
       pseudo_label_initial_score_thr self = CfgFloat thr ->
       extract_teacher_info self img_ metas props = Done info ->
       length (det_bboxes info) = length (scored_proposals img_ metas props)
       /\ length (det_labels info) = length (scored_proposals img_ metas props)
       /\ forall i proposal proposal_label,
            scored_proposals img_ metas props !! i = Some (proposal, proposal_label) ->
            exists score,
              column proposal (-1) = Done score
              /\ det_bboxes info !! i
                 = Some (filter_invalid self proposal proposal_label score thr
                           (min_pseduo_box_size self)).1
              /\ det_labels info !! i
                 = Some (filter_invalid self proposal proposal_label score thr
                           (min_pseduo_box_size self)).2.
Proof.
  rewrite extract_teacher_info_unfold. split; [split|].
  - intros H thr Hthr. rewrite Hthr in H. simpl in H.
    destruct (omap _ _) as [[|? ?]| |] eqn:Ho; simpl in H; try discriminate.
    injection H as He. apply omap_Raised in Ho as ([p l] & _ & Hp).
    destruct (column p (-1)) eqn:Hc; simpl in Hp; try discriminate.
    apply column_raises in Hc. congruence.
  - intros H. destruct (pseudo_label_initial_score_thr self) as [thr| | | |];
      try reflexivity. by destruct (H thr).
  - intros thr info Hthr Hrun. rewrite Hthr in Hrun. simpl in Hrun.
    destruct (omap _ _) as [filtered| |] eqn:Ho; simpl in Hrun; try discriminate.
    apply omap_inv in Ho.
    assert (Hinfo : det_bboxes info = map fst filtered
                    /\ det_labels info = map snd filtered).
    { destruct filtered; [discriminate|]. by injection Hrun as <-. }
    destruct Hinfo as [-> ->]. rewrite !length_map.
    split; [by rewrite (Forall2_length _ _ _ Ho)|].
    split; [by rewrite (Forall2_length _ _ _ Ho)|].
    intros i p l Hi.
    destruct (Forall2_lookup_l _ _ _ _ _ Ho Hi) as (y & Hy & Hf).
    destruct (column p (-1)) as [score| |]; simpl in Hf; try discriminate.
    injection Hf as <-. exists score. rewrite !list_lookup_fmap, Hy. done.
Qed.

(** ** The subsampling of [ctr_loss_2] *)

(** The indices [torch.randint] returns at position [pos] of the random
    stream. *)
Definition draws (pos : nat) (high n : Z) : list nat :=
  map (fun i => Z.to_nat (rand self (pos + i) mod high)) (seq 0 (Z.to_nat n)).

Lemma draws_in_range (pos : nat) (high n : Z) :
  0 < high -> Forall (fun k => (k < Z.to_nat high)%nat) (draws pos high n).
Proof.
  intros H. apply Forall_map, Forall_forall. intros i _.
  pose proof (Z.mod_pos_bound (rand self (pos + i)) high H). lia.
Qed.

Lemma draws_length (pos : nat) (high n : Z) :
  length (draws pos high n) = Z.to_nat n.
Proof. unfold draws. by rewrite length_map, length_seq. Qed.

Lemma randint_draws (high n : Z) (s : St) :
  0 < high -> 0 <= n ->
  randint self high n s
  = (set_rng_pos (rng_pos s + Z.to_nat n) s, Done (draws (rng_pos s) high n)).
Proof.
  intros Hh Hn. unfold randint.
  destruct (Z.leb_spec high 0); [lia|]. destruct (Z.ltb_spec n 0); [lia|].
  reflexivity.
Qed.

(** Every index in range: the selection returns, entry by entry. *)
Lemma select_in_range {X : Type} (l : list X) (idx : list nat) :
  Forall (fun k => (k < length l)%nat) idx ->
  exists xs, select l idx = Done xs /\ Forall2 (fun k x => l !! k = Some x) idx xs.
Proof.
  induction 1 as [|k idx Hk _ (xs & Hxs & Hall)].
  - exists []. split; [done | constructor].
  - destruct (lookup_lt_is_Some_2 l k Hk) as [x Hx].
    exists (x :: xs). unfold select in *. simpl. rewrite Hx. simpl. rewrite Hxs.
    split; [done | by constructor].
Qed.

(** What the loop of lines 687-692 leaves at an image that held the boxes
    [b] with the labels [l]. *)
Definition subsampled (b : T2) (l : list Z) (b' : T2) (l' : list Z) : Prop :=
  if ctr2_num self <? size0 b then
    exists pos,
      let idx := draws pos (size0 b) (ctr2_num self) in
      size0 b' = ctr2_num self
      /\ len l' = ctr2_num self
      /\ size1 b' = size1 b
      /\ Forall (fun k => (k < length (rows b))%nat) idx
      /\ Forall2 (fun k r => rows b !! k = Some r) idx (rows b')
      /\ Forall2 (fun k x => l !! k = Some x) idx l'
  else b' = b /\ l' = l.

(** The fields of the state that only [_dequeue_and_enqueue] writes. *)
Definition same_queue (s s' : St) : Prop :=
  queue_vector s' = queue_vector s /\ queue_ptr s' = queue_ptr s
  /\ calls s' = calls s /\ rounds s' = rounds s.

Lemma subsample_step (ob ol i : nat) (bl : list T2) (ll : list (list Z))
    (b : T2) (l : list Z) (s : St) :
  box_lists s !! ob = Some bl -> label_lists s !! ol = Some ll ->
  bl !! i = Some b -> ll !! i = Some l ->
  size0 b = len l -> len l <> 0 -> 0 <= ctr2_num self ->
  exists s' b' l',
    ctr_loss_2_subsample self ob ol i s = (s', Done tt)
    /\ box_lists s' = <[ob := <[i := b']> bl]> (box_lists s)
    /\ label_lists s' = <[ol := <[i := l']> ll]> (label_lists s)
    /\ subsampled b l b' l'
    /\ same_queue s s'.
Proof.
  intros Hob Hol Hb Hl Hsz Hne Hnum.
  unfold ctr_loss_2_subsample, bind, read_box_list, read_label_list, lift, getitem.
  rewrite Hob, Hol, Hb, Hl. simpl. unfold assert.
  destruct (Z.eqb_spec (size0 b) (len l)) as [_|]; [|lia].
  destruct (Z.eqb_spec (len l) 0) as [|_]; [lia|]. simpl.
  unfold subsampled.
  destruct (Z.ltb_spec (ctr2_num self) (size0 b)) as [Hgt|Hle].
  - rewrite randint_draws by lia.
    set (idx := draws (rng_pos s) (size0 b) (ctr2_num self)).
    assert (Hidx : Forall (fun k => (k < length (rows b))%nat) idx).
    { eapply Forall_impl; [apply draws_in_range; lia|].
      unfold size0. intros k Hk. simpl in Hk. lia. }
    destruct (select_in_range (rows b) idx Hidx) as (rs & Hrs & Hrows).
    assert (Hidx' : Forall (fun k => (k < length l)%nat) idx).
    { eapply Forall_impl; [exact Hidx|]. unfold size0, len in Hsz.
      intros k Hk. simpl in Hk. lia. }
    destruct (select_in_range l idx Hidx') as (ls & Hls & Hlabels).
    unfold index_rows. rewrite Hrs. simpl.
    unfold setitem_box_list, setitem_label_list, bind, read_box_list,
      read_label_list, modify, raise. simpl.
    rewrite Hob. apply lookup_lt_Some in Hb as Hb'.
    destruct (Nat.ltb_spec i (length bl)); [|lia]. simpl.
    rewrite Hls. simpl. rewrite Hol. apply lookup_lt_Some in Hl as Hl'.
    destruct (Nat.ltb_spec i (length ll)); [|lia]. simpl.
    eexists _, (mkT2 rs (size1 b)), ls. split; [reflexivity|]. simpl.
    split; [done|]. split; [done|]. split; [|done].
    exists (rng_pos s). fold idx. unfold size0, len. simpl.
    rewrite <- (Forall2_length _ _ _ Hrows), <- (Forall2_length _ _ _ Hlabels).
    unfold idx. rewrite draws_length. repeat split; try done; lia.
  - unfold ret. exists s, b, l. split; [done|].
    rewrite (list_insert_id bl i b Hb), (list_insert_id ll i l Hl).
    rewrite (insert_id _ _ _ Hob), (insert_id _ _ _ Hol). done.
Qed.

Lemma same_queue_refl (s : St) : same_queue s s.
Proof. by repeat split. Qed.

Lemma same_queue_trans (s1 s2 s3 : St) :
  same_queue s1 s2 -> same_queue s2 s3 -> same_queue s1 s3.
Proof. unfold same_queue. intros (? & ? & ? & ?) (? & ? & ? & ?). repeat split; congruence. Qed.

Lemma subsample_loop (ob ol : nat) (todo : list nat) :
  forall (s : St) (bl : list T2) (ll : list (list Z)),
  box_lists s !! ob = Some bl -> label_lists s !! ol = Some ll ->
  NoDup todo ->
  (forall i, i ∈ todo ->
     exists b l, bl !! i = Some b /\ ll !! i = Some l
                 /\ size0 b = len l /\ len l <> 0) ->
  0 <= ctr2_num self ->
  exists s' bl' ll',
    for_each todo (ctr_loss_2_subsample self ob ol) s = (s', Done tt)
    /\ box_lists s' = <[ob := bl']> (box_lists s)
    /\ label_lists s' = <[ol := ll']> (label_lists s)
    /\ length bl' = length bl /\ length ll' = length ll
    /\ same_queue s s'
    /\ (forall i, i ∉ todo -> bl' !! i = bl !! i /\ ll' !! i = ll !! i)
    /\ (forall i b l, i ∈ todo -> bl !! i = Some b -> ll !! i = Some l ->
          exists b' l', bl' !! i = Some b' /\ ll' !! i = Some l'
                        /\ subsampled b l b' l').
Proof.
  induction todo as [|i todo IH]; intros s bl ll Hob Hol Hnd Hpre Hnum.
  - exists s, bl, ll. simpl. unfold ret.
    rewrite (insert_id _ _ _ Hob), (insert_id _ _ _ Hol).
    repeat split; try done; try apply same_queue_refl.
    intros i b l Hi. by apply not_elem_of_nil in Hi.
  - apply NoDup_cons in Hnd as [Hi Hnd].
    destruct (Hpre i) as (b & l & Hb & Hl & Hsz & Hne); [apply list_elem_of_here|].
    destruct (subsample_step ob ol i bl ll b l s Hob Hol Hb Hl Hsz Hne Hnum)
      as (s1 & b' & l' & Hstep & Hbox & Hlab & Hsub & Hq1).
    destruct (IH s1 (<[i := b']> bl) (<[i := l']> ll)) as
      (s' & bl' & ll' & Hrun & Hbox' & Hlab' & Hlb & Hll & Hq & Hout & Hin);
      try done.
    { rewrite Hbox. apply lookup_insert_eq. }
    { rewrite Hlab. apply lookup_insert_eq. }
    { intros j Hj. destruct (Hpre j) as (bj & lj & ? & ? & ? & ?);
        [by apply list_elem_of_further|].
      exists bj, lj. assert (i <> j) by (intros ->; done).
      rewrite !list_lookup_insert_ne by done. done. }
    exists s', bl', ll'. simpl. unfold bind. rewrite Hstep.
    rewrite Hbox', Hlab', Hbox, Hlab, !insert_insert_eq.
    rewrite Hlb, Hll, !length_insert.
    split; [done|]. do 4 (split; [done|]).
    split; [by eapply same_queue_trans|]. split.
    + intros j Hj. apply not_elem_of_cons in Hj as [Hji Hj].
      destruct (Hout j Hj) as [-> ->].
      by rewrite !list_lookup_insert_ne.
    + intros j bj lj Hj Hbj Hlj. apply elem_of_cons in Hj as [->|Hj].
      * destruct (Hout i Hi) as [-> ->].
        rewrite Hb in Hbj. rewrite Hl in Hlj.
        injection Hbj as <-. injection Hlj as <-.
        apply lookup_lt_Some in Hb, Hl.
        rewrite !list_lookup_insert_eq by done. eauto.
      * assert (i <> j) by (intros ->; done).
        apply (Hin j bj lj Hj); by rewrite list_lookup_insert_ne.
Qed.

(** ** Frames *)

Definition keeps {X : Type} (I : St -> Prop) (m : Cmd X) : Prop :=
  triple I m (fun _ => True).

Definition ignores_streams (I : St -> Prop) : Prop :=
  forall s n, I s -> I (set_rng_pos n s) /\ I (set_dataset_pos n s).

Definition ignores_heap (I : St -> Prop) : Prop :=
  forall s, I s -> (forall h, I (set_box_lists h s)) /\ (forall h, I (set_label_lists h s)).

Lemma keeps_bind {X Y : Type} (I : St -> Prop) (m : Cmd X) (k : X -> Cmd Y) :
  keeps I m -> (forall x, keeps I (k x)) -> keeps I (bind m k).
Proof. intros Hm Hk. eapply triple_bind; [exact Hm|]. intros x _. apply Hk. Qed.

Lemma keeps_pure {X : Type} (I : St -> Prop) (m : Cmd X) :
  (forall s, fst (m s) = s) -> keeps I m.
Proof.
  intros Hm s s' o HI Hrun. specialize (Hm s). rewrite Hrun in Hm.
  simpl in Hm. subst s'. by split.
Qed.

Lemma keeps_ret {X : Type} (I : St -> Prop) (x : X) : keeps I (ret x).
Proof. by apply keeps_pure. Qed.

Lemma keeps_raise {X : Type} (I : St -> Prop) (e : exn) : keeps I (@raise A X e).
Proof. by apply keeps_pure. Qed.

Lemma keeps_lift {X : Type} (I : St -> Prop) (o : outcome X) : keeps I (lift o).
Proof. by apply keeps_pure. Qed.

Lemma keeps_gets {X : Type} (I : St -> Prop) (f : St -> X) : keeps I (gets f).
Proof. by apply keeps_pure. Qed.

Lemma keeps_read_box_list (I : St -> Prop) (o : nat) : keeps I (read_box_list (A:=A) o).
Proof. by apply keeps_pure. Qed.

Lemma keeps_read_label_list (I : St -> Prop) (o : nat) :
  keeps I (read_label_list (A:=A) o).
Proof. by apply keeps_pure. Qed.

Lemma keeps_modify (I : St -> Prop) (f : St -> St) :
  (forall s, I s -> I (f s)) -> keeps I (modify f).
Proof. apply triple_modify. Qed.

Lemma keeps_randint (I : St -> Prop) (high n : Z) :
  ignores_streams I -> keeps I (randint self high n).
Proof.
  intros HI. unfold randint. destruct (_ || _); [apply keeps_raise|].
  intros s s' o Hs [= <- <-]. split; [by apply HI | done].
Qed.

Lemma keeps_set_dataset_pos (I : St -> Prop) (n : nat) :
  ignores_streams I -> keeps I (modify (set_dataset_pos n)).
Proof. intros HI. apply keeps_modify. intros s Hs. by apply HI. Qed.

Lemma keeps_for_each {X : Type} (I : St -> Prop) (l : list X) (body : X -> Cmd unit) :
  (forall x, keeps I (body x)) -> keeps I (for_each l body).
Proof. intros Hb. apply triple_for_each. intros x _. apply Hb. Qed.

Create HintDb frames.
#[local] Hint Resolve keeps_ret keeps_raise keeps_lift keeps_gets
  keeps_read_box_list keeps_read_label_list keeps_randint
  keeps_set_dataset_pos : frames.

(** Splits a computation at its binds and branches, and closes the parts
    that are known to keep the invariant. *)
Ltac frame :=
  repeat first
    [ solve [auto 2 with frames]
    | apply keeps_bind; [|intros ?]
    | match goal with
      | |- keeps _ (if ?b then _ else _) => destruct b
      | |- keeps _ (match ?x with _ => _ end) => destruct x
      end ].

Lemma keeps_contrast (I : St -> Prop) (sv tv : T2) (T : A) :
  keeps I (contrast self sv tv T).
Proof. unfold contrast. frame. Qed.
#[local] Hint Resolve keeps_contrast : frames.

Lemma keeps_exemplars (I : St -> Prop) (all_labels : list Z) :
  ignores_streams I ->
  forall acc, keeps I (ctr_loss_2_exemplars self all_labels acc).
Proof.
  intros HI. induction all_labels as [|label rest IH]; intros acc; simpl; frame.
Qed.
#[local] Hint Resolve keeps_exemplars : frames.

Lemma keeps_ctr_loss_2_contrast (I : St -> Prop) (info : CtrInfo) (ob ol : nat) :
  ignores_streams I -> keeps I (ctr_loss_2_contrast self info ob ol).
Proof. intros HI. unfold ctr_loss_2_contrast. frame. Qed.
#[local] Hint Resolve keeps_ctr_loss_2_contrast : frames.

Lemma keeps_set_box_lists (I : St -> Prop) (f : St -> gmap nat (list T2)) :
  ignores_heap I -> keeps I (modify (fun s => set_box_lists (f s) s)).
Proof. intros HI. apply keeps_modify. intros s Hs. by apply HI. Qed.

Lemma keeps_set_label_lists (I : St -> Prop) (f : St -> gmap nat (list (list Z))) :
  ignores_heap I -> keeps I (modify (fun s => set_label_lists (f s) s)).
Proof. intros HI. apply keeps_modify. intros s Hs. by apply HI. Qed.
#[local] Hint Resolve keeps_set_box_lists keeps_set_label_lists : frames.

Lemma keeps_setitem_box_list (I : St -> Prop) (o i : nat) (v : T2) :
  ignores_heap I -> keeps I (setitem_box_list o i v).
Proof. intros HI. unfold setitem_box_list. frame. Qed.

Lemma keeps_setitem_label_list (I : St -> Prop) (o i : nat) (v : list Z) :
  ignores_heap I -> keeps I (setitem_label_list (A:=A) o i v).
Proof. intros HI. unfold setitem_label_list. frame. Qed.
#[local] Hint Resolve keeps_setitem_box_list keeps_setitem_label_list : frames.

Lemma keeps_subsample (I : St -> Prop) (ob ol i : nat) :
  ignores_streams I -> ignores_heap I ->
  keeps I (ctr_loss_2_subsample self ob ol i).
Proof. intros HS HH. unfold ctr_loss_2_subsample. frame. Qed.

Lemma keeps_ctr_loss_2 (I : St -> Prop) (info : CtrInfo) (ob ol : nat) :
  ignores_streams I -> ignores_heap I -> keeps I (ctr_loss_2 self info ob ol).
Proof.
  intros HS HH. unfold ctr_loss_2. frame.
  apply keeps_for_each. intros i. by apply keeps_subsample.
Qed.

Lemma keeps_select (I : St -> Prop) (gt_maps pos_gt_map_ctr : list Z) (prop : T2) :
  ignores_streams I ->
  forall acc, keeps I (ctr_loss_1_select self gt_maps pos_gt_map_ctr prop acc).
Proof.
  intros HI. induction gt_maps as [|g rest IH]; intros acc; simpl; frame.
Qed.
#[local] Hint Resolve keeps_select : frames.

Lemma keeps_new_box_list (I : St -> Prop) (l : list T2) :
  ignores_heap I -> keeps I (new_box_list l).
Proof. intros HI s s' o Hs [= <- <-]. split; [by apply HI | done]. Qed.

Lemma keeps_new_label_list (I : St -> Prop) (l : list (list Z)) :
  ignores_heap I -> keeps I (new_label_list (A:=A) l).
Proof. intros HI s s' o Hs [= <- <-]. split; [by apply HI | done]. Qed.
#[local] Hint Resolve keeps_new_box_list keeps_new_label_list : frames.

Lemma keeps_extract_ctr_info (I : St -> Prop) (a c : Data) :
  keeps I (extract_ctr_info self a c).
Proof. unfold extract_ctr_info. frame. Qed.
#[local] Hint Resolve keeps_extract_ctr_info keeps_ctr_loss_2 : frames.

(** The precondition [ctr_loss_2] asserts on its arguments: as many label
    tensors as box tensors, at least one image, and for every image as many
    labels as boxes and at least one. *)
Definition aligned (bl : list T2) (ll : list (list Z)) : Prop :=
  bl <> [] /\ length bl = length ll
  /\ forall i b l, bl !! i = Some b -> ll !! i = Some l ->
       size0 b = len l /\ len l <> 0.

Lemma ctr_loss_2_heap (info : CtrInfo) (ob ol : nat) (bl : list T2)
    (ll : list (list Z)) (s s' : St) (o : outcome (gmap string LossT)) :
  box_lists s !! ob = Some bl -> label_lists s !! ol = Some ll ->
  aligned bl ll -> 0 <= ctr2_num self ->
  ctr_loss_2 self info ob ol s = (s', o) ->
  exists bl' ll',
    box_lists s' = <[ob := bl']> (box_lists s)
    /\ label_lists s' = <[ol := ll']> (label_lists s)
    /\ length bl' = length bl /\ length ll' = length ll
    /\ forall i b l, bl !! i = Some b -> ll !! i = Some l ->
         exists b' l', bl' !! i = Some b' /\ ll' !! i = Some l'
                       /\ subsampled b l b' l'.
Proof.
  intros Hob Hol (Hne & Hlen & Hal) Hnum Hrun.
  destruct (subsample_loop ob ol (seq 0 (length bl)) s bl ll Hob Hol)
    as (s1 & bl' & ll' & Hloop & Hbox & Hlab & Hlb & Hll & _ & _ & Hin).
  { apply NoDup_seq. }
  { intros i Hi. apply elem_of_seq in Hi.
    destruct (lookup_lt_is_Some_2 bl i) as [b Hb]; [lia|].
    destruct (lookup_lt_is_Some_2 ll i) as [l Hl]; [lia|].
    exists b, l. destruct (Hal i b l Hb Hl). done. }
  { done. }
  unfold ctr_loss_2, bind, read_box_list, read_label_list, lift, getitem in Hrun.
  rewrite Hob, Hol in Hrun. destruct bl as [|b0 bl0]; [done|]. simpl lookup in Hrun.
  cbv iota beta in Hrun. unfold assert, len in Hrun. rewrite Hlen, Z.eqb_refl in Hrun.
  rewrite Hlen in Hloop. rewrite Hloop in Hrun.
  pose proof (keeps_ctr_loss_2_contrast
                (fun s2 => box_lists s2 = box_lists s1
                           /\ label_lists s2 = label_lists s1) info ob ol) as Hk.
  destruct (Hk ltac:(by intros ? ? [? ?]) s1 s' o ltac:(done) Hrun) as [[Hb' Hl'] _].
  exists bl', ll'. rewrite Hb', Hl'. repeat split; try done.
  intros i b l Hb Hl. apply (Hin i b l); [|done|done].
  apply elem_of_seq. apply lookup_lt_Some in Hb. lia.
Qed.

(** C7: in [ctr_loss_2], an image with more than [ctr2_num] boxes is left
    with exactly [ctr2_num] boxes, each one of its own boxes picked by a
    draw of [torch.randint], and with the labels picked by the same draws;
    an image with at most [ctr2_num] boxes keeps its boxes and labels.
    This holds of the lists after the call however the rest of the call
    ends. *)
Theorem ctr_loss_2_subsamples (info : CtrInfo) (ob ol : nat) (bl : list T2)
    (ll : list (list Z)) (s s' : St) (o : outcome (gmap string LossT)) :
  box_lists s !! ob = Some bl -> label_lists s !! ol = Some ll ->
  aligned bl ll -> 0 <= ctr2_num self ->
  ctr_loss_2 self info ob ol s = (s', o) ->
  exists bl' ll',
    box_lists s' !! ob = Some bl' /\ label_lists s' !! ol = Some ll'
    /\ length bl' = length bl /\ length ll' = length ll
    /\ forall i b l, bl !! i = Some b -> ll !! i = Some l ->
         exists b' l',
           bl' !! i = Some b' /\ ll' !! i = Some l'
           /\ (size0 b <= ctr2_num self -> b' = b /\ l' = l)
           /\ (ctr2_num self < size0 b ->
                 size0 b' = ctr2_num self /\ len l' = ctr2_num self
                 /\ size1 b' = size1 b
                 /\ exists pos,
                      let idx := draws pos (size0 b) (ctr2_num self) in
                      Forall (fun k => (k < length (rows b))%nat) idx
                      /\ Forall2 (fun k r => rows b !! k = Some r) idx (rows b')
                      /\ Forall2 (fun k x => l !! k = Some x) idx l').
Proof.
  intros Hob Hol Hal Hnum Hrun.
  destruct (ctr_loss_2_heap info ob ol bl ll s s' o Hob Hol Hal Hnum Hrun)
    as (bl' & ll' & Hb & Hl & Hlb & Hll & Hsub).
  exists bl', ll'. rewrite Hb, Hl, !lookup_insert_eq. repeat split; try done.
  intros i b l Hi Hj. destruct (Hsub i b l Hi Hj) as (b' & l' & Hb' & Hl' & Hs).
  exists b', l'. split; [done|]. split; [done|]. unfold subsampled in Hs.
  destruct (Z.ltb_spec (ctr2_num self) (size0 b)).
  - split; [lia|]. intros _. destruct Hs as (pos & ? & ? & ? & ? & ? & ?).
    repeat split; try done. by exists pos.
  - split; [done | lia].
Qed.

(** C10: [ctr_loss_2] subsamples in place.  After the call the list
    objects the caller passed hold, at every image that had more than
    [ctr2_num] boxes, a box tensor and a label tensor of [ctr2_num]
    entries; every other list object is as it was and no list object was
    created. *)
Theorem ctr_loss_2_mutates_arguments (info : CtrInfo) (ob ol : nat)
    (bl : list T2) (ll : list (list Z)) (s s' : St)
    (o : outcome (gmap string LossT)) :
  box_lists s !! ob = Some bl -> label_lists s !! ol = Some ll ->
  aligned bl ll -> 0 <= ctr2_num self ->
  ctr_loss_2 self info ob ol s = (s', o) ->
  exists bl' ll',
    box_lists s' = <[ob := bl']> (box_lists s)
    /\ label_lists s' = <[ol := ll']> (label_lists s)
    /\ dom (box_lists s') = dom (box_lists s)
    /\ dom (label_lists s') = dom (label_lists s)
    /\ (forall ob', ob' <> ob -> box_lists s' !! ob' = box_lists s !! ob')
    /\ (forall ol', ol' <> ol -> label_lists s' !! ol' = label_lists s !! ol')
    /\ forall i b, bl !! i = Some b -> ctr2_num self < size0 b ->
         exists b' l',
           bl' !! i = Some b' /\ ll' !! i = Some l'
           /\ size0 b' = ctr2_num self /\ len l' = ctr2_num self
           /\ size0 b' < size0 b.
Proof.
  intros Hob Hol Hal Hnum Hrun.
  destruct (ctr_loss_2_heap info ob ol bl ll s s' o Hob Hol Hal Hnum Hrun)
    as (bl' & ll' & Hb & Hl & Hlb & Hll & Hsub).
  exists bl', ll'. rewrite Hb, Hl. split; [done|]. split; [done|].
  split; [|split; [|split; [|split]]].
  - rewrite dom_insert_L. apply elem_of_dom_2 in Hob. set_solver.
  - rewrite dom_insert_L. apply elem_of_dom_2 in Hol. set_solver.
  - intros ob' Hne. by rewrite lookup_insert_ne.
  - intros ol' Hne. by rewrite lookup_insert_ne.
  - intros i b Hi Hgt. destruct Hal as (_ & Hlen & _).
    destruct (lookup_lt_is_Some_2 ll i) as [l Hj].
    { apply lookup_lt_Some in Hi. lia. }
    destruct (Hsub i b l Hi Hj) as (b' & l' & Hb' & Hl' & Hs).
    exists b', l'. unfold subsampled in Hs.
    destruct (Z.ltb_spec (ctr2_num self) (size0 b)); [|lia].
    destruct Hs as (pos & ? & ? & _). repeat split; try done. lia.
Qed.

(** ** One call of [_dequeue_and_enqueue] per contrastive loss *)

Lemma setitem_queue_effect (a b : option Z) (v : T2) (s s' : St) (o : outcome unit) :
  setitem_queue a b v s = (s', o) ->
  queue_ptr s' = queue_ptr s /\ calls s' = calls s /\ rounds s' = rounds s.
Proof.
  unfold setitem_queue. destruct (setitem_rows _ _ _ _); intros [= <- <-]; done.
Qed.

(** Every call is logged and takes one round of the collective; a call
    that returns has moved the cursor by the merged row count. *)
Lemma enqueue_effect (features : T2) (s s' : St) (o : outcome unit) :
  _dequeue_and_enqueue self features s = (s', o) ->
  calls s' = calls s ++ [features]
  /\ rounds s' = S (rounds s)
  /\ (o = Done tt ->
      exists merged,
        concat_all_gather self (world self (rounds s)) features = Done merged
        /\ queue_ptr s' = if size0 merged =? 0 then queue_ptr s
                          else (queue_ptr s + size0 merged) mod memory_k self).
Proof.
  unfold _dequeue_and_enqueue, bind, modify, next_round, lift, gets. simpl.
  destruct (concat_all_gather _ _ _) as [merged| |]; cycle 1.
  { intros [= <- <-]. done. }
  { intros [= <- <-]. done. }
  destruct (size0 merged =? 0) eqn:Hz.
  { intros [= <- <-]. repeat split; try done. intros _. exists merged.
    by rewrite Hz. }
  destruct (assert _); cycle 1.
  { intros [= <- <-]. done. }
  { intros [= <- <-]. done. }
  simpl.
  set (s0 := set_rounds _ _).
  assert (H0 : queue_ptr s0 = queue_ptr s /\ calls s0 = calls s ++ [features]
               /\ rounds s0 = S (rounds s)) by done.
  clearbody s0. destruct H0 as (Hp0 & Hc0 & Hr0).
  assert (Hw : forall (m : Cmd unit) s1 o1,
             m s0 = (s1, o1) ->
             (forall s2 s3 o2, m s2 = (s3, o2) ->
                queue_ptr s3 = queue_ptr s2 /\ calls s3 = calls s2
                /\ rounds s3 = rounds s2) ->
             queue_ptr s1 = queue_ptr s /\ calls s1 = calls s ++ [features]
             /\ rounds s1 = S (rounds s)).
  { intros m s1 o1 Hm Hall. destruct (Hall _ _ _ Hm) as (? & ? & ?).
    repeat split; congruence. }
  match goal with
  | |- context [match ?m s0 with _ => _ end] =>
      destruct (m s0) as [s1 o1] eqn:Hm; apply Hw in Hm as (Hp1 & Hc1 & Hr1)
  end.
  - destruct o1; cycle 1.
    { intros [= <- <-]. done. }
    { intros [= <- <-]. done. }
    unfold py_mod. destruct (memory_k self =? 0).
    { intros [= <- <-]. done. }
    intros [= <- <-]. simpl. repeat split; try done. intros _.
    exists merged. by rewrite Hz.
  - intros s2 s3 o2. destruct (memory_k self <=? _).
    + unfold bind. destruct (setitem_queue _ _ _ s2) as [s4 o4] eqn:H1.
      apply setitem_queue_effect in H1 as (? & ? & ?).
      destruct o4; try (intros [= <- <-]; done).
      intros H2. apply setitem_queue_effect in H2 as (? & ? & ?).
      repeat split; congruence.
    + apply setitem_queue_effect.
Qed.

Lemma bind_Done {X Y : Type} (m : Cmd X) (k : X -> Cmd Y) (s s' : St) (y : Y) :
  bind m k s = (s', Done y) ->
  exists s1 x, m s = (s1, Done x) /\ k x s1 = (s', Done y).
Proof.
  unfold bind. destruct (m s) as [s1 [x| |]]; [eauto | discriminate..].
Qed.

Lemma same_queue_streams (s : St) : ignores_streams (same_queue s).
Proof. intros s1 n H. split; exact H. Qed.

Lemma same_queue_heap (s : St) : ignores_heap (same_queue s).
Proof. intros s1 H. split; intros h; exact H. Qed.
#[local] Hint Resolve same_queue_streams same_queue_heap : frames.

Lemma keeps_ctr_loss_1_proposals (I : St -> Prop) (ai ci : CtrInfo) :
  ignores_streams I -> keeps I (ctr_loss_1_proposals self ai ci).
Proof. intros HI. unfold ctr_loss_1_proposals. frame. Qed.

Lemma keeps_ctr_loss_valid_data (I : St -> Prop) (a c : Batch) (a_b c_b : list T2)
    (a_l c_l : list (list Z)) :
  ignores_heap I -> keeps I (ctr_loss_valid_data a c a_b c_b a_l c_l).
Proof. intros HI. unfold ctr_loss_valid_data. frame. Qed.

(** A run of [ctr_loss_1] either stops before the call of
    [_dequeue_and_enqueue], or makes it once, on the keys of the pooled
    features. *)
Lemma ctr_loss_1_effect (ai ci : CtrInfo) (s s' : St)
    (o : outcome (gmap string LossT)) :
  ctr_loss_1 self ai ci s = (s', o) ->
  (same_queue s s' /\ forall x, o <> Done x)
  \/ exists s1 sp tp,
       ctr_loss_1_proposals self ai ci s = (s1, Done (sp, tp))
       /\ calls s' = calls s ++ [ctr_loss_1_keys self sp tp]
       /\ rounds s' = S (rounds s)
       /\ forall x, o = Done x ->
            exists merged,
              concat_all_gather self (world self (rounds s))
                (ctr_loss_1_keys self sp tp) = Done merged
              /\ queue_ptr s' = if size0 merged =? 0 then queue_ptr s
                                else (queue_ptr s + size0 merged) mod memory_k self.
Proof.
  unfold ctr_loss_1, bind at 1.
  destruct (ctr_loss_1_proposals self ai ci s) as [s1 o1] eqn:Hp.
  destruct (keeps_ctr_loss_1_proposals (same_queue s) ai ci
              (same_queue_streams s) s s1 o1 (same_queue_refl s) Hp)
    as [(Hq & Hptr & Hc & Hr) _].
  destruct o1 as [[sp tp]| |]; cycle 1.
  { intros [= <- <-]. left. by repeat split. }
  { intros [= <- <-]. left. by repeat split. }
  intros Hrun. unfold ctr_loss_1_keys.
  assert (Hcall : forall (f : T2) (k : Cmd Losses) s2 o2,
            (forall s3, exists d, k s3 = (s3, Done d)) ->
            bind (_dequeue_and_enqueue self f) (fun _ => k) s1 = (s2, o2) ->
            calls s2 = calls s ++ [f] /\ rounds s2 = S (rounds s)
            /\ forall x, o2 = Done x ->
                 exists merged,
                   concat_all_gather self (world self (rounds s)) f = Done merged
                   /\ queue_ptr s2 = if size0 merged =? 0 then queue_ptr s
                                     else (queue_ptr s + size0 merged)
                                            mod memory_k self).
  { intros f k s2 o2 Hk Hb. unfold bind in Hb.
    destruct (_dequeue_and_enqueue self f s1) as [s3 o3] eqn:He.
    apply enqueue_effect in He as (Hc2 & Hr2 & Hd).
    rewrite Hc, Hr, Hptr in *.
    destruct o3 as [[]| |]; cycle 1.
    { injection Hb as <- <-. done. }
    { injection Hb as <- <-. done. }
    destruct (Hk s3) as [d Hd']. rewrite Hd' in Hb. injection Hb as <- <-.
    repeat split; try done. intros x _. by apply Hd. }
  destruct ((size0 sp =? 0) || (size0 tp =? 0)) eqn:Hempty.
  - right. exists s1, sp, tp. rewrite Hempty. split; [done|].
    eapply (Hcall _ (ret _)); [|exact Hrun]. intros s3. by eexists.
  - unfold bind at 1 in Hrun.
    destruct (contrast _ _ _ _ s1) as [s2 o2] eqn:Hk.
    assert (s2 = s1) as ->.
    { pose proof (keeps_contrast (fun s3 => s3 = s1) _ _ _ s1 s2 o2 eq_refl Hk)
        as [? _]. done. }
    destruct o2 as [loss| |]; cycle 1.
    { injection Hrun as <- <-. left. by repeat split. }
    { injection Hrun as <- <-. left. by repeat split. }
    right. exists s1, sp, tp. rewrite Hempty. split; [done|].
    eapply (Hcall _ (ret _)); [|exact Hrun]. intros s3. by eexists.
Qed.

Lemma read_box_list_Done (ob : nat) (s s1 : St) (l : list T2) :
  read_box_list ob s = (s1, Done l) -> s1 = s /\ box_lists s !! ob = Some l.
Proof.
  unfold read_box_list. destruct (box_lists s !! ob); intros [= <- ?]; by subst.
Qed.

Lemma read_label_list_Done (ol : nat) (s s1 : St) (l : list (list Z)) :
  read_label_list ol s = (s1, Done l) -> s1 = s /\ label_lists s !! ol = Some l.
Proof.
  unfold read_label_list. destruct (label_lists s !! ol); intros [= <- ?]; by subst.
Qed.

Lemma ctr_loss_1_keys_cases (sp tp : T2) :
  (size0 sp = 0 \/ size0 tp = 0 -> ctr_loss_1_keys self sp tp = mkT2 [] 128)
  /\ (size0 sp <> 0 -> size0 tp <> 0 ->
      ctr_loss_1_keys self sp tp = F_normalize self (projector (teacher self) tp)).
Proof.
  unfold ctr_loss_1_keys.
  destruct (Z.eqb_spec (size0 sp) 0), (Z.eqb_spec (size0 tp) 0); simpl;
    split; try done; intros; lia.
Qed.


(** ** The degenerate inputs *)

Lemma bind_read_box_list {X : Type} (ob : nat) (l : list T2) (k : list T2 -> Cmd X)
    (s : St) :
  box_lists s !! ob = Some l -> bind (read_box_list ob) k s = k l s.
Proof. intros H. unfold bind, read_box_list. by rewrite H. Qed.

Lemma bind_read_label_list {X : Type} (ol : nat) (l : list (list Z))
    (k : list (list Z) -> Cmd X) (s : St) :
  label_lists s !! ol = Some l -> bind (read_label_list ol) k s = k l s.
Proof. intros H. unfold bind, read_label_list. by rewrite H. Qed.

(** The two losses [ctr_loss] reports for a batch without boxes, and the
    loss [ctr_loss_1] reports without pooled features: [torch.zeros([1])]. *)
Definition zero_losses : Losses :=
  <[ "ctr2_loss"%string := Vector [zero self] ]>
    {[ "ctr1_loss"%string := Vector [zero self] ]}.

Definition zero_ctr1_loss : Losses := {[ "ctr1_loss"%string := Vector [zero self] ]}.

(** The outcome of a call that enqueues an empty feature set and then
    returns [losses]. *)
Definition after_empty_enqueue (losses : Losses) (s : St) : St * outcome Losses :=
  let r := _dequeue_and_enqueue self (mkT2 [] 128) s in
  (r.1, obind r.2 (fun _ => Done losses)).

Lemma bind_enqueue_ret (f : T2) (losses : Losses) (s : St) :
  bind (_dequeue_and_enqueue self f) (fun _ => ret losses) s
  = ((_dequeue_and_enqueue self f s).1,
     obind (_dequeue_and_enqueue self f s).2 (fun _ => Done losses)).
Proof.
  unfold bind. by destruct (_dequeue_and_enqueue self f s) as [s1 [[]| |]].
Qed.


Lemma init_shape :
  0 <= memory_k self -> 0 <= projector_dim self ->
  exists s0,
    __init__ self = Done s0
    /\ size0 (queue_vector s0) = memory_k self
    /\ size1 (queue_vector s0) = projector_dim self
    /\ queue_ptr s0 = 0 /\ rounds s0 = 0%nat.
Proof.
  intros HK HD. unfold __init__.
  destruct (Z.ltb_spec (memory_k self) 0); [lia|].
  destruct (Z.ltb_spec (projector_dim self) 0); [lia|].
  eexists. split; [reflexivity|]. unfold size0. cbn [queue_vector rows size1 queue_ptr rounds].
  rewrite !length_map, length_seq. repeat split; lia.
Qed.

(** ** Row counts that are no float32 *)

(** The gather of a single process, whatever its row count. *)
Lemma gather_alone (g : Group) (features : T2) :
  lower g = [] -> upper g = [] -> 0 <= size1 features ->
  concat_all_gather self g features =
    if float32_of_int (size0 features) <? size0 features
    then Raised RuntimeError
    else Done (mkT2 (rows features
                     ++ repeat (repeat (zero self) (Z.to_nat (size1 features)))
                          (Z.to_nat (float32_of_int (size0 features)
                                     - size0 features)))
                    (size1 features)).
Proof.
  intros Hl Hu Hd. unfold concat_all_gather. rewrite Hl, Hu.
  cbn [app map list_max_Z omap combine]. rewrite Z.max_id.
  set (m := float32_of_int (size0 features)).
  destruct (Z.ltb_spec m (size0 features)) as [Hlt|Hge].
  - unfold pad_to, zeros. destruct (Z.ltb_spec (m - size0 features) 0); [done | lia].
  - rewrite pad_to_rows by done. cbn [obind]. rewrite Z.eqb_refl. cbn [obind map cat].
    rewrite Z.eqb_refl. cbn [obind rows size1]. unfold slice_rows. cbn [rows size1].
    rewrite py_slice_prefix; cycle 1.
    { rewrite length_app, repeat_length. unfold size0 in *. lia. }
    rewrite take_ge; [by rewrite app_nil_r|].
    rewrite length_app, repeat_length. unfold size0 in *. lia.
Qed.

(** A single process whose row count the float32 exchange rounds up by one
    enqueues a row of zeros behind its own rows. *)
Lemma enqueue_zero_row (features : T2) (s : St) (n : nat) :
  lower (world self (rounds s)) = [] -> upper (world self (rounds s)) = [] ->
  length (rows features) = n ->
  float32_of_int (Z.of_nat n) = Z.of_nat n + 1 ->
  Z.of_nat n + 1 <= memory_k self ->
  queue_ptr s = 0 ->
  size0 (queue_vector s) = memory_k self ->
  size1 features = projector_dim self ->
  size1 (queue_vector s) = projector_dim self ->
  0 <= projector_dim self ->
  exists s',
    _dequeue_and_enqueue self features s = (s', Done tt)
    /\ rows (queue_vector s') !! n
       = Some (repeat (zero self) (Z.to_nat (projector_dim self))).
Proof.
  intros Hl Hu Hn Hf HK Hp Hq Hd Hqd HD.
  assert (Hsz : size0 features = Z.of_nat n) by (unfold size0; lia).
  pose proof (gather_alone _ features Hl Hu ltac:(lia)) as Hg.
  rewrite Hsz, Hf in Hg.
  destruct (Z.ltb_spec (Z.of_nat n + 1) (Z.of_nat n)); [lia|].
  replace (Z.of_nat n + 1 - Z.of_nat n) with 1 in Hg by lia.
  change (Z.to_nat 1) with 1%nat in Hg. cbn [repeat] in Hg.
  eexists. split.
  - apply (enqueue_writes features _ s Hg); unfold size0 in *; cbn [rows size1];
      rewrite ?length_app, ?Hn; cbn [length]; lia.
  - cbn [queue_vector set_queue_ptr set_queue_vector rows]. rewrite Hp.
    change (Z.to_nat 0) with 0%nat.
    rewrite <- (Nat.add_0_l n) at 1.
    rewrite written_tail.
    + rewrite lookup_app_r by lia. rewrite Hn, Nat.sub_diag, Hd. done.
    + unfold size0 in Hq. lia.
    + lia.
    + rewrite length_app, Hn. cbn [length]. lia.
    + rewrite length_app, Hn. cbn [length]. lia.
    + lia.
Qed.

(** ** The realignment by filename *)

(** X1: When the realignment returns, the teacher entries it selects carry the
    filenames of the student entries, in the student's order. *)
Lemma align_by_filename (t_metas s_metas : list (@Meta Mat)) (tidx : list nat)
    (picked : list (@Meta Mat)) :
  align t_metas s_metas = Done tidx ->
  select t_metas tidx = Done picked ->
  map filename picked = map filename s_metas.
Proof.
  assert (Hidx : forall l x i, index l x = Done i -> l !! i = Some x).
  { induction l as [|y l IH]; intros x i; simpl; [discriminate|].
    destruct (String.eqb_spec y x) as [->|_].
    - by intros [= <-].
    - destruct (index l x) as [j| |] eqn:Hj; simpl; try discriminate.
      intros [= <-]. simpl. by apply IH. }
  unfold align, select. intros Ha Hs.
  apply omap_inv in Ha. apply omap_inv in Hs.
  apply list_eq. intros k. rewrite !list_lookup_fmap.
  destruct (s_metas !! k) as [m|] eqn:Hm; simpl.
  - assert (Hk : map filename s_metas !! k = Some (filename m))
      by (by rewrite list_lookup_fmap, Hm).
    destruct (Forall2_lookup_l _ _ _ _ _ Ha Hk) as (i & Hi & Hfound).
    destruct (Forall2_lookup_l _ _ _ _ _ Hs Hi) as (m' & Hm' & Hsel).
    rewrite Hm'. simpl. f_equal. apply Hidx in Hfound.
    rewrite list_lookup_fmap in Hfound.
    destruct (t_metas !! i) as [m''|]; [|discriminate].
    injection Hsel as <-. by injection Hfound as ->.
  - apply Forall2_length in Ha, Hs. rewrite length_map in Ha.
    apply lookup_ge_None in Hm.
    rewrite (proj2 (lookup_ge_None picked k)); [done | lia].
Qed.

(** ** Sequences of enqueues, failed enqueues and the ranks of a group *)

(** X2: The cursor after a sequence of enqueues that all return: the first
    cursor advanced, modulo the capacity, by the number of rows the
    gathers merged.  One round of the collective is taken per call. *)
Theorem enqueue_cursor_sum (batches : list T2) :
  forall s s' : St,
  0 <= queue_ptr s < memory_k self ->
  for_each batches (_dequeue_and_enqueue self) s = (s', Done tt) ->
  exists merged : list T2,
    length merged = length batches
    /\ (forall i f, batches !! i = Some f ->
          exists m, merged !! i = Some m
                    /\ concat_all_gather self (world self (rounds s + i)) f = Done m)
    /\ queue_ptr s'
       = (queue_ptr s + fold_right Z.add 0 (map size0 merged)) mod memory_k self
    /\ rounds s' = (rounds s + length batches)%nat
    /\ calls s' = calls s ++ batches.
Proof.
  induction batches as [|f rest IH]; intros s s' Hptr Hrun; simpl in Hrun.
  - injection Hrun as <-. exists []. simpl.
    rewrite Z.add_0_r, Z.mod_small, Nat.add_0_r, app_nil_r by done.
    by repeat split.
  - apply bind_Done in Hrun as (s1 & [] & Henq & Hrest).
    apply enqueue_effect in Henq as (Hcalls & Hrounds & Hd).
    destruct (Hd eq_refl) as (m0 & Hg & Hp1).
    assert (H0 : 0 <= size0 m0) by (unfold size0; lia).
    assert (Hp1' : queue_ptr s1 = (queue_ptr s + size0 m0) mod memory_k self).
    { rewrite Hp1. destruct (Z.eqb_spec (size0 m0) 0) as [->|]; [|done].
      by rewrite Z.add_0_r, Z.mod_small. }
    destruct (IH s1 s') as (merged & Hlen & Hall & Hp & Hr & Hc); [|done|].
    { rewrite Hp1'. apply Z.mod_pos_bound. lia. }
    exists (m0 :: merged). simpl. rewrite Hlen. split; [done|]. split; [|split; [|split]].
    + intros [|i] f' Hi; simpl in *.
      * injection Hi as <-. exists m0. by rewrite Nat.add_0_r.
      * destruct (Hall i f' Hi) as (m & Hm & Hgm). exists m. split; [done|].
        rewrite Hrounds in Hgm. by replace (rounds s + S i)%nat with (S (rounds s) + i)%nat by lia.
    + rewrite Hp, Hp1', Zplus_mod_idemp_l. f_equal. lia.
    + rewrite Hr, Hrounds. lia.
    + rewrite Hc, Hcalls, <- app_assoc. done.
Qed.

(** X3: An enqueue that does not return leaves the cursor where it was.  A
    merged batch with rows whose width is not [projector_dim] is refused
    with an AssertionError before anything is written. *)
Theorem enqueue_failure_keeps_cursor (features : T2) (s s' : St) (o : outcome unit) :
  _dequeue_and_enqueue self features s = (s', o) ->
  (o <> Done tt -> queue_ptr s' = queue_ptr s)
  /\ forall merged,
       concat_all_gather self (world self (rounds s)) features = Done merged ->
       size0 merged <> 0 -> size1 merged <> projector_dim self ->
       o = Raised AssertionError /\ queue_vector s' = queue_vector s.
Proof.
  unfold _dequeue_and_enqueue, bind, modify, next_round, lift, gets. simpl.
  destruct (concat_all_gather _ _ _) as [merged| |]; cycle 1.
  { intros [= <- <-]. split; [done|]. intros ? [=]. }
  { intros [= <- <-]. split; [done|]. intros ? [=]. }
  destruct (Z.eqb_spec (size0 merged) 0) as [Hz|Hz].
  { intros [= <- <-]. split; [done|]. intros ? [= <-]. done. }
  unfold assert. destruct (Z.eqb_spec (size1 merged) (projector_dim self)) as [Hd|Hd];
    cycle 1.
  { intros [= <- <-]. split; [done|]. intros ? [= <-]. done. }
  simpl. intros Hrun. split; [|intros ? [= <-]; done]. revert Hrun.
  set (s0 := set_rounds _ _).
  assert (H0 : queue_ptr s0 = queue_ptr s) by done. clearbody s0.
  assert (Hw : forall (m : Cmd unit) s1 o1,
             m s0 = (s1, o1) ->
             (forall s2 s3 o2, m s2 = (s3, o2) ->
                queue_ptr s3 = queue_ptr s2 /\ calls s3 = calls s2
                /\ rounds s3 = rounds s2) ->
             queue_ptr s1 = queue_ptr s).
  { intros m s1 o1 Hm Hall. destruct (Hall _ _ _ Hm) as (? & _). congruence. }
  match goal with
  | |- context [match ?m s0 with _ => _ end] =>
      destruct (m s0) as [s1 o1] eqn:Hm; apply Hw in Hm as Hp1
  end.
  - destruct o1 as [[]| |]; try (intros [= <- <-]; done).
    unfold py_mod. destruct (memory_k self =? 0).
    + intros [= <- <-]. done.
    + intros [= <- <-]. done.
  - intros s2 s3 o2. destruct (memory_k self <=? _).
    + unfold bind. destruct (setitem_queue _ _ _ s2) as [s4 o4] eqn:H1.
      apply setitem_queue_effect in H1 as (? & ? & ?).
      destruct o4; try (intros [= <- <-]; done).
      intros Hset. apply setitem_queue_effect in Hset as (? & ? & ?).
      repeat split; congruence.
    + apply setitem_queue_effect.
Qed.

Lemma list_max_Z_in (x : Z) (l : list Z) :
  list_max_Z x l = x \/ list_max_Z x l ∈ l.
Proof.
  revert x. induction l as [|y l IH]; intros x; simpl; [by left|].
  destruct (IH (Z.max x y)) as [->|Hin].
  - destruct (Z.max_spec x y) as [[_ ->] | [_ ->]]; [right; apply list_elem_of_here | by left].
  - right. by apply list_elem_of_further.
Qed.

Lemma list_max_Z_member (x y : Z) (l : list Z) :
  x ∈ l -> y ∈ l -> list_max_Z x l = list_max_Z y l.
Proof.
  intros Hx Hy.
  destruct (list_max_Z_le x l) as [_ Hle1], (list_max_Z_le y l) as [_ Hle2].
  rewrite Forall_forall in Hle1, Hle2.
  assert (H1 : list_max_Z x l ∈ l) by (destruct (list_max_Z_in x l) as [->|]; done).
  assert (H2 : list_max_Z y l ∈ l) by (destruct (list_max_Z_in y l) as [->|]; done).
  apply Hle2 in H1. apply Hle1 in H2. lia.
Qed.

(** X4: Every rank of a group that gets a result from the gather gets the same
    one: the merged tensor does not depend on the position of the rank. *)
Theorem gather_agrees_across_ranks (g g' : Group) (features features' merged : T2) :
  lower g ++ features :: upper g = lower g' ++ features' :: upper g' ->
  concat_all_gather self g features = Done merged ->
  concat_all_gather self g' features' = Done merged.
Proof.
  intros Hsame Hg. unfold concat_all_gather in *. rewrite <- Hsame.
  set (everyone := lower g ++ features :: upper g) in *.
  assert (Hf : features ∈ everyone).
  { apply elem_of_app. right. apply list_elem_of_here. }
  assert (Hf' : features' ∈ everyone).
  { rewrite Hsame. apply elem_of_app. right. apply list_elem_of_here. }
  set (counts := map (fun t : T2 => float32_of_int (size0 t)) everyone) in *.
  assert (Hmax : list_max_Z (float32_of_int (size0 features')) counts
                 = list_max_Z (float32_of_int (size0 features)) counts).
  { apply list_max_Z_member; unfold counts; apply list_elem_of_fmap; eauto. }
  rewrite Hmax. set (max_batch := list_max_Z _ counts) in *.
  destruct (pad_to self max_batch features) as [p| |] eqn:Hp; try discriminate.
  simpl in Hg.
  destruct (omap _ everyone) as [ps| |] eqn:Ho; try discriminate. simpl in Hg.
  apply omap_inv in Ho as Hall.
  apply list_elem_of_lookup in Hf' as [i Hi].
  destruct (Forall2_lookup_l _ _ _ _ _ Hall Hi) as (p' & _ & Hp').
  destruct (pad_to self max_batch features') as [q| |] eqn:Hq; try discriminate.
  destruct (Z.eqb_spec (size1 q) (size1 features)) as [Hw|]; [|discriminate].
  apply pad_to_inv in Hq as [_ Hq]. rewrite Hq in Hw. rewrite Hw.
  simpl. rewrite Ho. exact Hg.
Qed.

(** ** The losses [ctr_loss] and [forward_train] report *)

Lemma lift_Done {X : Type} (o : outcome X) (s s1 : St) (x : X) :
  lift o s = (s1, Done x) -> s1 = s /\ o = Done x.
Proof. by intros [= <- ->]. Qed.

Lemma ctr_loss_1_returns (ai ci : CtrInfo) (s s' : St) (x : Losses) :
  ctr_loss_1 self ai ci s = (s', Done x) ->
  exists v, x = {[ "ctr1_loss"%string := v ]}.
Proof.
  unfold ctr_loss_1. intros Hrun.
  apply bind_Done in Hrun as (s1 & [sp tp] & _ & Hrun).
  destruct ((size0 sp =? 0) || (size0 tp =? 0)).
  - apply bind_Done in Hrun as (s2 & [] & _ & [= _ <-]). eauto.
  - apply bind_Done in Hrun as (s2 & loss & _ & Hrun).
    apply bind_Done in Hrun as (s3 & [] & _ & [= _ <-]). eauto.
Qed.

Lemma ctr_loss_2_returns (info : CtrInfo) (ob ol : nat) (s s' : St) (x : Losses) :
  ctr_loss_2 self info ob ol s = (s', Done x) ->
  exists v, x = {[ "ctr2_loss"%string := Scalar v ]}.
Proof.
  unfold ctr_loss_2. intros Hrun.
  apply bind_Done in Hrun as (s1 & bl & _ & Hrun).
  apply bind_Done in Hrun as (s2 & ll & _ & Hrun).
  apply bind_Done in Hrun as (s3 & b0 & _ & Hrun).
  apply bind_Done in Hrun as (s4 & [] & _ & Hrun).
  apply bind_Done in Hrun as (s5 & [] & _ & Hrun).
  unfold ctr_loss_2_contrast in Hrun.
  apply bind_Done in Hrun as (s6 & bl' & _ & Hrun).
  apply bind_Done in Hrun as (s7 & rois & _ & Hrun).
  apply bind_Done in Hrun as (s8 & [] & _ & Hrun).
  apply bind_Done in Hrun as (s9 & ll' & _ & Hrun).
  apply bind_Done in Hrun as (s10 & [] & _ & Hrun).
  apply bind_Done in Hrun as (s11 & tv & _ & Hrun).
  apply bind_Done in Hrun as (s12 & [] & _ & Hrun).
  apply bind_Done in Hrun as (s13 & loss & _ & [= _ <-]). eauto.
Qed.

(** X5: Whenever [ctr_loss] returns, it reports exactly the two losses
    [ctr1_loss] and [ctr2_loss].  For a batch without boxes both are the
    one-element tensor [torch.zeros([1])]; for a batch with boxes
    [ctr2_loss] is a 0-dim tensor. *)
Theorem ctr_loss_result_keys (anchor ctr : Batch) (s s' : St) (losses : Losses) :
  ctr_loss self anchor ctr s = (s', Done losses) ->
  exists a_b c1 c2,
    box_lists s !! gt_bboxes anchor = Some a_b
    /\ losses = <[ "ctr2_loss"%string := c2 ]> {[ "ctr1_loss"%string := c1 ]}
    /\ dom losses = {[ "ctr1_loss"%string; "ctr2_loss"%string ]}
    /\ (gt_num a_b = 0 -> c1 = Vector [zero self] /\ c2 = Vector [zero self])
    /\ (gt_num a_b <> 0 -> exists x, c2 = Scalar x).
Proof.
  unfold ctr_loss. intros Hrun.
  apply bind_Done in Hrun as (s1 & a_b & Ha & Hrun).
  apply read_box_list_Done in Ha as [-> Ha].
  apply bind_Done in Hrun as (s1 & c_b & _ & Hrun).
  apply bind_Done in Hrun as (s2 & a_l & _ & Hrun).
  apply bind_Done in Hrun as (s3 & c_l & _ & Hrun).
  apply bind_Done in Hrun as (s4 & [] & _ & Hrun).
  exists a_b.
  assert (Hdom : forall c1 c2 : LossT,
            dom (<[ "ctr2_loss"%string := c2 ]> ({[ "ctr1_loss"%string := c1 ]} : Losses))
            = ({[ "ctr1_loss"%string; "ctr2_loss"%string ]} : gset string)).
  { intros c1 c2. rewrite dom_insert_L, dom_singleton_L. set_solver. }
  destruct (Z.eqb_spec (gt_num a_b) 0) as [Hz|Hnz].
  - apply bind_Done in Hrun as (s5 & [] & _ & [= _ <-]).
    exists (Vector [zero self]), (Vector [zero self]).
    repeat split; try done; apply Hdom.
  - apply bind_Done in Hrun as (s5 & [va vc] & _ & Hrun).
    apply bind_Done in Hrun as (s6 & [] & _ & Hrun).
    apply bind_Done in Hrun as (s7 & infos & _ & Hrun).
    apply bind_Done in Hrun as (s8 & l1 & H1 & Hrun).
    apply bind_Done in Hrun as (s9 & l2 & H2 & [= _ <-]).
    apply ctr_loss_1_returns in H1 as [c1 ->].
    apply ctr_loss_2_returns in H2 as [x ->].
    exists c1, (Scalar x). rewrite <- insert_union_singleton_l.
    repeat split; try done; try apply Hdom; eauto.
Qed.

(** What a call of [forward_train] that returns has done: the supervised
    part, if the batch has a [sup] group, then the unsupervised part, if it
    has an [unsup_student] group. *)
Lemma forward_train_inv (data_groups : gmap string Batch) (s s' : St) (losses : Losses) :
  forward_train self data_groups s = (s', Done losses) ->
  exists s1 loss,
    match data_groups !! "sup"%string with
    | None => loss = ∅ /\ s1 = s
    | Some sup =>
        exists gts gls anchor ctr l c1 c2,
          box_lists s !! gt_bboxes sup = Some gts
          /\ label_lists s !! gt_labels sup = Some gls
          /\ gts <> []
          /\ data_groups !! "ctr_anchor_sup"%string = Some anchor
          /\ data_groups !! "ctr_ctr_sup"%string = Some ctr
          /\ ctr_loss self anchor ctr s = (s1, Done l)
          /\ l !! "ctr1_loss"%string = Some c1
          /\ l !! "ctr2_loss"%string = Some c2
          /\ loss = prefixed "sup_"
                      (<[ "ctr2_loss"%string := scale self c2 (ctr2_lam_sup self) ]>
                         (<[ "ctr1_loss"%string := scale self c1 (ctr1_lam_sup self) ]> l))
                    ∪ prefixed "sup_"
                        (detector_forward_train (student self) (img sup) (img_metas sup)
                           gts gls)
    end
    /\ match data_groups !! "unsup_student"%string with
       | None => losses = loss /\ s' = s1
       | Some unsup_student =>
           exists unsup_teacher anchor ctr unsup,
             data_groups !! "unsup_teacher"%string = Some unsup_teacher
             /\ data_groups !! "ctr_anchor_unsup"%string = Some anchor
             /\ data_groups !! "ctr_ctr_unsup"%string = Some ctr
             /\ foward_unsup_train self unsup_teacher unsup_student anchor ctr s1
                = (s', Done unsup)
             /\ losses = prefixed "unsup_" (weighted_loss self unsup (unsup_weight self))
                         ∪ loss
       end.
Proof.
  unfold forward_train. intros Hrun.
  apply bind_Done in Hrun as (s1 & loss & Hsup & Hunsup).
  exists s1, loss. split.
  - destruct (data_groups !! "sup"%string) as [sup|]; [|by injection Hsup as <- <-].
    apply bind_Done in Hsup as (s2 & gts & Hg & Hsup).
    apply read_box_list_Done in Hg as [-> Hg].
    apply bind_Done in Hsup as (s2 & [] & Hlog & Hsup).
    apply lift_Done in Hlog as [-> Hlog].
    apply bind_Done in Hsup as (s2 & gls & Hl & Hsup).
    apply read_label_list_Done in Hl as [-> Hl].
    apply bind_Done in Hsup as (s2 & anchor & Ha & Hsup).
    apply lift_Done in Ha as [-> Ha].
    apply bind_Done in Hsup as (s2 & ctr & Hc & Hsup).
    apply lift_Done in Hc as [-> Hc].
    apply bind_Done in Hsup as (s2 & l & Hctr & Hsup).
    apply bind_Done in Hsup as (s3 & c1 & Hc1 & Hsup).
    apply lift_Done in Hc1 as [-> Hc1].
    apply bind_Done in Hsup as (s3 & c2 & Hc2 & Hsup).
    apply lift_Done in Hc2 as [-> Hc2].
    injection Hsup as <- <-.
    unfold group in Ha, Hc. unfold key in Hc1, Hc2.
    destruct (data_groups !! "ctr_anchor_sup"%string) eqn:Ea; [|discriminate].
    destruct (data_groups !! "ctr_ctr_sup"%string) eqn:Ec; [|discriminate].
    injection Ha as ->. injection Hc as ->.
    destruct (l !! "ctr1_loss"%string) eqn:E1; [|discriminate].
    injection Hc1 as ->.
    rewrite lookup_insert_ne in Hc2 by done.
    destruct (l !! "ctr2_loss"%string) eqn:E2; [|discriminate].
    injection Hc2 as ->.
    exists gts, gls, anchor, ctr, l, c1, c2. repeat split; try done.
    intros ->. discriminate.
  - destruct (data_groups !! "unsup_student"%string) as [st|];
      [|by injection Hunsup as <- <-].
    apply bind_Done in Hunsup as (s2 & t & Ht & Hunsup).
    apply lift_Done in Ht as [-> Ht].
    apply bind_Done in Hunsup as (s2 & a & Ha & Hunsup).
    apply lift_Done in Ha as [-> Ha].
    apply bind_Done in Hunsup as (s2 & c & Hc & Hunsup).
    apply lift_Done in Hc as [-> Hc].
    apply bind_Done in Hunsup as (s2 & u & Hu & Hunsup).
    injection Hunsup as <- <-.
    unfold group in Ht, Ha, Hc.
    destruct (data_groups !! "unsup_teacher"%string); [|discriminate].
    destruct (data_groups !! "ctr_anchor_unsup"%string); [|discriminate].
    destruct (data_groups !! "ctr_ctr_unsup"%string); [|discriminate].
    injection Ht as ->. injection Ha as ->. injection Hc as ->.
    exists t, a, c, u. done.
Qed.

Lemma prefixed_lookup (pre k : string) (d : Losses) :
  prefixed pre d !! (pre +:+ k) = d !! k.
Proof. unfold prefixed. apply (lookup_kmap (String.append pre)). Qed.

Lemma prefixed_is_Some (pre k : string) (d : Losses) :
  is_Some (prefixed pre d !! k) -> exists k0, k = pre +:+ k0.
Proof.
  unfold prefixed. intros [v Hv].
  apply (lookup_kmap_Some (String.append pre)) in Hv as (k0 & -> & _). eauto.
Qed.

(** X6: The keys of the dict [forward_train] returns, and the groups it needs.
    Every key starts with [sup_] or [unsup_].  A [sup] group must come with
    a non-empty box list and with both supervised contrastive views, and
    then both contrastive losses are reported; an [unsup_student] group
    must come with the teacher view and both unsupervised contrastive
    views; a batch with neither group yields an empty dict and touches
    nothing. *)
Theorem forward_train_loss_keys (data_groups : gmap string Batch) (s s' : St)
    (losses : Losses) :
  forward_train self data_groups s = (s', Done losses) ->
  (forall k, is_Some (losses !! k) ->
     exists k0, k = "sup_" +:+ k0 \/ k = "unsup_" +:+ k0)
  /\ (is_Some (data_groups !! "sup"%string) ->
      is_Some (data_groups !! "ctr_anchor_sup"%string)
      /\ is_Some (data_groups !! "ctr_ctr_sup"%string)
      /\ is_Some (losses !! "sup_ctr1_loss"%string)
      /\ is_Some (losses !! "sup_ctr2_loss"%string))
  /\ (is_Some (data_groups !! "unsup_student"%string) ->
      is_Some (data_groups !! "unsup_teacher"%string)
      /\ is_Some (data_groups !! "ctr_anchor_unsup"%string)
      /\ is_Some (data_groups !! "ctr_ctr_unsup"%string))
  /\ (data_groups !! "sup"%string = None ->
      data_groups !! "unsup_student"%string = None ->
      losses = ∅ /\ s' = s).
Proof.
  intros Hrun. apply forward_train_inv in Hrun as (s1 & loss & Hsup & Hunsup).
  assert (Hloss : (forall k, is_Some (loss !! k) -> exists k0, k = "sup_" +:+ k0)
                  /\ (is_Some (data_groups !! "sup"%string) ->
                      is_Some (loss !! "sup_ctr1_loss"%string)
                      /\ is_Some (loss !! "sup_ctr2_loss"%string))).
  { destruct (data_groups !! "sup"%string) as [sup|].
    - destruct Hsup as (gts & gls & a & c & l & c1 & c2 & _ & _ & _ & _ & _ & _ & _ & _ & ->).
      split.
      + intros k Hk. apply lookup_union_is_Some in Hk as [Hk|Hk];
          by apply prefixed_is_Some in Hk.
      + intros _. split.
        * apply lookup_union_is_Some. left.
          rewrite (prefixed_lookup "sup_" "ctr1_loss").
          rewrite lookup_insert_ne, lookup_insert_eq by done. eauto.
        * apply lookup_union_is_Some. left.
          rewrite (prefixed_lookup "sup_" "ctr2_loss").
          rewrite lookup_insert_eq. eauto.
    - destruct Hsup as [-> _]. split; [|by intros [? ?]].
      intros k [v Hk]. by rewrite lookup_empty in Hk. }
  destruct Hloss as [Hkeys Hctr].
  assert (Hsub : forall k, is_Some (loss !! k) -> is_Some (losses !! k)).
  { intros k Hk. destruct (data_groups !! "unsup_student"%string).
    - destruct Hunsup as (? & ? & ? & ? & _ & _ & _ & _ & ->).
      apply lookup_union_is_Some. by right.
    - by destruct Hunsup as [-> _]. }
  split; [|split; [|split]].
  - intros k Hk. destruct (data_groups !! "unsup_student"%string).
    + destruct Hunsup as (? & ? & ? & ? & _ & _ & _ & _ & ->).
      apply lookup_union_is_Some in Hk as [Hk|Hk].
      * apply prefixed_is_Some in Hk as [k0 ->]. eauto.
      * destruct (Hkeys k Hk) as [k0 ->]. eauto.
    + destruct Hunsup as [-> _]. destruct (Hkeys k Hk) as [k0 ->]. eauto.
  - intros Hs. destruct (Hctr Hs) as [H1 H2].
    destruct (data_groups !! "sup"%string); [|by destruct Hs].
    destruct Hsup as (? & ? & ? & ? & ? & ? & ? & _ & _ & _ & -> & -> & _).
    repeat split; eauto.
  - intros Hs. destruct (data_groups !! "unsup_student"%string); [|by destruct Hs].
    destruct Hunsup as (? & ? & ? & ? & -> & -> & -> & _). eauto.
  - intros E1 E2. rewrite E1 in Hsup. rewrite E2 in Hunsup.
    destruct Hsup as [-> ->], Hunsup as [-> ->]. done.
Qed.

(** X7: The supervised contrastive losses in the result of [forward_train] are
    the two losses of [ctr_loss] on the supervised views, multiplied by
    [ctr1_lam_sup] and [ctr2_lam_sup]; no loss of the student detector or
    of the unsupervised part replaces them. *)
Theorem sup_contrastive_losses_are_weighted (data_groups : gmap string Batch)
    (s s' : St) (losses : Losses) (anchor ctr : Batch) :
  forward_train self data_groups s = (s', Done losses) ->
  is_Some (data_groups !! "sup"%string) ->
  data_groups !! "ctr_anchor_sup"%string = Some anchor ->
  data_groups !! "ctr_ctr_sup"%string = Some ctr ->
  exists s1 l c1 c2,
    ctr_loss self anchor ctr s = (s1, Done l)
    /\ l !! "ctr1_loss"%string = Some c1
    /\ l !! "ctr2_loss"%string = Some c2
    /\ losses !! "sup_ctr1_loss"%string = Some (scale self c1 (ctr1_lam_sup self))
    /\ losses !! "sup_ctr2_loss"%string = Some (scale self c2 (ctr2_lam_sup self)).
Proof.
  intros Hrun Hs Ha Hc. apply forward_train_inv in Hrun as (s1 & loss & Hsup & Hunsup).
  destruct (data_groups !! "sup"%string) as [sup|]; [|by destruct Hs].
  destruct Hsup as (gts & gls & a & c & l & c1 & c2 & _ & _ & _ & Ha' & Hc' & Hctr
                    & H1 & H2 & ->).
  rewrite Ha in Ha'. rewrite Hc in Hc'. injection Ha' as <-. injection Hc' as <-.
  exists s1, l, c1, c2. do 3 (split; [done|]).
  assert (Hfront : forall (k : string) (u rest : Losses),
            (prefixed "unsup_" u ∪ rest) !! ("sup_" +:+ k) = rest !! ("sup_" +:+ k)).
  { intros k u rest. apply lookup_union_r.
    destruct (prefixed "unsup_" u !! ("sup_" +:+ k)) eqn:E; [|done].
    destruct (prefixed_is_Some "unsup_" ("sup_" +:+ k) u) as [k0 Hk0]; [eauto|].
    discriminate. }
  assert (Hfinal : forall k, losses !! ("sup_" +:+ k)
                             = (prefixed "sup_"
                                  (<[ "ctr2_loss"%string := scale self c2 (ctr2_lam_sup self) ]>
                                     (<[ "ctr1_loss"%string := scale self c1 (ctr1_lam_sup self) ]> l))
                                ∪ prefixed "sup_"
                                    (detector_forward_train (student self) (img sup)
                                       (img_metas sup) gts gls)) !! ("sup_" +:+ k)).
  { intros k. destruct (data_groups !! "unsup_student"%string).
    - destruct Hunsup as (? & ? & ? & ? & _ & _ & _ & _ & ->). apply Hfront.
    - by destruct Hunsup as [-> _]. }
  split.
  - change "sup_ctr1_loss"%string with ("sup_" +:+ "ctr1_loss").
    rewrite Hfinal. apply lookup_union_Some_l. rewrite prefixed_lookup.
    by rewrite lookup_insert_ne, lookup_insert_eq.
  - change "sup_ctr2_loss"%string with ("sup_" +:+ "ctr2_loss").
    rewrite Hfinal. apply lookup_union_Some_l. rewrite prefixed_lookup.
    by rewrite lookup_insert_eq.
Qed.

(** ** A student without RPN *)

Lemma pseudo_label_loss_needs_rpn_out (si : StudentInfo) (ti : TeacherInfo)
    (s s' : St) (l : Losses) :
  s_rpn_out si = None -> compute_pseudo_label_loss self si ti s <> (s', Done l).
Proof.
  intros Hnone Hrun. unfold compute_pseudo_label_loss in Hrun.
  apply bind_Done in Hrun as (s1 & [] & _ & Hrun).
  apply bind_Done in Hrun as (s2 & trans & _ & Hrun).
  apply bind_Done in Hrun as (s3 & rpn_out & Hr & _).
  rewrite Hnone in Hr. discriminate.
Qed.

Lemma unsup_train_needs_rpn (t st a c : Batch) (s s' : St) (l : Losses) :
  with_rpn (student self) = false ->
  foward_unsup_train self t st a c s <> (s', Done l).
Proof.
  intros Hno Hrun. unfold foward_unsup_train in Hrun.
  apply bind_Done in Hrun as (s1 & tidx & _ & Hrun).
  apply bind_Done in Hrun as (s2 & ti & _ & Hrun).
  apply bind_Done in Hrun as (s3 & ctr & _ & Hrun).
  apply bind_Done in Hrun as (s4 & pl & Hpl & _).
  apply pseudo_label_loss_needs_rpn_out in Hpl; [done|].
  unfold extract_student_info. simpl. by rewrite Hno.
Qed.

Lemma ctr_loss_needs_rpn (anchor ctr : Batch) (s s' : St) (l : Losses) :
  with_rpn (student self) = false ->
  ctr_loss self anchor ctr s = (s', Done l) ->
  exists a_b, box_lists s !! gt_bboxes anchor = Some a_b /\ gt_num a_b = 0.
Proof.
  intros Hno Hrun. unfold ctr_loss in Hrun.
  apply bind_Done in Hrun as (s1 & a_b & Ha & Hrun).
  apply read_box_list_Done in Ha as [-> Ha].
  apply bind_Done in Hrun as (s1 & c_b & _ & Hrun).
  apply bind_Done in Hrun as (s2 & a_l & _ & Hrun).
  apply bind_Done in Hrun as (s3 & c_l & _ & Hrun).
  apply bind_Done in Hrun as (s4 & [] & _ & Hrun).
  exists a_b. split; [done|].
  destruct (Z.eqb_spec (gt_num a_b) 0) as [Hz|Hnz]; [done|].
  apply bind_Done in Hrun as (s5 & [va vc] & _ & Hrun).
  apply bind_Done in Hrun as (s6 & [] & _ & Hrun).
  apply bind_Done in Hrun as (s7 & infos & Hinfo & _).
  unfold extract_ctr_info in Hinfo. rewrite Hno in Hinfo. discriminate.
Qed.

(** X8: Training needs a student with an RPN.  Without one, [forward_train]
    returns only for a batch that has no [unsup_student] group (the
    pseudo-label loss reads [rpn_out], which [extract_student_info] did
    not set) and whose supervised contrastive views hold no box at all
    ([extract_ctr_info] reads the local [rpn_out] that was never bound). *)
Theorem student_rpn_is_required (data_groups : gmap string Batch) (s s' : St)
    (losses : Losses) :
  with_rpn (student self) = false ->
  forward_train self data_groups s = (s', Done losses) ->
  data_groups !! "unsup_student"%string = None
  /\ forall anchor,
       is_Some (data_groups !! "sup"%string) ->
       data_groups !! "ctr_anchor_sup"%string = Some anchor ->
       exists a_b, box_lists s !! gt_bboxes anchor = Some a_b /\ gt_num a_b = 0.
Proof.
  intros Hno Hrun. apply forward_train_inv in Hrun as (s1 & loss & Hsup & Hunsup).
  split.
  - destruct (data_groups !! "unsup_student"%string); [|done].
    destruct Hunsup as (t & a & c & u & _ & _ & _ & Hu & _).
    by apply unsup_train_needs_rpn in Hu.
  - intros anchor Hs Ha. destruct (data_groups !! "sup"%string); [|by destruct Hs].
    destruct Hsup as (? & ? & a & c & l & ? & ? & _ & _ & _ & Ha' & _ & Hctr & _).
    rewrite Ha in Ha'. injection Ha' as <-.
    by apply ctr_loss_needs_rpn in Hctr.
Qed.

(** ** Sampling results *)

Lemma omap_NoReturn {X Y : Type} (f : X -> outcome Y) (l : list X) :
  omap f l = NoReturn -> exists x, x ∈ l /\ f x = NoReturn.
Proof.
  induction l as [|x l IH]; simpl; [discriminate|]. intros H.
  destruct (f x) as [y| |] eqn:Hx; simpl in H; try discriminate.
  - destruct (omap f l) as [ys| |]; simpl in H; try discriminate.
    destruct IH as (x' & Hin & Hx'); [done|].
    exists x'. split; [by apply list_elem_of_further | done].
  - exists x. split; [apply list_elem_of_here | done].
Qed.

Lemma getitem_cases {X : Type} (l : list X) (i : nat) :
  (exists x, l !! i = Some x /\ getitem l i = Done x)
  \/ ((length l <= i)%nat /\ getitem l i = Raised IndexError).
Proof.
  unfold getitem. destruct (l !! i) as [x|] eqn:E; [left; eauto|].
  right. split; [by apply lookup_ge_None | done].
Qed.

(** X9: [get_sampling_result] returns one sampling result per entry of
    [img_metas], the one the assigner and sampler of the chosen role give
    for the proposals, boxes and labels at the same position; it raises an
    IndexError exactly when one of the three lists is shorter than
    [img_metas], and longer lists are silently cut. *)
Theorem sampling_result_per_image (metas : list Meta) (ps bs : list T2)
    (ls : list (list Z)) (mode : bool) :
  match get_sampling_result self metas ps bs ls mode with
  | Done srs =>
      (length metas <= length ps)%nat /\ (length metas <= length bs)%nat
      /\ (length metas <= length ls)%nat
      /\ length srs = length metas
      /\ forall i p b l,
           (i < length metas)%nat ->
           ps !! i = Some p -> bs !! i = Some b -> ls !! i = Some l ->
           srs !! i = Some (assign_and_sample (detector self mode) p b l)
  | Raised e =>
      e = IndexError
      /\ ((length ps < length metas)%nat \/ (length bs < length metas)%nat
          \/ (length ls < length metas)%nat)
  | NoReturn => False
  end.
Proof.
  unfold get_sampling_result.
  set (f := fun i : nat => obind (getitem ps i) _).
  assert (Hf : forall i,
            (exists p b l, ps !! i = Some p /\ bs !! i = Some b /\ ls !! i = Some l
                           /\ f i = Done (assign_and_sample (detector self mode) p b l))
            \/ (f i = Raised IndexError
                /\ ((length ps <= i)%nat \/ (length bs <= i)%nat \/ (length ls <= i)%nat))).
  { intros i. unfold f.
    destruct (getitem_cases ps i) as [(p & Hp & ->) | [? ->]]; [|right; auto].
    destruct (getitem_cases bs i) as [(b & Hb & ->) | [? ->]]; [|right; auto].
    destruct (getitem_cases ls i) as [(l & Hl & ->) | [? ->]]; [|right; auto].
    left. exists p, b, l. done. }
  destruct (omap f (seq 0 (length metas))) as [srs|e|] eqn:Ho.
  - apply omap_inv in Ho.
    assert (Hlen : length srs = length metas).
    { apply Forall2_length in Ho. by rewrite length_seq in Ho. }
    assert (Hall : forall i, (i < length metas)%nat ->
              exists p b l, ps !! i = Some p /\ bs !! i = Some b /\ ls !! i = Some l
                /\ srs !! i = Some (assign_and_sample (detector self mode) p b l)).
    { intros i Hi.
      assert (Hseq : seq 0 (length metas) !! i = Some i) by (by apply lookup_seq).
      destruct (Forall2_lookup_l _ _ _ _ _ Ho Hseq) as (sr & Hsr & Hfi).
      destruct (Hf i) as [(p & b & l & Hp & Hb & Hl & Hd) | [Hr _]]; [|congruence].
      exists p, b, l. rewrite Hd in Hfi. injection Hfi as <-. done. }
    assert (Hle : forall {X : Type} (xs : list X),
              (forall i, (i < length metas)%nat -> is_Some (xs !! i)) ->
              (length metas <= length xs)%nat).
    { intros X xs Hxs. destruct (length metas) as [|n] eqn:En; [lia|].
      destruct (Hxs n) as [x Hx]; [lia|]. apply lookup_lt_Some in Hx. lia. }
    split; [|split; [|split; [|split; [done|]]]].
    + apply Hle. intros i Hi. destruct (Hall i Hi) as (p & _ & _ & -> & _). eauto.
    + apply Hle. intros i Hi. destruct (Hall i Hi) as (_ & b & _ & _ & -> & _). eauto.
    + apply Hle. intros i Hi. destruct (Hall i Hi) as (_ & _ & l & _ & _ & -> & _). eauto.
    + intros i p b l Hi Hp Hb Hl.
      destruct (Hall i Hi) as (p' & b' & l' & Hp' & Hb' & Hl' & ->). congruence.
  - apply omap_Raised in Ho as (i & Hi & Hr). apply elem_of_seq in Hi.
    destruct (Hf i) as [(p & b & l & _ & _ & _ & Hd) | [Hr' Hshort]]; [congruence|].
    split; [congruence | lia].
  - apply omap_NoReturn in Ho as (i & _ & Hr).
    destruct (Hf i) as [(p & b & l & _ & _ & _ & Hd) | [Hr' _]]; congruence.
Qed.

(** ** The pseudo-label loss pairs by filename *)

Lemma index_lookup (l : list string) (x : string) (i : nat) :
  index l x = Done i -> l !! i = Some x.
Proof.
  revert i. induction l as [|y l IH]; intros i; simpl; [discriminate|].
  destruct (String.eqb_spec y x) as [->|_].
  - by intros [= <-].
  - destruct (index l x) as [j| |]; simpl; try discriminate.
    intros [= <-]. by apply IH.
Qed.

Lemma compute_pseudo_label_loss_paired (si : StudentInfo) (ti : TeacherInfo)
    (s s' : St) (o : outcome Losses) :
  compute_pseudo_label_loss self si ti s = (s', o) ->
  paired s' = paired s ++ [combine (map filename (s_img_metas si))
                             (map filename (t_img_metas ti))].
Proof.
  unfold compute_pseudo_label_loss, bind at 1, modify.
  set (s1 := set_paired _ s).
  pose proof (eq_refl : paired s1 = paired s ++ _) as H1. clearbody s1.
  intros Hrun.
  match type of Hrun with
  | ?m s1 = _ =>
      assert (Hk : keeps (fun sx => paired sx = paired s1) m)
  end.
  { unfold rpn_loss, unsup_rcnn_loss. frame. }
  destruct (Hk s1 s' o eq_refl Hrun) as [-> _]. exact H1.
Qed.

Lemma extract_aligned_metas (d : Batch) (tidx : list nat) (info : TeacherInfo) :
  extract_aligned self d tidx = Done info ->
  select (img_metas d) tidx = Done (t_img_metas info).
Proof.
  unfold extract_aligned. intros H.
  destruct (select (img d) tidx) as [imgs| |]; simpl in H; try discriminate.
  destruct (select (img_metas d) tidx) as [metas| |]; simpl in H; try discriminate.
  f_equal.
  destruct (match proposals d with Some _ => _ | None => _ end) as [props| |];
    simpl in H; try discriminate.
  unfold extract_teacher_info in H.
  destruct (simple_test_bboxes _ _ _ _) as [pl pll].
  destruct (match pseudo_label_initial_score_thr self with CfgFloat _ => _ | _ => _ end)
    as [thr| |]; simpl in H; try discriminate.
  destruct (omap _ _) as [[|? ?]| |]; simpl in H; try discriminate.
  by injection H as <-.
Qed.

(** X10: When [foward_unsup_train] returns, the pseudo-label loss it computed
    last has paired every student image with the teacher entry of the same
    filename, whatever the order of the teacher batch was. *)
Theorem unsup_pseudo_labels_pair_by_filename (t st a c : Batch) (s s' : St)
    (l : Losses) :
  foward_unsup_train self t st a c s = (s', Done l) ->
  exists log tidx info,
    align (img_metas t) (img_metas st) = Done tidx
    /\ extract_aligned self t tidx = Done info
    /\ map filename (t_img_metas info) = map filename (img_metas st)
    /\ paired s' = log ++ [combine (map filename (img_metas st))
                             (map filename (img_metas st))].
Proof.
  unfold foward_unsup_train. intros Hrun.
  apply bind_Done in Hrun as (s1 & tidx & Ht & Hrun).
  apply lift_Done in Ht as [-> Ht].
  apply bind_Done in Hrun as (s1 & info & Hi & Hrun).
  apply lift_Done in Hi as [-> Hi].
  apply bind_Done in Hrun as (s2 & ctr & _ & Hrun).
  apply bind_Done in Hrun as (s3 & pl & Hpl & [= <- _]).
  apply compute_pseudo_label_loss_paired in Hpl. simpl in Hpl.
  assert (Hnames : map filename (t_img_metas info) = map filename (img_metas st)).
  { apply extract_aligned_metas in Hi. unfold align, select in *.
    apply omap_inv in Ht. apply omap_inv in Hi.
    apply list_eq. intros k. rewrite !list_lookup_fmap.
    destruct (img_metas st !! k) as [m|] eqn:Hm; simpl.
    - assert (Hk : map filename (img_metas st) !! k = Some (filename m))
        by (by rewrite list_lookup_fmap, Hm).
      destruct (Forall2_lookup_l _ _ _ _ _ Ht Hk) as (i & Hik & Hfound).
      destruct (Forall2_lookup_l _ _ _ _ _ Hi Hik) as (m' & -> & Hsel).
      simpl. f_equal. apply index_lookup in Hfound.
      rewrite list_lookup_fmap in Hfound.
      destruct (img_metas t !! i) as [m''|]; [|discriminate].
      injection Hsel as <-. by injection Hfound as ->.
    - apply Forall2_length in Ht, Hi. rewrite length_map in Ht.
      apply lookup_ge_None in Hm.
      rewrite (proj2 (lookup_ge_None (t_img_metas info) k)); [done | lia]. }
  exists (paired s2), tidx, info. rewrite Hpl, Hnames. done.
Qed.

(** ** The counterpart proposals of [ctr_loss_1] *)

(** The rows a boolean mask [pos_gt_map_ctr == gt_map] selects. *)
Lemma mask_rows (gt_map : Z) (rs : list (list A)) :
  forall gts : list Z,
  length rs = length gts ->
  forall r,
    r ∈ map fst (filter (fun p => snd p = true)
                   (combine rs (map (fun g => g =? gt_map) gts)))
    <-> exists j, rs !! j = Some r /\ gts !! j = Some gt_map.
Proof.
  induction rs as [|x rs IH]; intros [|g gts] Hlen r; simpl in Hlen; try lia.
  - simpl. split; [by intros ?%not_elem_of_nil | by intros (j & ? & _)].
  - simpl combine. rewrite filter_cons. simpl snd.
    destruct (Z.eqb_spec g gt_map) as [->|Hne].
    + rewrite decide_True by done. simpl map. rewrite elem_of_cons, IH by lia. split.
      * intros [->|(j & Hj & Hg)]; [by exists 0%nat | by exists (S j)].
      * intros ([|j] & Hj & Hg); simpl in *; [left; congruence | right; eauto].
    + rewrite decide_False by done. rewrite IH by lia. split.
      * intros (j & Hj & Hg). by exists (S j).
      * intros ([|j] & Hj & Hg); simpl in *; [congruence | eauto].
Qed.

Lemma ctr_loss_1_select_step (pos_gt_map_ctr : list Z) (ctr_proposal : T2)
    (g : Z) (rest : list Z) (acc : T2) (s : St) :
  length (rows ctr_proposal) = length pos_gt_map_ctr ->
  size1 acc = size1 ctr_proposal ->
  (g ∈ pos_gt_map_ctr ->
   exists r j,
     pos_gt_map_ctr !! j = Some g /\ rows ctr_proposal !! j = Some r
     /\ ctr_loss_1_select self (g :: rest) pos_gt_map_ctr ctr_proposal acc s
        = ctr_loss_1_select self rest pos_gt_map_ctr ctr_proposal
            (mkT2 (rows acc ++ [r]) (size1 acc)) (set_rng_pos (rng_pos s + 1) s))
  /\ (g ∉ pos_gt_map_ctr ->
      ctr_loss_1_select self (g :: rest) pos_gt_map_ctr ctr_proposal acc s
      = (s, Raised RuntimeError)).
Proof.
  intros Hlen Hw. simpl ctr_loss_1_select. unfold bind, lift, mask_select.
  rewrite length_map, (proj2 (Nat.eqb_eq _ _) Hlen).
  set (pos_rows := map fst (filter _ _)).
  pose proof (mask_rows g (rows ctr_proposal) pos_gt_map_ctr Hlen) as Hmask.
  fold pos_rows in Hmask. split.
  - intros Hg. apply list_elem_of_lookup in Hg as [j Hj].
    destruct (lookup_lt_is_Some_2 (rows ctr_proposal) j) as [r0 Hr0].
    { rewrite Hlen. by apply lookup_lt_Some in Hj. }
    assert (Hne : 0 < size0 (mkT2 pos_rows (size1 ctr_proposal))).
    { unfold size0. simpl. assert (Hin : r0 ∈ pos_rows) by (apply Hmask; eauto).
      destruct pos_rows; [by apply not_elem_of_nil in Hin | simpl; lia]. }
    rewrite randint_draws by lia.
    pose proof (draws_in_range (rng_pos s) (size0 (mkT2 pos_rows (size1 ctr_proposal))) 1 Hne)
      as Hin.
    destruct (draws (rng_pos s) (size0 (mkT2 pos_rows (size1 ctr_proposal))) 1)
      as [|k [|? ?]] eqn:Hdraw;
      try (apply (f_equal length) in Hdraw; rewrite draws_length in Hdraw;
           simpl in Hdraw; lia).
    apply Forall_inv in Hin.
    destruct (lookup_lt_is_Some_2 pos_rows k) as [r Hr].
    { unfold size0 in Hin. simpl in Hin. lia. }
    assert (Hrin : r ∈ pos_rows) by (by eapply list_elem_of_lookup_2).
    apply Hmask in Hrin as (j' & Hr' & Hj').
    exists r, j'. split; [done|]. split; [done|].
    unfold index_rows, select. simpl. rewrite Hr. simpl.
    unfold cat2. simpl. rewrite Hw, Z.eqb_refl. reflexivity.
  - intros Hg.
    assert (Hempty : pos_rows = []).
    { destruct pos_rows as [|r ?] eqn:E; [done|]. destruct Hg.
      destruct (proj1 (Hmask r)) as (j & _ & Hj); [apply list_elem_of_here|].
      by eapply list_elem_of_lookup_2. }
    rewrite Hempty. reflexivity.
Qed.

Lemma ctr_loss_1_select_spec (pos_gt_map_ctr : list Z) (ctr_proposal : T2)
    (gt_maps : list Z) :
  length (rows ctr_proposal) = length pos_gt_map_ctr ->
  forall (acc : T2) (s : St),
  size1 acc = size1 ctr_proposal ->
  (Forall (fun g => g ∈ pos_gt_map_ctr) gt_maps ->
   exists s' picked,
     ctr_loss_1_select self gt_maps pos_gt_map_ctr ctr_proposal acc s
     = (s', Done (mkT2 (rows acc ++ picked) (size1 acc)))
     /\ rng_pos s' = (rng_pos s + length gt_maps)%nat
     /\ Forall2 (fun g r => exists j, pos_gt_map_ctr !! j = Some g
                                      /\ rows ctr_proposal !! j = Some r)
                gt_maps picked)
  /\ (~ Forall (fun g => g ∈ pos_gt_map_ctr) gt_maps ->
      exists s', ctr_loss_1_select self gt_maps pos_gt_map_ctr ctr_proposal acc s
                 = (s', Raised RuntimeError)).
Proof.
  intros Hlen. induction gt_maps as [|g rest IH]; intros acc s Hw.
  - split.
    + intros _. exists s, []. simpl. rewrite app_nil_r, Nat.add_0_r.
      split; [by destruct acc|]. split; [done | constructor].
    + intros H. destruct H. constructor.
  - destruct (ctr_loss_1_select_step pos_gt_map_ctr ctr_proposal g rest acc s Hlen Hw)
      as [Hin Hout].
    destruct (decide (g ∈ pos_gt_map_ctr)) as [Hg|Hg].
    + destruct (Hin Hg) as (r & j & Hj & Hr & ->).
      destruct (IH (mkT2 (rows acc ++ [r]) (size1 acc))
                  (set_rng_pos (rng_pos s + 1) s) Hw) as [IHok IHbad].
      split.
      * intros Hall. apply Forall_cons in Hall as [_ Hall].
        destruct (IHok Hall) as (s' & picked & Hrun & Hrng & Hpicked).
        exists s', (r :: picked). rewrite Hrun. simpl. rewrite <- app_assoc.
        split; [done|]. split; [|constructor; eauto].
        rewrite Hrng. simpl. lia.
      * intros Hnot. apply IHbad. intros Hall. apply Hnot. by constructor.
    + rewrite (Hout Hg). split.
      * intros Hall. apply Forall_cons in Hall as [? _]. done.
      * intros _. by exists s.
Qed.

(** X11: For every anchor positive, the counterpart proposal [ctr_loss_1]
    contrasts it with is a positive of the counterpart view that is
    assigned to the same ground-truth index, picked by one random draw.
    The loop raises a RuntimeError exactly when some anchor positive has a
    ground-truth index that no counterpart positive is assigned to. *)
Theorem ctr_loss_1_select_same_gt (gt_maps pos_gt_map_ctr : list Z)
    (ctr_proposal : T2) (s : St) :
  length (rows ctr_proposal) = length pos_gt_map_ctr ->
  size1 ctr_proposal = 5 ->
  let run := ctr_loss_1_select self gt_maps pos_gt_map_ctr ctr_proposal (mkT2 [] 5) s in
  (Forall (fun g => g ∈ pos_gt_map_ctr) gt_maps ->
   exists picked,
     run.2 = Done (mkT2 picked 5)
     /\ rng_pos run.1 = (rng_pos s + length gt_maps)%nat
     /\ Forall2 (fun g r => exists j, pos_gt_map_ctr !! j = Some g
                                      /\ rows ctr_proposal !! j = Some r)
                gt_maps picked)
  /\ (~ Forall (fun g => g ∈ pos_gt_map_ctr) gt_maps -> run.2 = Raised RuntimeError).
Proof.
  intros Hlen Hw run.
  destruct (ctr_loss_1_select_spec pos_gt_map_ctr ctr_proposal gt_maps Hlen
              (mkT2 [] 5) s) as [Hok Hbad]; [by rewrite Hw|].
  split.
  - intros Hall. destruct (Hok Hall) as (s' & picked & Hrun & Hrng & Hp).
    exists picked. unfold run. rewrite Hrun. done.
  - intros Hnot. destruct (Hbad Hnot) as [s' Hrun]. unfold run. by rewrite Hrun.
Qed.

(** ** The exemplars of [ctr_loss_2] *)

(** X12: When the exemplar loop returns it has asked the labeled-item index
    exactly once per label, and every answer was a list of three items
    whose last one holds a box of that label.  An answer whose last item
    lacks the label is never replaced: the retry asks the index once more
    and the loop then raises a TypeError. *)
Theorem exemplars_are_fetched_once (all_labels : list Z) :
  forall (teacher_vec : T2) (s : St),
  (forall s' out,
     ctr_loss_2_exemplars self all_labels teacher_vec s = (s', Done out) ->
     dataset_pos s' = (dataset_pos s + length all_labels)%nat
     /\ forall i label, all_labels !! i = Some label ->
          exists x y item,
            get_same_label_item self label (dataset_pos s + i) = [x; y; item]
            /\ label ∈ item_gt_labels item)
  /\ (forall label rest x y item,
        all_labels = label :: rest ->
        get_same_label_item self label (dataset_pos s) = [x; y; item] ->
        label ∉ item_gt_labels item ->
        ctr_loss_2_exemplars self all_labels teacher_vec s
        = (set_dataset_pos (S (S (dataset_pos s))) s, Raised TypeError)).
Proof.
  induction all_labels as [|label rest IH]; intros acc s; (split; [|]).
  - intros s' out [= <- _]. split; [simpl; lia|]. intros i l Hi. by rewrite lookup_nil in Hi.
  - intros ? ? ? ? ? [=].
  - intros s' out Hrun. simpl in Hrun.
    apply bind_Done in Hrun as (s1 & n & [= <- <-] & Hrun).
    apply bind_Done in Hrun as (s1 & [] & [= <-] & Hrun).
    apply bind_Done in Hrun as (s1 & [] & Hlen & Hrun).
    apply lift_Done in Hlen as [-> Hlen].
    apply bind_Done in Hrun as (s1 & item & Hitem & Hrun).
    apply lift_Done in Hitem as [-> Hitem].
    apply bind_Done in Hrun as (s1 & [] & Hhas & Hrun).
    destruct (existsb _ (item_gt_labels item)) eqn:Hex; cycle 1.
    { apply bind_Done in Hhas as (? & ? & _ & [=]). }
    injection Hhas as <-.
    apply bind_Done in Hrun as (s1 & same & Hsame & Hrun).
    apply lift_Done in Hsame as [-> _].
    apply bind_Done in Hrun as (s1 & rois & Hrois & Hrun).
    apply lift_Done in Hrois as [-> _].
    apply bind_Done in Hrun as (s1 & rand_index & Hrand & Hrun).
    assert (Hpos : dataset_pos s1 = S (dataset_pos s)).
    { unfold randint in Hrand. destruct (_ || _); [discriminate|].
      by injection Hrand as <- _. }
    apply bind_Done in Hrun as (s2 & picked & Hp & Hrun).
    apply lift_Done in Hp as [-> _].
    apply bind_Done in Hrun as (s2 & flat & Hf & Hrun).
    apply lift_Done in Hf as [-> _].
    apply bind_Done in Hrun as (s2 & acc' & Hc & Hrun).
    apply lift_Done in Hc as [-> _].
    destruct (IH acc' s1) as [IHok _]. destruct (IHok s' out Hrun) as [Hd Hall].
    split; [rewrite Hd, Hpos; simpl; lia|].
    intros [|i] l Hi; simpl in Hi.
    + injection Hi as <-. rewrite Nat.add_0_r.
      unfold assert, len in Hlen. unfold getitem in Hitem.
      destruct (Z.eqb_spec (Z.of_nat (length (get_same_label_item self label
                                                (dataset_pos s)))) 3) as [H3|];
        [|discriminate].
      destruct (get_same_label_item self label (dataset_pos s)) as [|x [|y [|z [|? ?]]]];
        simpl in H3, Hitem; try lia.
      injection Hitem as <-. exists x, y, z. split; [done|].
      apply existsb_exists in Hex as (g & Hg & ->%Z.eqb_eq).
      by apply list_elem_of_In.
    + destruct (Hall i l Hi) as (x & y & it & Hget & Hin).
      exists x, y, it. split; [|done]. rewrite <- Hget, Hpos. f_equal. lia.
  - intros l rest' x y item [= <- <-] Hget Hnot. simpl.
    unfold bind, gets, modify, lift, raise. simpl. rewrite Hget. simpl.
    destruct (existsb _ (item_gt_labels item)) eqn:Hex; [|done].
    apply existsb_exists in Hex as (g & Hg & ->%Z.eqb_eq).
    destruct Hnot. by apply list_elem_of_In.
Qed.

(** ** The list objects of the batch *)

(** Every list object of [s0] is still there in [s], holding what it
    held. *)
Definition old_lists (s0 s : St) : Prop :=
  (forall o l, box_lists s0 !! o = Some l -> box_lists s !! o = Some l)
  /\ (forall o l, label_lists s0 !! o = Some l -> label_lists s !! o = Some l).

(** An invariant that does not read the queue, the cursor or the logs. *)
Definition queue_blind (I : St -> Prop) : Prop :=
  forall s, I s ->
    (forall q, I (set_queue_vector q s)) /\ (forall p, I (set_queue_ptr p s))
    /\ (forall c, I (set_calls c s)) /\ (forall r, I (set_rounds r s))
    /\ (forall p, I (set_paired p s)).

Lemma old_lists_refl (s : St) : old_lists s s.
Proof. by split. Qed.

Lemma old_lists_streams (s0 : St) : ignores_streams (old_lists s0).
Proof. intros s n H. split; exact H. Qed.

Lemma old_lists_queue_blind (s0 : St) : queue_blind (old_lists s0).
Proof. intros s H. repeat split; intros; apply H; done. Qed.

Lemma keeps_setitem_queue (I : St -> Prop) (a b : option Z) (v : T2) :
  queue_blind I -> keeps I (setitem_queue a b v).
Proof.
  intros HI s s' o Hs Hrun. unfold setitem_queue in Hrun.
  destruct (setitem_rows _ _ _ _); injection Hrun as <- <-; split; try done.
  by apply HI.
Qed.

Lemma keeps_enqueue (I : St -> Prop) (features : T2) :
  queue_blind I -> keeps I (_dequeue_and_enqueue self features).
Proof.
  intros HI. unfold _dequeue_and_enqueue.
  apply keeps_bind; [apply keeps_modify; intros s Hs; by apply HI | intros _].
  apply keeps_bind.
  { intros s s' o Hs [= <- <-]. split; [by apply HI | done]. }
  intros g. apply keeps_bind; [apply keeps_lift | intros merged].
  destruct (size0 merged =? 0); [apply keeps_ret|].
  apply keeps_bind; [apply keeps_lift | intros _].
  apply keeps_bind; [apply keeps_gets | intros ptr].
  apply keeps_bind.
  { destruct (memory_k self <=? _).
    - apply keeps_bind; [|intros _]; by apply keeps_setitem_queue.
    - by apply keeps_setitem_queue. }
  intros _. apply keeps_bind; [apply keeps_lift | intros p].
  apply keeps_modify. intros s Hs. by apply HI.
Qed.

Lemma keeps_ctr_loss_1 (I : St -> Prop) (ai ci : CtrInfo) :
  ignores_streams I -> queue_blind I -> keeps I (ctr_loss_1 self ai ci).
Proof.
  intros HS HQ. unfold ctr_loss_1.
  apply keeps_bind; [by apply keeps_ctr_loss_1_proposals | intros [sp tp]].
  pose proof (keeps_enqueue I) as Henq. frame.
Qed.

Lemma keeps_bind_triple {X Y : Type} (I : St -> Prop) (m : Cmd X) (k : X -> Cmd Y)
    (Q : Y -> Prop) :
  keeps I m -> (forall x, triple I (k x) Q) -> triple I (bind m k) Q.
Proof. intros Hm Hk. eapply triple_bind; [exact Hm|]. intros x _. apply Hk. Qed.

Lemma new_box_list_fresh (s0 : St) (l : list T2) :
  triple (old_lists s0) (new_box_list l) (fun i => box_lists s0 !! i = None).
Proof.
  intros s s' o [Hb Hl] [= <- <-].
  assert (Hfresh : box_lists s0 !! fresh (dom (box_lists s)) = None).
  { destruct (box_lists s0 !! fresh (dom (box_lists s))) as [l'|] eqn:E; [|done].
    apply Hb, elem_of_dom_2 in E. by apply is_fresh in E. }
  split; [|by intros ? [= <-]]. split; [|done].
  intros o l' Ho. simpl. rewrite lookup_insert_ne; [by apply Hb|].
  intros <-. congruence.
Qed.

Lemma new_label_list_fresh (s0 : St) (l : list (list Z)) :
  triple (old_lists s0) (new_label_list (A:=A) l) (fun i => label_lists s0 !! i = None).
Proof.
  intros s s' o [Hb Hl] [= <- <-].
  assert (Hfresh : label_lists s0 !! fresh (dom (label_lists s)) = None).
  { destruct (label_lists s0 !! fresh (dom (label_lists s))) as [l'|] eqn:E; [|done].
    apply Hl, elem_of_dom_2 in E. by apply is_fresh in E. }
  split; [|by intros ? [= <-]]. split; [done|].
  intros o l' Ho. simpl. rewrite lookup_insert_ne; [by apply Hl|].
  intros <-. congruence.
Qed.

(** The lists of the valid images are new objects. *)
Lemma valid_data_fresh (s0 : St) (a c : Batch) (a_b c_b : list T2)
    (a_l c_l : list (list Z)) :
  triple (old_lists s0) (ctr_loss_valid_data a c a_b c_b a_l c_l)
    (fun v => box_lists s0 !! gt_bboxes v.1 = None
              /\ label_lists s0 !! gt_labels v.1 = None).
Proof.
  unfold ctr_loss_valid_data.
  apply keeps_bind_triple; [apply keeps_lift | intros kept].
  apply keeps_bind_triple; [apply keeps_lift | intros a_img].
  apply keeps_bind_triple; [apply keeps_lift | intros c_img].
  eapply triple_bind; [apply new_box_list_fresh | intros va_b Hb].
  eapply triple_bind; [apply new_label_list_fresh | intros va_l Hl].
  apply keeps_bind_triple; [eapply triple_weaken; [apply new_box_list_fresh | done]
                           | intros vc_b].
  apply keeps_bind_triple; [eapply triple_weaken; [apply new_label_list_fresh | done]
                           | intros vc_l].
  apply keeps_bind_triple; [apply keeps_lift | intros _].
  by apply triple_ret.
Qed.

Lemma keeps_setitem_box_list_fresh (s0 : St) (ob i : nat) (v : T2) :
  box_lists s0 !! ob = None -> keeps (old_lists s0) (setitem_box_list ob i v).
Proof.
  intros Hob. unfold setitem_box_list.
  apply keeps_bind; [apply keeps_read_box_list | intros l].
  destruct (i <? length l)%nat; [|apply keeps_raise].
  apply keeps_modify. intros s [Hb Hl]. split; [|done].
  intros o l' Ho. simpl. rewrite lookup_insert_ne; [by apply Hb|].
  intros <-. congruence.
Qed.

Lemma keeps_setitem_label_list_fresh (s0 : St) (ol i : nat) (v : list Z) :
  label_lists s0 !! ol = None ->
  keeps (old_lists s0) (setitem_label_list (A:=A) ol i v).
Proof.
  intros Hol. unfold setitem_label_list.
  apply keeps_bind; [apply keeps_read_label_list | intros l].
  destruct (i <? length l)%nat; [|apply keeps_raise].
  apply keeps_modify. intros s [Hb Hl]. split; [done|].
  intros o l' Ho. simpl. rewrite lookup_insert_ne; [by apply Hl|].
  intros <-. congruence.
Qed.

Lemma keeps_ctr_loss_2_fresh (s0 : St) (info : CtrInfo) (ob ol : nat) :
  box_lists s0 !! ob = None -> label_lists s0 !! ol = None ->
  keeps (old_lists s0) (ctr_loss_2 self info ob ol).
Proof.
  intros Hob Hol. unfold ctr_loss_2.
  pose proof (old_lists_streams s0) as HS.
  pose proof (keeps_setitem_box_list_fresh s0 ob) as Hsetb.
  pose proof (keeps_setitem_label_list_fresh s0 ol) as Hsetl.
  frame. apply keeps_for_each. intros i. unfold ctr_loss_2_subsample. frame.
Qed.

Lemma keeps_ctr_loss (s0 : St) (anchor ctr : Batch) :
  keeps (old_lists s0) (ctr_loss self anchor ctr).
Proof.
  unfold ctr_loss.
  apply keeps_bind; [apply keeps_read_box_list | intros a_b].
  apply keeps_bind; [apply keeps_read_box_list | intros c_b].
  apply keeps_bind; [apply keeps_read_label_list | intros a_l].
  apply keeps_bind; [apply keeps_read_label_list | intros c_l].
  apply keeps_bind; [apply keeps_lift | intros _].
  destruct (gt_num a_b =? 0).
  { apply keeps_bind; [apply keeps_enqueue, old_lists_queue_blind | intros _].
    apply keeps_ret. }
  eapply triple_bind; [apply valid_data_fresh | intros [va vc] [Hb Hl]].
  simpl in Hb, Hl.
  apply keeps_bind; [apply keeps_modify; intros s Hs; by apply old_lists_queue_blind
                    | intros _].
  apply keeps_bind; [apply keeps_extract_ctr_info | intros infos].
  apply keeps_bind; [apply keeps_ctr_loss_1;
                       [apply old_lists_streams | apply old_lists_queue_blind]
                    | intros c1].
  apply keeps_bind; [by apply keeps_ctr_loss_2_fresh | intros c2].
  apply keeps_ret.
Qed.

(** X13: [ctr_loss] leaves the list objects of the batch alone.  Whatever its
    outcome, every box list and label list that existed before the call
    holds the same tensors afterwards: the subsampling of [ctr_loss_2]
    changes the lists of valid images that [ctr_loss] built, not
    [gt_bboxes] and [gt_labels] of the anchor view it was given. *)
Theorem ctr_loss_keeps_batch_lists (anchor ctr : Batch) (s s' : St)
    (o : outcome Losses) :
  ctr_loss self anchor ctr s = (s', o) ->
  (forall ob l, box_lists s !! ob = Some l -> box_lists s' !! ob = Some l)
  /\ (forall ol l, label_lists s !! ol = Some l -> label_lists s' !! ol = Some l).
Proof.
  intros Hrun.
  by destruct (keeps_ctr_loss s anchor ctr s s' o (old_lists_refl s) Hrun) as [? _].
Qed.

(** ** The queue holds the latest rows *)

(** The row of the queue at position [i] after a batch [m] was written at
    the cursor [p]: a row of the batch when [i] is less than [length m]
    positions after the cursor, counted around the end of the queue, and
    the old row otherwise. *)
Lemma written_lookup (q m : list (list A)) (p k i : nat) :
  length q = k -> (p < k)%nat -> (length m <= k)%nat -> (i < k)%nat ->
  written q m p k !! i
  = if decide ((Z.of_nat i - Z.of_nat p) mod Z.of_nat k < Z.of_nat (length m))
    then m !! Z.to_nat ((Z.of_nat i - Z.of_nat p) mod Z.of_nat k)
    else q !! i.
Proof.
  intros Hq Hp Hm Hi. destruct (le_lt_dec p i) as [Hge|Hlt].
  - rewrite Z.mod_small by lia. destruct (decide _) as [Hin|Hout].
    + replace (Z.to_nat (Z.of_nat i - Z.of_nat p)) with (i - p)%nat by lia.
      rewrite <- (written_tail q m p k (i - p)) by lia. f_equal. lia.
    + apply written_frame; lia.
  - assert (Hd : (Z.of_nat i - Z.of_nat p) mod Z.of_nat k
                 = Z.of_nat i - Z.of_nat p + Z.of_nat k).
    { rewrite <- (Z_mod_plus_full _ 1), Z.mod_small; lia. }
    rewrite Hd. destruct (decide _) as [Hin|Hout].
    + replace (Z.to_nat (Z.of_nat i - Z.of_nat p + Z.of_nat k))
        with (i + k - p)%nat by lia.
      rewrite <- (written_head q m p k (i + k - p)) by lia. f_equal. lia.
    + apply written_frame; lia.
Qed.

(** The rows enqueued so far are [hist], oldest first, the first of them
    was written at [p0], and each of the last [memory_k] of them is in the
    queue, at its number counted from [p0] around the end of the queue. *)
Definition holds_latest (p0 : Z) (hist : list (list A)) (s : St) : Prop :=
  size0 (queue_vector s) = memory_k self
  /\ size1 (queue_vector s) = projector_dim self
  /\ 0 <= p0 < memory_k self
  /\ queue_ptr s = (p0 + len hist) mod memory_k self
  /\ forall n : nat,
       (n < length hist)%nat -> len hist <= Z.of_nat n + memory_k self ->
       rows (queue_vector s) !! Z.to_nat ((p0 + Z.of_nat n) mod memory_k self)
       = hist !! n.

Lemma enqueue_Done_width (features merged : T2) (s s' : St) :
  concat_all_gather self (world self (rounds s)) features = Done merged ->
  size0 merged <> 0 ->
  _dequeue_and_enqueue self features s = (s', Done tt) ->
  size1 merged = projector_dim self.
Proof.
  intros Hg Hne. unfold _dequeue_and_enqueue, bind, modify, next_round, lift. simpl.
  rewrite Hg. destruct (Z.eqb_spec (size0 merged) 0); [done|].
  unfold assert. destruct (Z.eqb_spec (size1 merged) (projector_dim self)); [done|].
  discriminate.
Qed.

Lemma enqueue_latest (features merged : T2) (s s' : St) (p0 : Z)
    (hist : list (list A)) :
  holds_latest p0 hist s ->
  concat_all_gather self (world self (rounds s)) features = Done merged ->
  size0 merged <= memory_k self ->
  _dequeue_and_enqueue self features s = (s', Done tt) ->
  holds_latest p0 (hist ++ rows merged) s' /\ rounds s' = S (rounds s).
Proof.
  intros (HK & HD & Hp0 & Hptr & Hrows) Hg HB Hrun.
  assert (HN : 0 <= len hist) by (unfold len; lia).
  destruct (Z.eq_dec (size0 merged) 0) as [Hz|Hnz].
  - rewrite (enqueue_nothing features merged s Hg Hz) in Hrun.
    injection Hrun as <-. split; [|done].
    assert (rows merged = []) as ->.
    { unfold size0 in Hz. destruct (rows merged); [done | simpl in Hz; lia]. }
    rewrite app_nil_r. unfold holds_latest. simpl. repeat split; try done; try lia.
  - assert (Hpos : 0 < size0 merged) by (unfold size0 in *; lia).
    pose proof (enqueue_Done_width features merged s s' Hg Hnz Hrun) as Hw.
    assert (Hin : 0 <= queue_ptr s < memory_k self).
    { rewrite Hptr. apply Z.mod_pos_bound. lia. }
    rewrite (enqueue_writes features merged s) in Hrun by (try done; lia).
    injection Hrun as <-. split; [|done].
    assert (Hlen : len (hist ++ rows merged) = len hist + size0 merged).
    { unfold len, size0. rewrite length_app. lia. }
    unfold holds_latest. simpl. rewrite Hlen.
    split; [|split; [done|split; [done|split]]].
    + unfold size0 in *. simpl. rewrite written_length; lia.
    + rewrite Hptr, Zplus_mod_idemp_l. f_equal. lia.
    + intros n Hn Hlast.
      assert (Hi : 0 <= (p0 + Z.of_nat n) mod memory_k self < memory_k self)
        by (apply Z.mod_pos_bound; lia).
      rewrite written_lookup by (unfold size0 in *; lia).
      rewrite !Z2Nat.id by lia.
      assert (Hoff : ((p0 + Z.of_nat n) mod memory_k self - queue_ptr s)
                       mod memory_k self
                     = (Z.of_nat n - len hist) mod memory_k self).
      { rewrite Hptr, Zminus_mod_idemp_l, Zminus_mod_idemp_r. f_equal. lia. }
      rewrite Hoff. rewrite length_app in Hn.
      destruct (le_lt_dec (length hist) n) as [Hnew|Hold].
      * rewrite Z.mod_small by (unfold len, size0 in *; lia).
        rewrite decide_True by (unfold len, size0 in *; lia).
        rewrite lookup_app_r by done. f_equal. unfold len. lia.
      * assert (Hd : (Z.of_nat n - len hist) mod memory_k self
                     = Z.of_nat n - len hist + memory_k self).
        { rewrite <- (Z_mod_plus_full _ 1), Z.mod_small; unfold len, size0 in *; lia. }
        rewrite Hd, decide_False by (unfold len, size0 in *; lia).
        rewrite lookup_app_l by done. apply Hrows; [done | lia].
Qed.

(** The tensors the gathers of a sequence of enqueues return. *)
Definition gathered (s : St) (batches merged : list T2) : Prop :=
  length merged = length batches
  /\ forall i f, batches !! i = Some f ->
       exists m, merged !! i = Some m
                 /\ concat_all_gather self (world self (rounds s + i)) f = Done m.

Lemma for_each_enqueue_gathered (batches : list T2) :
  forall s s' : St,
  for_each batches (_dequeue_and_enqueue self) s = (s', Done tt) ->
  exists merged, gathered s batches merged.
Proof.
  induction batches as [|f rest IH]; intros s s' Hrun; simpl in Hrun.
  - exists []. split; [done|]. intros i f Hi. by rewrite lookup_nil in Hi.
  - apply bind_Done in Hrun as (s1 & [] & Henq & Hrest).
    apply enqueue_effect in Henq as (_ & Hrounds & Hd).
    destruct (Hd eq_refl) as (m0 & Hg & _).
    destruct (IH s1 s' Hrest) as (merged & Hlen & Hall).
    exists (m0 :: merged). split; [simpl; by rewrite Hlen|].
    intros [|i] f' Hi; simpl in *.
    + injection Hi as <-. exists m0. by rewrite Nat.add_0_r.
    + destruct (Hall i f' Hi) as (m & Hm & Hgm). exists m. split; [done|].
      rewrite Hrounds in Hgm.
      by replace (rounds s + S i)%nat with (S (rounds s) + i)%nat by lia.
Qed.

Lemma for_each_enqueue_latest (batches : list T2) :
  forall (merged : list T2) (s s' : St) (p0 : Z) (hist : list (list A)),
  gathered s batches merged ->
  Forall (fun m => size0 m <= memory_k self) merged ->
  holds_latest p0 hist s ->
  for_each batches (_dequeue_and_enqueue self) s = (s', Done tt) ->
  holds_latest p0 (hist ++ concat (map rows merged)) s'.
Proof.
  induction batches as [|f rest IH]; intros merged s s' p0 hist [Hlen Hall] Hsz Hinv Hrun;
    simpl in Hrun.
  - injection Hrun as <-. destruct merged; [|discriminate]. simpl.
    by rewrite app_nil_r.
  - destruct merged as [|m0 merged]; [discriminate|].
    apply Forall_cons in Hsz as [Hm0 Hsz].
    apply bind_Done in Hrun as (s1 & [] & Henq & Hrest).
    destruct (Hall 0%nat f eq_refl) as (m & [= <-] & Hg).
    rewrite Nat.add_0_r in Hg.
    destruct (enqueue_latest f m0 s s1 p0 hist Hinv Hg Hm0 Henq) as [Hinv1 Hrounds].
    simpl. rewrite app_assoc. apply (IH merged s1 s'); try done.
    split; [simpl in Hlen; lia|]. intros i f' Hi.
    destruct (Hall (S i) f' Hi) as (m & Hm & Hgm). exists m. split; [done|].
    rewrite Hrounds. by replace (S (rounds s) + i)%nat with (rounds s + S i)%nat by lia.
Qed.

(** X17: The queue is a ring buffer of the latest keys.  Number the rows that a
    sequence of returning enqueues merged, oldest first from 0, the first
    one written at the cursor [ptr] the sequence started with.  If no
    merged batch is longer than the queue, then afterwards each of the
    last [memory_k] rows is in the queue, row number [n] at position
    [(ptr + n) mod memory_k]: an enqueue overwrites the oldest rows and
    nothing else. *)
Theorem queue_holds_latest_rows (batches : list T2) (s s' : St) :
  size0 (queue_vector s) = memory_k self ->
  size1 (queue_vector s) = projector_dim self ->
  0 <= queue_ptr s < memory_k self ->
  for_each batches (_dequeue_and_enqueue self) s = (s', Done tt) ->
  exists merged : list T2,
    gathered s batches merged
    /\ (Forall (fun m => size0 m <= memory_k self) merged ->
        let hist := concat (map rows merged) in
        size0 (queue_vector s') = memory_k self
        /\ queue_ptr s' = (queue_ptr s + len hist) mod memory_k self
        /\ forall n : nat,
             (n < length hist)%nat -> len hist <= Z.of_nat n + memory_k self ->
             rows (queue_vector s')
               !! Z.to_nat ((queue_ptr s + Z.of_nat n) mod memory_k self)
             = hist !! n).
Proof.
  intros HK HD Hptr Hrun.
  destruct (for_each_enqueue_gathered batches s s' Hrun) as [merged Hg].
  exists merged. split; [done|]. intros Hsz hist.
  destruct (for_each_enqueue_latest batches merged s s' (queue_ptr s) [] Hg Hsz)
    as (HK' & _ & _ & Hptr' & Hrows); [|done|].
  { repeat split; try done; try lia.
    - unfold len. simpl. by rewrite Z.add_0_r, Z.mod_small.
    - intros n Hn. simpl in Hn. lia. }
  simpl in Hptr', Hrows. by repeat split.
Qed.

(** ** The proposals of the student batch *)

(** The batch [d] with another [proposals] entry. *)
Definition with_proposals (d : Batch) (p : option (list T2)) : Batch :=
  mkData (img d) (img_metas d) (gt_bboxes d) (gt_labels d) p.

Lemma rpn_loss_proposals (rpn_out : RpnOut) (bs : list T2) (metas : list Meta)
    (si : StudentInfo) (rl : Losses) :
  with_rpn (student self) = true ->
  rpn_loss self rpn_out bs metas si <> Done (rl, None).
Proof.
  intros Hrpn. unfold rpn_loss. rewrite Hrpn.
  destruct (omap _ bs) as [gts| |]; simpl; try discriminate.
  destruct (log_mean_len gts); simpl; try discriminate.
  destruct (getitem (s_img si) 0); simpl; try discriminate.
  destruct (getitem bs 0) as [b0| |]; simpl; try discriminate.
  destruct (column b0 4); simpl; try discriminate.
  destruct (getitem (s_img_metas si) 0); simpl; discriminate.
Qed.

Lemma pseudo_label_loss_ignores_proposals (d : Batch) (p : option (list T2))
    (ti : TeacherInfo) (s : St) :
  compute_pseudo_label_loss self (extract_student_info self (with_proposals d p)) ti s
  = compute_pseudo_label_loss self (extract_student_info self d) ti s.
Proof.
  unfold compute_pseudo_label_loss, extract_student_info, bind, modify, lift. simpl.
  destruct (_get_trans_mat self _ _) as [trans| |]; try reflexivity.
  destruct (with_rpn (student self)) eqn:Hrpn; [|reflexivity].
  set (si := mkStudentInfo _ _ _ _ p _).
  set (si' := mkStudentInfo _ _ _ _ (proposals d) _).
  assert (Hsame : forall r bs m, rpn_loss self r bs m si = rpn_loss self r bs m si')
    by reflexivity.
  rewrite Hsame.
  destruct (rpn_loss self _ _ _ si') as [[rl [pl|]]| |] eqn:Hr; try reflexivity.
  by apply rpn_loss_proposals in Hr.
Qed.

(** X18: The [proposals] entry of the student batch is never used: with an RPN
    the proposals of the student's RPN replace it before it is read, and
    without an RPN the pseudo-label loss does not get that far.
    [foward_unsup_train] does the same, and leaves the same state, for
    every value of the entry. *)
Theorem student_proposals_are_ignored (t st a c : Batch) (p : option (list T2))
    (s : St) :
  foward_unsup_train self t (with_proposals st p) a c s
  = foward_unsup_train self t st a c s.
Proof.
  unfold foward_unsup_train, bind.
  change (img_metas (with_proposals st p)) with (img_metas st).
  destruct (lift (align (img_metas t) (img_metas st)) s) as [s1 [tidx| |]];
    try reflexivity.
  destruct (lift (extract_aligned self t tidx) s1) as [s2 [ti| |]]; try reflexivity.
  destruct (foward_unsup_ctr_train self a c s2) as [s3 [ctr| |]]; try reflexivity.
  by rewrite pseudo_label_loss_ignores_proposals.
Qed.

(** ** The ground-truth indices of [ctr_loss_1] across images *)

Lemma omapi_inv {X Y : Type} (f : nat -> X -> outcome Y) (l : list X) :
  forall (n : nat) (ys : list Y),
  omapi f n l = Done ys ->
  length ys = length l
  /\ forall i x, l !! i = Some x ->
       exists y, ys !! i = Some y /\ f (n + i)%nat x = Done y.
Proof.
  induction l as [|x l IH]; intros n ys H; simpl in H.
  - injection H as <-. split; [done|]. intros i x Hi. by rewrite lookup_nil in Hi.
  - destruct (f n x) as [y| |] eqn:Hx; simpl in H; try discriminate.
    destruct (omapi f (S n) l) as [ys'| |] eqn:Hl; simpl in H; try discriminate.
    injection H as <-. destruct (IH _ _ Hl) as [Hlen Hall].
    split; [simpl; by rewrite Hlen|].
    intros [|i] x' Hi; simpl in *.
    + injection Hi as <-. exists y. by rewrite Nat.add_0_r.
    + destruct (Hall i x' Hi) as (y' & Hy & Hf). exists y'. split; [done|].
      by replace (n + S i)%nat with (S n + i)%nat by lia.
Qed.

Lemma ctr_loss_1_collect_maps (batch : Z) (i : nat)
    (res : SamplingResult * SamplingResult)
    (c : list Z * list Z * T2 * T2) :
  ctr_loss_1_collect batch i res = Done c ->
  c.1.1.1 = map (fun g => g + Z.of_nat i * batch) (pos_assigned_gt_inds res.1)
  /\ c.1.1.2 = map (fun g => g + Z.of_nat i * batch) (pos_assigned_gt_inds res.2)
  /\ 0 < size0 (pos_bboxes res.1) /\ 0 < size0 (pos_bboxes res.2).
Proof.
  destruct res as [ra rc]. unfold ctr_loss_1_collect, assert.
  destruct (_ && _ && negb (size0 (pos_bboxes ra) =? 0)) eqn:Ha; [|discriminate].
  destruct (_ && _ && negb (size0 (pos_bboxes rc) =? 0)) eqn:Hc; [|discriminate].
  simpl. intros [= <-]. simpl.
  apply andb_true_iff in Ha as [_ Ha], Hc as [_ Hc].
  apply negb_true_iff, Z.eqb_neq in Ha, Hc.
  repeat split; unfold size0 in *; lia.
Qed.

(** X19: [ctr_loss_1] tells the ground-truth boxes of the images apart by
    adding [i * batch] to the indices of image [i], where [batch] is the
    number of sampled boxes of the first anchor image.  When every
    assigned index is in [0, batch), an anchor positive and a counterpart
    positive get the same number only if they belong to the same image and
    to the same ground-truth box of it. *)
Theorem gt_offsets_separate_images (batch : Z)
    (pairs : list (SamplingResult * SamplingResult))
    (collected : list (list Z * list Z * T2 * T2)) :
  omapi (ctr_loss_1_collect batch) 0 pairs = Done collected ->
  (forall res, res ∈ pairs ->
     Forall (fun g => 0 <= g < batch) (pos_assigned_gt_inds res.1)
     /\ Forall (fun g => 0 <= g < batch) (pos_assigned_gt_inds res.2)) ->
  length collected = length pairs
  /\ forall i i' c c' g,
       collected !! i = Some c -> collected !! i' = Some c' ->
       g ∈ c.1.1.1 -> g ∈ c'.1.1.2 ->
       i = i'
       /\ exists res,
            pairs !! i = Some res
            /\ g - Z.of_nat i * batch ∈ pos_assigned_gt_inds res.1
            /\ g - Z.of_nat i * batch ∈ pos_assigned_gt_inds res.2.
Proof.
  intros Hrun Hbound. apply omapi_inv in Hrun as [Hlen Hall].
  split; [done|]. intros i i' c c' g Hc Hc' Hg Hg'.
  destruct (lookup_lt_is_Some_2 pairs i) as [res Hres];
    [rewrite <- Hlen; by eapply lookup_lt_Some|].
  destruct (lookup_lt_is_Some_2 pairs i') as [res' Hres'];
    [rewrite <- Hlen; by eapply lookup_lt_Some|].
  destruct (Hall i res Hres) as (y & Hy & Hf). rewrite Hc in Hy. injection Hy as <-.
  destruct (Hall i' res' Hres') as (y & Hy & Hf'). rewrite Hc' in Hy. injection Hy as <-.
  apply ctr_loss_1_collect_maps in Hf as (Ha & _ & _).
  apply ctr_loss_1_collect_maps in Hf' as (_ & Hb & _).
  rewrite Ha in Hg. rewrite Hb in Hg'.
  apply list_elem_of_fmap in Hg as (g0 & -> & Hg0).
  apply list_elem_of_fmap in Hg' as (g1 & Heq & Hg1).
  destruct (Hbound res (list_elem_of_lookup_2 _ _ _ Hres)) as [Hin _].
  destruct (Hbound res' (list_elem_of_lookup_2 _ _ _ Hres')) as [_ Hin'].
  rewrite Forall_forall in Hin, Hin'.
  specialize (Hin g0 Hg0). specialize (Hin' g1 Hg1). simpl in *.
  assert (Hi : i = i') by nia. subst i'.
  split; [done|]. rewrite Hres in Hres'. injection Hres' as <-.
  exists res. split; [done|].
  replace (g0 + Z.of_nat i * batch - Z.of_nat i * batch) with g0 by lia.
  split; [done|]. assert (g0 = g1) as -> by lia. done.
Qed.

(** ** The valid images of [ctr_loss] *)

(** The image [i] of the batch has a ground-truth box. *)
Definition has_boxes (a_b : list T2) (i : nat) : bool :=
  match a_b !! i with
  | Some b => negb (size0 b =? 0)
  | None => false
  end.

Lemma select_Forall2 {X : Type} (l : list X) (idx : list nat) (xs : list X) :
  Forall2 (fun i x => l !! i = Some x) idx xs -> select l idx = Done xs.
Proof.
  induction 1 as [|i x idx xs Hi _ IH]; [done|].
  unfold select in *. simpl. rewrite Hi. simpl. by rewrite IH.
Qed.

Lemma ctr_loss_valid_Done (a_b c_b : list T2) (a_l c_l : list (list Z))
    (a_m c_m : list (@Meta Mat)) (i : nat)
    (k : option (T2 * list Z * @Meta Mat * T2 * list Z * @Meta Mat)) :
  ctr_loss_valid a_b c_b a_l c_l a_m c_m i = Done k ->
  exists ab al cb cl,
    a_b !! i = Some ab /\ a_l !! i = Some al /\ c_b !! i = Some cb /\ c_l !! i = Some cl
    /\ size0 ab = len al /\ len al = size0 cb /\ size0 cb = len cl
    /\ (size0 ab = 0 -> k = None)
    /\ (size0 ab <> 0 ->
        exists am cm, a_m !! i = Some am /\ c_m !! i = Some cm
                      /\ k = Some (ab, al, am, cb, cl, cm)).
Proof.
  unfold ctr_loss_valid, getitem. intros Hk.
  destruct (a_b !! i) as [ab|]; simpl in Hk; [|discriminate].
  destruct (a_l !! i) as [al|]; simpl in Hk; [|discriminate].
  destruct (c_b !! i) as [cb|]; simpl in Hk; [|discriminate].
  destruct (c_l !! i) as [cl|]; simpl in Hk; [|discriminate].
  unfold assert in Hk.
  destruct (_ && _ && _) eqn:Hsz; simpl in Hk; [|discriminate].
  apply andb_true_iff in Hsz as [Hsz H3]. apply andb_true_iff in Hsz as [H1 H2].
  apply Z.eqb_eq in H1, H2, H3.
  exists ab, al, cb, cl. do 7 (split; [done|]).
  destruct (Z.eqb_spec (size0 ab) 0) as [Hz|Hnz].
  - injection Hk as <-. split; [done|]. intros ?. done.
  - destruct (a_m !! i) as [am|]; simpl in Hk; [|discriminate].
    destruct (c_m !! i) as [cm|]; simpl in Hk; [|discriminate].
    injection Hk as <-. split; [done|]. intros _. by exists am, cm.
Qed.

Lemma valid_selection (a_b c_b : list T2) (a_l c_l : list (list Z))
    (a_m c_m : list (@Meta Mat)) (idx : list nat)
    (kept : list (option (T2 * list Z * @Meta Mat * T2 * list Z * @Meta Mat))) :
  Forall2 (fun i k => ctr_loss_valid a_b c_b a_l c_l a_m c_m i = Done k) idx kept ->
  map fst (filter (fun p => is_Some (snd p)) (combine idx kept))
  = filter (fun i => has_boxes a_b i = true) idx
  /\ Forall2 (fun i v =>
                a_b !! i = Some v.1.1.1.1.1 /\ a_l !! i = Some v.1.1.1.1.2
                /\ a_m !! i = Some v.1.1.1.2 /\ c_b !! i = Some v.1.1.2
                /\ c_l !! i = Some v.1.2 /\ c_m !! i = Some v.2
                /\ size0 v.1.1.1.1.1 <> 0
                /\ size0 v.1.1.1.1.1 = len v.1.1.1.1.2
                /\ size0 v.1.1.2 = size0 v.1.1.1.1.1
                /\ len v.1.2 = size0 v.1.1.1.1.1)
             (filter (fun i => has_boxes a_b i = true) idx) (omap_filter kept).
Proof.
  induction 1 as [|i k idx kept Hk _ [IH1 IH2]]; [by split; [|constructor]|].
  simpl combine. rewrite !filter_cons. simpl snd.
  apply ctr_loss_valid_Done in Hk
    as (ab & al & cb & cl & Hab & Hal & Hcb & Hcl & H1 & H2 & H3 & Hnone & Hsome).
  assert (Hhas : has_boxes a_b i = negb (size0 ab =? 0))
    by (unfold has_boxes; by rewrite Hab).
  destruct (Z.eqb_spec (size0 ab) 0) as [Hz|Hnz].
  - rewrite (Hnone Hz). rewrite !decide_False; [by split | by rewrite Hhas |].
    simpl. by intros [? ?].
  - destruct (Hsome Hnz) as (am & cm & Ham & Hcm & ->).
    rewrite !decide_True; [|by rewrite Hhas | by eexists].
    simpl. split; [by rewrite IH1|]. constructor; [|done]. simpl.
    repeat split; try done; lia.
Qed.

(** X20: The images [ctr_loss] goes on with are exactly the images whose anchor
    view has a ground-truth box, in their order, and both views keep the
    same positions: the images, the metas, the boxes and the labels of the
    two new batches are the entries of the old ones at these positions.
    No kept image is without boxes. *)
Theorem valid_data_keeps_images_with_boxes (anchor ctr : Batch) (a_b c_b : list T2)
    (a_l c_l : list (list Z)) (s s' : St) (va vc : Batch) :
  ctr_loss_valid_data anchor ctr a_b c_b a_l c_l s = (s', Done (va, vc)) ->
  let keep := filter (fun i => has_boxes a_b i = true) (seq 0 (length a_b)) in
  exists vab val vcb vcl,
    box_lists s' !! gt_bboxes va = Some vab
    /\ label_lists s' !! gt_labels va = Some val
    /\ box_lists s' !! gt_bboxes vc = Some vcb
    /\ label_lists s' !! gt_labels vc = Some vcl
    /\ select a_b keep = Done vab /\ select a_l keep = Done val
    /\ select c_b keep = Done vcb /\ select c_l keep = Done vcl
    /\ select (img anchor) keep = Done (img va)
    /\ select (img ctr) keep = Done (img vc)
    /\ select (img_metas anchor) keep = Done (img_metas va)
    /\ select (img_metas ctr) keep = Done (img_metas vc)
    /\ Forall (fun b => size0 b <> 0) vab.
Proof.
  intros Hrun keep. unfold ctr_loss_valid_data in Hrun.
  apply bind_Done in Hrun as (s1 & kept & Hkept & Hrun).
  apply lift_Done in Hkept as [-> Hkept]. apply omap_inv in Hkept.
  destruct (valid_selection _ _ _ _ _ _ _ _ Hkept) as [Hind Hvalid].
  fold keep in Hind, Hvalid. rewrite Hind in Hrun.
  set (valid := omap_filter kept) in *.
  apply bind_Done in Hrun as (s1 & a_img & Ha & Hrun).
  apply lift_Done in Ha as [-> Ha].
  apply bind_Done in Hrun as (s1 & c_img & Hc & Hrun).
  apply lift_Done in Hc as [-> Hc].
  apply bind_Done in Hrun as (s1 & va_b & [= <- <-] & Hrun).
  apply bind_Done in Hrun as (s2 & va_l & [= <- <-] & Hrun).
  apply bind_Done in Hrun as (s3 & vc_b & [= <- <-] & Hrun).
  apply bind_Done in Hrun as (s4 & vc_l & [= <- <-] & Hrun).
  apply bind_Done in Hrun as (s5 & [] & Hassert & Hrun).
  apply lift_Done in Hassert as [-> _].
  injection Hrun as <- <- <-. simpl.
  set (b1 := fresh (dom (box_lists s))).
  set (l1 := fresh (dom (label_lists s))).
  assert (Hb : fresh (dom (<[b1 := map (fun v => v.1.1.1.1.1) valid]> (box_lists s)))
               <> b1).
  { intros Heq. pose proof (is_fresh (dom (<[b1 := map (fun v => v.1.1.1.1.1) valid]>
                                            (box_lists s)))) as Hf.
    rewrite Heq in Hf. apply Hf. rewrite dom_insert_L. set_solver. }
  assert (Hl : fresh (dom (<[l1 := map (fun v => v.1.1.1.1.2) valid]> (label_lists s)))
               <> l1).
  { intros Heq. pose proof (is_fresh (dom (<[l1 := map (fun v => v.1.1.1.1.2) valid]>
                                            (label_lists s)))) as Hf.
    rewrite Heq in Hf. apply Hf. rewrite dom_insert_L. set_solver. }
  exists (map (fun v => v.1.1.1.1.1) valid), (map (fun v => v.1.1.1.1.2) valid),
    (map (fun v => v.1.1.2) valid), (map (fun v => v.1.2) valid).
  split; [by rewrite lookup_insert_ne, lookup_insert_eq|].
  split; [by rewrite lookup_insert_ne, lookup_insert_eq|].
  split; [by rewrite lookup_insert_eq|].
  split; [by rewrite lookup_insert_eq|].
  assert (Hsel : forall {X Y : Type} (l : list X) (f : _ -> X),
            Forall2 (fun i v => l !! i = Some (f v)) keep valid ->
            select l keep = Done (map f valid)).
  { intros X Y l f H. apply select_Forall2. apply Forall2_fmap_r.
    eapply Forall2_impl; [exact H|]. done. }
  split; [|split; [|split; [|split; [|split; [done|split; [done|split; [|split]]]]]]].
  - apply (Hsel T2 unit). eapply Forall2_impl; [exact Hvalid|]. by intros i v (? & _).
  - apply (Hsel (list Z) unit). eapply Forall2_impl; [exact Hvalid|].
    by intros i v (_ & ? & _).
  - apply (Hsel T2 unit). eapply Forall2_impl; [exact Hvalid|].
    by intros i v (_ & _ & _ & ? & _).
  - apply (Hsel (list Z) unit). eapply Forall2_impl; [exact Hvalid|].
    by intros i v (_ & _ & _ & _ & ? & _).
  - apply (Hsel (@Meta Mat) unit). eapply Forall2_impl; [exact Hvalid|].
    by intros i v (_ & _ & ? & _).
  - apply (Hsel (@Meta Mat) unit). eapply Forall2_impl; [exact Hvalid|].
    by intros i v (_ & _ & _ & _ & _ & ? & _).
  - apply Forall_fmap. apply Forall2_Forall_r with (Q := fun v => size0 v.1.1.1.1.1 <> 0)
      in Hvalid; [done|].
    apply Forall_forall. by intros i _ v (_ & _ & _ & _ & _ & _ & ? & _).
Qed.

End Proofs.

(** * Examples and counterexamples on the concrete instance *)

(** Five rows of five columns, row [i] starting with [10 + i]. *)
Definition five_rows : @Tensor2 Z :=
  mkT2 [[10; 0; 0; 0; 0]; [11; 0; 0; 0; 0]; [12; 0; 0; 0; 0];
        [13; 0; 0; 0; 0]; [14; 0; 0; 0; 0]] 5.

Definition self6 := unit_self 6 5 (CfgFloat 0) sample_gt keep_rois alone.

(** C1 at K = 6, ptr = K - 3 and B = 5: the first three rows land at 3, 4
    and 5, the last two at 0 and 1, row 2 stays and the cursor becomes 2. *)
Lemma enqueue_wraps_around_witness :
  exists s',
    _dequeue_and_enqueue self6 five_rows (demo_state (axis_queue 6) 3 [] [])
    = (s', Done tt)
    /\ queue_ptr s' = 2
    /\ rows (queue_vector s') !! 3%nat = Some [10; 0; 0; 0; 0]
    /\ rows (queue_vector s') !! 4%nat = Some [11; 0; 0; 0; 0]
    /\ rows (queue_vector s') !! 5%nat = Some [12; 0; 0; 0; 0]
    /\ rows (queue_vector s') !! 0%nat = Some [13; 0; 0; 0; 0]
    /\ rows (queue_vector s') !! 1%nat = Some [14; 0; 0; 0; 0]
    /\ rows (queue_vector s') !! 2%nat = Some [1; 0; 0; 0; 0].
Proof.
  destruct (enqueue_wraps_around self6 five_rows five_rows
              (demo_state (axis_queue 6) 3 [] []))
    as (s' & Hrun & Hptr & _ & Htail & Hhead & Hrest);
    [reflexivity | vm_compute; split; [reflexivity | discriminate]
    | vm_compute; split; [discriminate | reflexivity] | reflexivity..|].
  exists s'. split; [exact Hrun|]. split; [exact Hptr|].
  split; [exact (Htail 0 ltac:(vm_compute; split; [discriminate | reflexivity])
                   ltac:(reflexivity))|].
  split; [exact (Htail 1 ltac:(vm_compute; split; [discriminate | reflexivity])
                   ltac:(reflexivity))|].
  split; [exact (Htail 2 ltac:(vm_compute; split; [discriminate | reflexivity])
                   ltac:(reflexivity))|].
  split; [exact (Hhead 3 ltac:(vm_compute; split; [discriminate | reflexivity])
                   ltac:(vm_compute; discriminate))|].
  split; [exact (Hhead 4 ltac:(vm_compute; split; [discriminate | reflexivity])
                   ltac:(vm_compute; discriminate))|].
  exact (Hrest 2 ltac:(vm_compute; split; [discriminate | reflexivity])
           ltac:(left; vm_compute; split; [reflexivity | discriminate])).
Defined.

Definition nine_rows : @Tensor2 Z :=
  mkT2 (map (fun i => [Z.of_nat i; 0; 0; 0; 0]) (seq 0 9)) 5.
Definition three_rows : @Tensor2 Z :=
  mkT2 [[10; 0; 0; 0; 0]; [11; 0; 0; 0; 0]; [12; 0; 0; 0; 0]] 5.

(** C1 fails for a batch longer than the queue.  With K = 4, ptr = 0 and
    B = 9 the second slice assignment raises and the cursor stays 0, not
    (0 + 9) mod 4; with K = 2, ptr = 1 and B = 3 the call returns, and
    position 1 holds the last row of the batch, not the first. *)
Lemma enqueue_batch_longer_than_queue :
  (let r := _dequeue_and_enqueue
              (unit_self 4 5 (CfgFloat 0) sample_gt keep_rois alone) nine_rows
              (demo_state (axis_queue 4) 0 [] []) in
   snd r = Raised RuntimeError /\ queue_ptr (fst r) <> (0 + 9) mod 4)
  /\ (let r := _dequeue_and_enqueue
                 (unit_self 2 5 (CfgFloat 0) sample_gt keep_rois alone) three_rows
                 (demo_state (axis_queue 2) 1 [] []) in
      snd r = Done tt
      /\ rows (queue_vector (fst r)) !! 1%nat = Some [12; 0; 0; 0; 0]
      /\ rows three_rows !! 0%nat = Some [10; 0; 0; 0; 0]).
Proof. vm_compute. repeat split; discriminate. Qed.

Definition self4 := unit_self 4 5 (CfgFloat 0) sample_gt keep_rois alone.

Definition unit_batches : list (@Tensor2 Z) :=
  [mkT2 [[0; 1; 0; 0; 0]; [0; 0; -1; 0; 0]; [0; 0; 0; 1; 0]] 5;
   mkT2 [] 5;
   mkT2 [[0; 0; 0; 0; 1]; [-1; 0; 0; 0; 0]] 5].


Definition self0 := unit_self 0 5 (CfgFloat 0) sample_gt keep_rois alone.
Definition self_2_25 := unit_self 33554432 1 (CfgFloat 0) sample_gt keep_rois alone.

(** 2^24 + 3 rows (1), a row count that float32 rounds up to 2^24 + 4. *)
Definition many_unit_rows : @Tensor2 Z :=
  mkT2 (repeat [1] (Z.to_nat 16777219)) 1.


Definition two_rows : @Tensor2 Z := mkT2 [[1; 2]; [3; 4]] 2.
Definition no_rows : @Tensor2 Z := mkT2 [] 2.
Definition one_row : @Tensor2 Z := mkT2 [[5; 6]] 2.
Definition three_more_rows : @Tensor2 Z := mkT2 [[7; 8]; [9; 10]; [11; 12]] 2.
Definition four_ranks : @Group Z := mkGroup [two_rows] [no_rows; three_more_rows].

(** C4 on four ranks holding 2, 1, 0 and 3 rows, seen from rank 1. *)
Lemma gather_concatenates_witness :
  concat_all_gather self4 four_ranks one_row
  = Done (mkT2 [[1; 2]; [3; 4]; [5; 6]; [7; 8]; [9; 10]; [11; 12]] 2)
  /\ exists p,
       pad_to self4 3 one_row = Done p
       /\ rows p = [[5; 6]; [0; 0]; [0; 0]]
       /\ slice_rows p None (Some 1) = one_row.
Proof.
  pose proof (gather_concatenates self4 four_ranks one_row) as H.
  destruct H as (Hpad & Hg & _).
  - discriminate.
  - repeat constructor; discriminate.
  - split; [exact Hg|].
    apply Forall_app in Hpad as [_ Hpad]. apply Forall_cons in Hpad as [Hp _].
    destruct Hp as (p & Hp & Hrows & _ & Hcut).
    exists p. split; [exact Hp|]. split; [exact Hrows | exact Hcut].
Defined.

(** 2^24 + 1 rows without columns. *)
Definition many_rows : @Tensor2 Z := mkT2 (repeat [] (Z.to_nat 16777217)) 0.

(** C4 fails above 2^24 rows: the row count 2^24 + 1 comes back from the
    float32 exchange as 2^24, the padding [torch.zeros(-1, 0)] is a
    RuntimeError, and no concatenation is returned. *)
Lemma gather_loses_large_counts :
  size0 many_rows = 16777217
  /\ float32_of_int 16777217 = 16777216
  /\ concat_all_gather self4 (mkGroup [] []) many_rows = Raised RuntimeError.
Proof.
  assert (Hsz : size0 many_rows = 16777217).
  { unfold size0, many_rows. cbn [rows]. rewrite repeat_length.
    apply Z2Nat.id. discriminate. }
  split; [exact Hsz|]. split; [reflexivity|].
  rewrite (gather_alone self4 (mkGroup [] []) many_rows eq_refl eq_refl);
    [|discriminate].
  rewrite Hsz. reflexivity.
Qed.

(** Two views of the images a and b, the counterpart in the other order.
    Image a has three boxes, image b has none. *)
Definition three_boxes : @Tensor2 Z := mkT2 [box 1; box 2; box 3] 4.
Definition no_box : @Tensor2 Z := mkT2 [] 4.
Definition anchor_ab : @Data Z string unit :=
  mkData ["a"; "b"] [meta "a"; meta "b"] 0 0 None.
Definition ctr_ba : @Data Z string unit :=
  mkData ["b"; "a"] [meta "b"; meta "a"] 1 1 None.
Definition state_ab : @State Z :=
  demo_state (axis_queue 4) 3
    [[three_boxes; no_box]; [three_boxes; no_box]]
    [[[5; 6; 5]; []]; [[5; 6; 5]; []]].

(** The same batch without any box. *)
Definition state_empty : @State Z :=
  demo_state (axis_queue 4) 3 [[no_box; no_box]; [no_box; no_box]]
    [[[]; []]; [[]; []]].

(** The state [ctr_loss] leaves on that batch. *)
Definition state_ab_after : @State Z :=
  (ctr_loss self4 anchor_ab ctr_ba state_ab).1.



(** The instance whose RoI extractor returns no pooled features. *)
Definition self_drop := unit_self 4 5 (CfgFloat 0) sample_gt drop_rois alone.

(** What [extract_ctr_info] finds for a view of image a with three boxes. *)
Definition info_a (sampler : @Tensor2 Z -> @Tensor2 Z -> list Z -> @SamplingResult Z)
  : @CtrInfo Z string (list string) unit :=
  mkCtrInfo ["a"] ["a"] [meta "a"] [mkT2 [[0; 0; 4; 4; 1]] 5] [tt]
    [sampler (mkT2 [[0; 0; 4; 4; 1]] 5) three_boxes [5; 6; 5]].


(** One image with boxes and one without, as lists handed to [ctr_loss_2]. *)
Definition state_gap : @State Z :=
  demo_state (axis_queue 4) 3 [[three_boxes; no_box]] [[[5; 6; 5]; []]].


(** The images a, b and c in the order of the student (or anchor) role and
    in the order of the teacher (or counterpart) role. *)
Definition batch_abc : @Data Z string unit :=
  mkData ["a"; "b"; "c"] [meta "a"; meta "b"; meta "c"] 0 0 None.
Definition batch_bac : @Data Z string unit :=
  mkData ["b"; "a"; "c"] [meta "b"; meta "a"; meta "c"] 1 1 None.

Definition groups_sup : gmap string (@Data Z string unit) :=
  list_to_map [("sup"%string, batch_abc); ("ctr_anchor_sup"%string, batch_abc);
               ("ctr_ctr_sup"%string, batch_bac)].

Definition groups_unsup : gmap string (@Data Z string unit) :=
  list_to_map [("unsup_student"%string, batch_abc);
               ("unsup_teacher"%string, batch_bac);
               ("ctr_anchor_unsup"%string, batch_abc);
               ("ctr_ctr_unsup"%string, batch_bac)].

(** One box per image; list objects 0 and 1 are those of the two batches. *)
Definition state_abc : @State Z :=
  demo_state (axis_queue 4) 0
    [[one_box 1; one_box 2; one_box 3]; [one_box 2; one_box 1; one_box 3]]
    [[[7]; [8]; [9]]; [[8]; [7]; [9]]].

Definition is_done {X : Type} (o : outcome X) : bool :=
  match o with Done _ => true | _ => false end.

(** C6 at the claim's own example, anchor (student) order a, b, c against
    counterpart (teacher) order b, a, c.  In the supervised branch of
    [forward_train] the contrastive loss pairs a with b and b with a, by
    position; in the unsupervised branch the contrastive loss does the
    same, while the pseudo-label loss of [foward_unsup_train] pairs a with
    a and b with b, by filename. *)
Lemma forward_train_pairs_by_position :
  paired (forward_train self4 groups_sup state_abc).1
  = [[("a", "b"); ("b", "a"); ("c", "c")]]
  /\ is_done (forward_train self4 groups_sup state_abc).2 = true
  /\ paired (forward_train self4 groups_unsup state_abc).1
     = [[("a", "b"); ("b", "a"); ("c", "c")];
        [("a", "a"); ("b", "b"); ("c", "c")]]
  /\ is_done (forward_train self4 groups_unsup state_abc).2 = true
  /\ align (img_metas batch_bac) (img_metas batch_abc) = Done [1; 0; 2]%nat.
Proof. vm_compute. repeat split. Qed.

(** Three boxes with three labels for the first image, one box with one
    label for the second; [ctr2_num] is 2. *)
Definition state_31 : @State Z :=
  demo_state (axis_queue 4) 0 [[three_boxes; one_box 9]] [[[5; 6; 5]; [4]]].

(** C7 on these lists: the first image is left with two boxes and two
    labels, the second image keeps its box and its label. *)
Lemma ctr_loss_2_subsamples_witness :
  exists bl' ll' b' l',
    box_lists (ctr_loss_2 self4 (info_a sample_gt) 0 0 state_31).1 !! 0%nat = Some bl'
    /\ label_lists (ctr_loss_2 self4 (info_a sample_gt) 0 0 state_31).1 !! 0%nat
       = Some ll'
    /\ bl' !! 0%nat = Some b' /\ ll' !! 0%nat = Some l'
    /\ size0 b' = 2 /\ len l' = 2
    /\ bl' !! 1%nat = Some (one_box 9) /\ ll' !! 1%nat = Some [4].
Proof.
  destruct (ctr_loss_2_subsamples self4 (info_a sample_gt) 0 0
              [three_boxes; one_box 9] [[5; 6; 5]; [4]] state_31
              (ctr_loss_2 self4 (info_a sample_gt) 0 0 state_31).1
              (ctr_loss_2 self4 (info_a sample_gt) 0 0 state_31).2)
    as (bl' & ll' & Hb & Hl & _ & _ & Hall).
  - reflexivity.
  - reflexivity.
  - split; [discriminate|]. split; [reflexivity|].
    intros [|[|i]] b l [= <-] [= <-]; vm_compute; split; [reflexivity | discriminate
      | reflexivity | discriminate].
  - discriminate.
  - apply surjective_pairing.
  - destruct (Hall 0%nat three_boxes [5; 6; 5] eq_refl eq_refl)
      as (b' & l' & Hb' & Hl' & _ & Hmore).
    destruct (Hall 1%nat (one_box 9) [4] eq_refl eq_refl)
      as (b1 & l1 & Hb1 & Hl1 & Hsame & _).
    destruct Hmore as (Hsz & Hlen & _); [reflexivity|].
    destruct Hsame as [-> ->]; [discriminate|].
    exists bl', ll', b', l'. repeat split; assumption.
Defined.

(** C10 on the same lists: the list objects of the caller hold the
    shortened tensors after the call. *)
Lemma ctr_loss_2_mutates_arguments_witness :
  exists bl' ll' b' l',
    box_lists (ctr_loss_2 self4 (info_a sample_gt) 0 0 state_31).1
    = <[0%nat := bl']> (box_lists state_31)
    /\ label_lists (ctr_loss_2 self4 (info_a sample_gt) 0 0 state_31).1
       = <[0%nat := ll']> (label_lists state_31)
    /\ bl' !! 0%nat = Some b' /\ ll' !! 0%nat = Some l'
    /\ size0 b' = 2 /\ len l' = 2 /\ size0 b' < size0 three_boxes.
Proof.
  destruct (ctr_loss_2_mutates_arguments self4 (info_a sample_gt) 0 0
              [three_boxes; one_box 9] [[5; 6; 5]; [4]] state_31
              (ctr_loss_2 self4 (info_a sample_gt) 0 0 state_31).1
              (ctr_loss_2 self4 (info_a sample_gt) 0 0 state_31).2)
    as (bl' & ll' & Hb & Hl & _ & _ & _ & _ & Hall).
  - reflexivity.
  - reflexivity.
  - split; [discriminate|]. split; [reflexivity|].
    intros [|[|i]] b l [= <-] [= <-]; vm_compute; split; [reflexivity | discriminate
      | reflexivity | discriminate].
  - discriminate.
  - apply surjective_pairing.
  - destruct (Hall 0%nat three_boxes eq_refl eq_refl)
      as (b' & l' & Hb' & Hl' & Hsz & Hlen & Hlt).
    exists bl', ll', b', l'. repeat split; assumption.
Defined.

(** C8 with an integer threshold in the configuration (the call raises)
    and with the float 0 (the call returns the filtered detections). *)
Lemma threshold_is_static_witness :
  extract_teacher_info (unit_self 4 5 (CfgInt 0) sample_gt keep_rois alone)
    ["a"] [meta "a"] None
  = Raised NotImplementedError
  /\ exists info,
       extract_teacher_info self4 ["a"] [meta "a"] None = Done info
       /\ det_bboxes info
          = [(filter_invalid self4 (mkT2 [[0; 0; 4; 4; 1]] 5) [7] [1] 0
                (min_pseduo_box_size self4)).1].
Proof.
  split.
  - apply (proj1 (threshold_is_static
                    (unit_self 4 5 (CfgInt 0) sample_gt keep_rois alone)
                    ["a"] [meta "a"] None)).
    intros thr. discriminate.
  - destruct (extract_teacher_info self4 ["a"] [meta "a"] None) as [info| |] eqn:Hrun;
      [|vm_compute in Hrun; discriminate..].
    exists info. split; [reflexivity|].
    destruct (proj2 (threshold_is_static self4 ["a"] [meta "a"] None) 0 info
                eq_refl Hrun) as (Hlen & _ & Hall).
    destruct (Hall 0%nat (mkT2 [[0; 0; 4; 4; 1]] 5) [7] eq_refl)
      as (score & Hscore & Hb & _).
    injection Hscore as <-.
    destruct (det_bboxes info) as [|b [|? ?]]; try discriminate Hlen.
    injection Hb as ->. reflexivity.
Defined.

(** *** The laws of 3 x 3 real matrices *)

Lemma mat3_mul_assoc (x y z : Mat3) :
  mat3_mul (mat3_mul x y) z = mat3_mul x (mat3_mul y z).
Proof. destruct x, y, z. unfold mat3_mul. simpl. f_equal; ring. Qed.

Lemma mat3_mul_eye_l (x : Mat3) : mat3_mul mat3_eye x = x.
Proof. destruct x. unfold mat3_mul. simpl. f_equal; ring. Qed.

Lemma mat3_inverse_l (x x' : Mat3) :
  mat3_inverse x = Done x' -> mat3_mul x' x = mat3_eye.
Proof.
  unfold mat3_inverse. destruct (Req_dec_T (mat3_det x) 0) as [|Hd]; [discriminate|].
  intros [= <-]. destruct x. unfold mat3_det in *. simpl in *.
  unfold mat3_mul, mat3_adjugate_over, mat3_eye. simpl.
  f_equal; field; exact Hd.
Qed.

Lemma mat3_inverse_r (x x' : Mat3) :
  mat3_inverse x = Done x' -> mat3_mul x x' = mat3_eye.
Proof.
  unfold mat3_inverse. destruct (Req_dec_T (mat3_det x) 0) as [|Hd]; [discriminate|].
  intros [= <-]. destruct x. unfold mat3_det in *. simpl in *.
  unfold mat3_mul, mat3_adjugate_over, mat3_eye. simpl.
  f_equal; field; exact Hd.
Qed.

Lemma mat3_invertible (x : Mat3) :
  mat3_det x <> 0%R -> invertible mat3_self x.
Proof.
  intros Hd. unfold invertible. simpl. unfold mat3_inverse.
  destruct (Req_dec_T (mat3_det x) 0); [done | by eexists].
Qed.


(** The realignment of [foward_unsup_train] on the teacher order b, a, c
    and the student order a, b, c: the selected teacher entries carry the
    filenames a, b, c. *)
Lemma align_by_filename_witness :
  exists picked,
    select (img_metas batch_bac) [1; 0; 2]%nat = Done picked
    /\ map filename picked = ["a"; "b"; "c"].
Proof.
  exists [meta "a"; meta "b"; meta "c"]. split; [reflexivity|].
  apply (align_by_filename (img_metas batch_bac) (img_metas batch_abc)
           [1; 0; 2]%nat); reflexivity.
Defined.

(** * The stateless methods *)

(** ** [aug_box] *)

Lemma py_slice_range {X : Type} (l : list X) (a b : Z) :
  0 <= a <= b -> b <= Z.of_nat (length l) ->
  py_slice l (Some a) (Some b) = take (Z.to_nat (b - a)) (drop (Z.to_nat a) l).
Proof.
  intros Ha Hb. unfold py_slice. by rewrite !slice_bound_in by lia.
Qed.

Lemma omapi_cases {X Y : Type} (f : nat -> X -> outcome Y) (g : nat -> X -> Y)
    (bad : X -> Prop) (l : list X) :
  forall n,
  (forall i x, l !! i = Some x ->
     (~ bad x /\ f (n + i)%nat x = Done (g (n + i)%nat x))
     \/ (bad x /\ f (n + i)%nat x = Raised RuntimeError)) ->
  (Forall (fun x => ~ bad x) l ->
   omapi f n l = Done (imap (fun i => g (n + i)%nat) l))
  /\ (Exists bad l -> omapi f n l = Raised RuntimeError).
Proof.
  induction l as [|x l IH]; intros n Hf.
  - split; [done|]. intros H. by apply Exists_nil in H.
  - destruct (IH (S n)) as [IHok IHbad].
    { intros i y Hi. replace (S n + i)%nat with (n + S i)%nat by lia. by apply Hf. }
    assert (Hext : imap (fun i => g (S n + i)%nat) l
                   = imap ((fun i => g (n + i)%nat) ∘ S) l).
    { apply imap_ext. intros i y _. simpl. f_equal. lia. }
    specialize (Hf 0%nat x eq_refl). rewrite Nat.add_0_r in Hf. simpl.
    destruct Hf as [[Hgood ->] | [Hbad ->]]; simpl.
    + split.
      * intros Hall. apply Forall_cons in Hall as [_ Hall].
        rewrite (IHok Hall), Hext. simpl. by rewrite Nat.add_0_r.
      * intros Hex. apply Exists_cons in Hex as [|Hex]; [done|].
        by rewrite (IHbad Hex).
    + split; [|done]. intros Hall. by apply Forall_cons in Hall as [? _].
Qed.

Section AugBoxProofs.
Context {A : Type}.
Variables (add sub mul : A -> A -> A) (clamp_min : A -> A -> A) (one : A).
Variable randn : nat -> nat -> nat -> nat -> A.

Abbreviation jitter frac k t i j lo hi :=
  (mul (randn k t i j) (mul (clamp_min one (sub hi lo)) frac)).

Lemma aug_row_boxes (frac : A) (k t i : nat) (x1 y1 x2 y2 : A) (rest : list A) :
  aug_row add sub mul clamp_min one randn frac k t i (x1 :: y1 :: x2 :: y2 :: rest)
  = add x1 (jitter frac k t i 0%nat x1 x2)
    :: add y1 (jitter frac k t i 1%nat y1 y2)
    :: add x2 (jitter frac k t i 2%nat x1 x2)
    :: add y2 (jitter frac k t i 3%nat y1 y2)
    :: rest.
Proof.
  unfold aug_row.
  rewrite py_slice_range, py_slice_prefix, py_slice_prefix, py_slice_suffix
    by (simpl length; lia).
  reflexivity.
Qed.

(** A box tensor [aug_box] accepts: at least four columns, and rows as
    long as the column count says. *)
Definition augmentable (b : @Tensor2 A) : Prop :=
  4 <= size1 b /\ Forall (fun r => len r = size1 b) (rows b).

(** X14: [aug_box] returns, for every box tensor, [times] copies of its shape.
    In every copy the columns from the fifth on (the scores) are those of
    the box, and each of the four coordinates is moved by a normal sample
    times [frac] times the width (for x) or the height (for y) of the box,
    taken as at least 1.  A box tensor without rows gives copies without
    rows; one box tensor with fewer than four columns makes the whole call
    a RuntimeError. *)
Theorem aug_box_keeps_shape_and_scores (boxes : list (@Tensor2 A)) (times : Z)
    (frac : A) :
  0 <= times ->
  (Forall augmentable boxes ->
   exists out,
     aug_box add sub mul clamp_min one randn boxes times frac = Done out
     /\ length out = length boxes
     /\ forall k b copies, boxes !! k = Some b -> out !! k = Some copies ->
          length copies = Z.to_nat times
          /\ forall t c, copies !! t = Some c ->
               size1 c = size1 b /\ length (rows c) = length (rows b)
               /\ forall i r r', rows b !! i = Some r -> rows c !! i = Some r' ->
                    length r' = length r /\ drop 4 r' = drop 4 r
                    /\ exists x1 y1 x2 y2,
                         take 4 r = [x1; y1; x2; y2]
                         /\ take 4 r'
                            = [add x1 (jitter frac k t i 0%nat x1 x2);
                               add y1 (jitter frac k t i 1%nat y1 y2);
                               add x2 (jitter frac k t i 2%nat x1 x2);
                               add y2 (jitter frac k t i 3%nat y1 y2)])
  /\ (Exists (fun b => size1 b < 4) boxes ->
      aug_box add sub mul clamp_min one randn boxes times frac = Raised RuntimeError).
Proof.
  intros Htimes. unfold aug_box.
  set (g := fun (k : nat) (box : @Tensor2 A) =>
              map (fun t => mkT2 (imap (aug_row add sub mul clamp_min one randn frac k t)
                                       (rows box)) (size1 box))
                  (seq 0 (Z.to_nat times))).
  destruct (omapi_cases (_aug_single add sub mul clamp_min one randn times frac) g
              (fun b => size1 b < 4) boxes 0%nat) as [Hok Hbad].
  { intros k b _. simpl. unfold _aug_single.
    destruct (Z.ltb_spec (size1 b) 4) as [H4|H4]; [by right|].
    destruct (Z.ltb_spec times 0) as [|_]; [lia|]. left. split; [lia | done]. }
  split; [|exact Hbad].
  intros Hall. rewrite Hok; cycle 1.
  { eapply Forall_impl; [exact Hall|]. intros b (H4 & _) ?. lia. }
  eexists. split; [reflexivity|]. split; [by rewrite length_imap|].
  intros k b copies Hb Hout. rewrite list_lookup_imap, Hb in Hout. simpl in Hout.
  injection Hout as <-. unfold g. rewrite length_map, length_seq. split; [done|].
  intros t c Hc. rewrite list_lookup_fmap in Hc.
  destruct (seq 0 (Z.to_nat times) !! t) as [t'|] eqn:Ht; [|discriminate].
  apply lookup_seq in Ht as [-> _]. injection Hc as <-. simpl.
  rewrite length_imap. do 2 (split; [done|]).
  intros i r r' Hr Hr'. rewrite list_lookup_imap, Hr in Hr'. simpl in Hr'.
  injection Hr' as <-.
  rewrite Forall_forall in Hall. destruct (Hall b) as (H4 & Hrows).
  { by eapply list_elem_of_lookup_2. }
  rewrite Forall_forall in Hrows. specialize (Hrows r (list_elem_of_lookup_2 _ _ _ Hr)).
  unfold len in Hrows.
  destruct r as [|x1 [|y1 [|x2 [|y2 rest]]]]; simpl in Hrows; try lia.
  rewrite aug_row_boxes. repeat split. by exists x1, y1, x2, y2.
Qed.

End AugBoxProofs.

(** ** [_load_from_state_dict] *)

Section StateDictProofs.
Context {V R : Type}.

(** A key that names a role. *)
Definition names_role (key : string) : bool :=
  contains "student" key || contains "teacher" key.

Lemma comprehension_spec (pre : string) (state_dict : gmap string V)
    (keys : list string) :
  forall acc,
  (forall k, k ∈ keys -> is_Some (state_dict !! k)) ->
  exists m,
    comprehension pre keys state_dict acc = Done m
    /\ (forall k, k ∈ keys -> m !! (pre +:+ k) = state_dict !! k)
    /\ (forall k', (forall k, k ∈ keys -> k' <> pre +:+ k) -> m !! k' = acc !! k').
Proof.
  induction keys as [|k0 keys IH]; intros acc Hin; simpl.
  - exists acc. split; [done|]. split; [|done]. intros k Hk. by apply not_elem_of_nil in Hk.
  - destruct (Hin k0) as [v0 Hv0]; [apply list_elem_of_here|]. rewrite Hv0.
    destruct (IH (<[pre +:+ k0 := v0]> acc)) as (m & Hm & Hkeys & Hrest).
    { intros k Hk. apply Hin. by apply list_elem_of_further. }
    exists m. split; [done|]. split.
    + intros k Hk. destruct (decide (k ∈ keys)) as [Hk'|Hk']; [by apply Hkeys|].
      apply elem_of_cons in Hk as [->|Hk]; [|done].
      rewrite Hrest, lookup_insert_eq; [done|].
      intros k Hk Heq. apply (inj (String.append pre)) in Heq. by subst k.
    + intros k' Hk'. rewrite Hrest.
      * apply lookup_insert_ne. intros Heq. by apply (Hk' k0); [apply list_elem_of_here|].
      * intros k Hk. apply Hk'. by apply list_elem_of_further.
Qed.

Lemma pop_all_spec (keys : list string) :
  forall state_dict : gmap string V,
  NoDup keys -> (forall k, k ∈ keys -> is_Some (state_dict !! k)) ->
  exists m,
    pop_all keys state_dict = Done m
    /\ (forall k, k ∈ keys -> m !! k = None)
    /\ (forall k, k ∉ keys -> m !! k = state_dict !! k).
Proof.
  induction keys as [|k0 keys IH]; intros d Hnd Hin; simpl.
  - exists d. split; [done|]. split; [|done]. intros k Hk. by apply not_elem_of_nil in Hk.
  - apply NoDup_cons in Hnd as [Hk0 Hnd].
    destruct (Hin k0) as [v0 Hv0]; [apply list_elem_of_here|]. rewrite Hv0.
    destruct (IH (delete k0 d) Hnd) as (m & Hm & Hgone & Hrest).
    { intros k Hk. rewrite lookup_delete_ne by (intros ->; done).
      apply Hin. by apply list_elem_of_further. }
    exists m. split; [done|]. split.
    + intros k Hk. apply elem_of_cons in Hk as [->|Hk]; [|by apply Hgone].
      rewrite Hrest by done. apply lookup_delete_eq.
    + intros k Hk. apply not_elem_of_cons in Hk as [Hne Hk].
      rewrite Hrest by done. by apply lookup_delete_ne.
Qed.

Lemma elem_of_keys (state_dict : gmap string V) (k : string) :
  k ∈ (map_to_list state_dict).*1 <-> is_Some (state_dict !! k).
Proof.
  rewrite list_elem_of_fmap. split.
  - intros ([k' v] & -> & Hkv). apply elem_of_map_to_list in Hkv. by exists v.
  - intros [v Hv]. exists (k, v). split; [done|]. by apply elem_of_map_to_list.
Qed.

Lemma any_names_role (state_dict : gmap string V) :
  existsb (fun key => contains "student" key || contains "teacher" key)
    (map_to_list state_dict).*1 = true
  <-> exists k, is_Some (state_dict !! k) /\ names_role k = true.
Proof.
  rewrite existsb_exists. split.
  - intros (k & Hk & Hr). exists k. split; [|done].
    by apply elem_of_keys, list_elem_of_In.
  - intros (k & Hk & Hr). exists k. split; [|done].
    by apply list_elem_of_In, elem_of_keys.
Qed.

Lemma teacher_key_names_role (k : string) : names_role ("teacher." +:+ k) = true.
Proof. unfold names_role. apply orb_true_iff. right. reflexivity. Qed.

Lemma student_key_names_role (k : string) : names_role ("student." +:+ k) = true.
Proof. unfold names_role. reflexivity. Qed.

(** The dict a checkpoint without role names is turned into. *)
Definition for_both_roles (state_dict d' : gmap string V) : Prop :=
  forall k' v,
    d' !! k' = Some v
    <-> exists k, state_dict !! k = Some v
                  /\ (k' = "teacher." +:+ k \/ k' = "student." +:+ k).

Lemma load_bare (super_load : gmap string V -> R) (state_dict : gmap string V) :
  (forall k, is_Some (state_dict !! k) -> names_role k = false) ->
  exists d',
    _load_from_state_dict super_load state_dict = Done (d', super_load d')
    /\ for_both_roles state_dict d'.
Proof.
  intros Hbare. unfold _load_from_state_dict.
  assert (Hany : existsb (fun key => contains "student" key || contains "teacher" key)
                   (map_to_list state_dict).*1 = false).
  { apply not_true_is_false. intros (k & Hk & Hr)%any_names_role.
    rewrite (Hbare k Hk) in Hr. discriminate. }
  rewrite Hany. simpl negb. cbv iota.
  set (keys := (map_to_list state_dict).*1).
  assert (Hkeys : forall k, k ∈ keys <-> is_Some (state_dict !! k))
    by apply elem_of_keys.
  assert (Hplain : forall pre k k', k ∈ keys -> names_role (pre +:+ k') = true ->
                   k <> pre +:+ k').
  { intros pre k k' Hk Hr ->. apply Hkeys, Hbare in Hk. congruence. }
  destruct (comprehension_spec "teacher." state_dict keys ∅) as (t & -> & Ht & Ht').
  { intros k. apply Hkeys. }
  simpl obind.
  assert (H1 : forall k, k ∈ keys -> (t ∪ state_dict) !! k = state_dict !! k).
  { intros k Hk. rewrite lookup_union_r; [done|]. rewrite Ht'; [done|].
    intros k' _. apply Hplain; [done | apply teacher_key_names_role]. }
  destruct (comprehension_spec "student." (t ∪ state_dict) keys ∅) as (s & -> & Hs & Hs').
  { intros k Hk. rewrite H1 by done. by apply Hkeys. }
  simpl obind.
  destruct (pop_all_spec keys (s ∪ (t ∪ state_dict))) as (d' & -> & Hgone & Hrest).
  { apply NoDup_fst_map_to_list. }
  { intros k Hk. rewrite lookup_union_r.
    - rewrite H1 by done. by apply Hkeys.
    - rewrite Hs'; [done|]. intros k' _. apply Hplain; [done | apply student_key_names_role]. }
  simpl. exists d'. split; [done|]. intros k' v. split.
  - intros Hv. destruct (decide (k' ∈ keys)) as [Hk|Hk]; [by rewrite Hgone in Hv|].
    rewrite Hrest in Hv by done.
    assert (Hnone : state_dict !! k' = None).
    { destruct (state_dict !! k') eqn:E; [|done]. destruct Hk. apply Hkeys. eauto. }
    destruct (decide (Exists (fun k => k' = "student." +:+ k) keys)) as [He|He].
    + apply Exists_exists in He as (k & Hk' & ->). exists k. split; [|by right].
      rewrite lookup_union_l' in Hv by (rewrite Hs by done; rewrite H1 by done; by apply Hkeys).
      rewrite Hs, H1 in Hv by done. done.
    + rewrite lookup_union_r in Hv; cycle 1.
      { rewrite Hs'; [done|]. intros k Hk' ->. apply He, Exists_exists. eauto. }
      destruct (decide (Exists (fun k => k' = "teacher." +:+ k) keys)) as [Het|Het].
      * apply Exists_exists in Het as (k & Hk' & ->). exists k. split; [|by left].
        rewrite lookup_union_l' in Hv by (rewrite Ht by done; by apply Hkeys).
        by rewrite Ht in Hv.
      * rewrite lookup_union_r in Hv; [congruence|].
        rewrite Ht'; [done|]. intros k Hk' ->. apply Het, Exists_exists. eauto.
  - intros (k & Hv & Hk').
    assert (Hk : k ∈ keys) by (apply Hkeys; eauto).
    assert (Hout : k' ∉ keys).
    { intros Hin. destruct Hk' as [-> | ->].
      - by apply (Hplain "teacher." _ k Hin); [apply teacher_key_names_role|].
      - by apply (Hplain "student." _ k Hin); [apply student_key_names_role|]. }
    rewrite Hrest by done. destruct Hk' as [-> | ->].
    + rewrite lookup_union_r.
      * rewrite lookup_union_l' by (rewrite Ht by done; eauto). by rewrite Ht.
      * rewrite Hs'; [done|]. intros k2 _. discriminate.
    + rewrite lookup_union_l' by (rewrite Hs, H1 by done; eauto).
      by rewrite Hs, H1.
Qed.

Lemma size_prefixed_keys (pre : string) (d : gmap string V) :
  size (kmap (M2 := gmap string) (String.append pre) d) = size d.
Proof.
  induction d as [|k v d Hk IH] using map_ind.
  - by rewrite kmap_empty.
  - rewrite kmap_insert by apply _.
    rewrite !map_size_insert_None; [by rewrite IH | done |].
    by rewrite lookup_kmap by apply _.
Qed.

(** X15: A checkpoint saved from a bare detector (no key names a role) is loaded
    for both roles: every entry appears once under [teacher.] and once
    under [student.], the bare keys are gone, and the parent class is
    handed that dict. *)
Theorem load_duplicates_bare_checkpoint (super_load : gmap string V -> R)
    (state_dict : gmap string V) :
  (forall k, is_Some (state_dict !! k) -> names_role k = false) ->
  let d' := kmap (String.append "teacher.") state_dict
            ∪ kmap (String.append "student.") state_dict in
  _load_from_state_dict super_load state_dict = Done (d', super_load d')
  /\ size d' = (2 * size state_dict)%nat
  /\ forall k, is_Some (state_dict !! k) -> d' !! k = None.
Proof.
  intros Hbare d'.
  destruct (load_bare super_load state_dict Hbare) as (d'' & Hrun & Hboth).
  assert (Heq : d'' = d').
  { apply map_eq. intros k'. apply option_eq. intros v.
    rewrite (Hboth k' v). unfold d'. rewrite lookup_union_Some_raw.
    rewrite lookup_kmap_None, !lookup_kmap_Some; [|apply _..]. split.
    - intros (k & Hv & [-> | ->]); [left; eauto|].
      right. split; [|eauto]. intros i Hi. discriminate.
    - intros [(k & -> & Hv) | (_ & k & -> & Hv)]; eauto. }
  subst d''. split; [done|]. split.
  - unfold d'. rewrite map_size_disj_union.
    + rewrite !size_prefixed_keys. lia.
    + apply map_disjoint_spec. intros k' x y.
      rewrite !lookup_kmap_Some; [|apply _..].
      intros (k1 & -> & _) (k2 & Hk & _). discriminate.
  - intros k Hk. destruct (d' !! k) as [v|] eqn:Hv; [|done].
    apply Hboth in Hv as (k0 & _ & [-> | ->]).
    + apply Hbare in Hk. by rewrite teacher_key_names_role in Hk.
    + apply Hbare in Hk. by rewrite student_key_names_role in Hk.
Qed.

(** X16: Loading never fails on a missing key, a checkpoint in which some key
    names a role (anywhere in the key) is handed on untouched, and the
    renaming is idempotent: the dict that was handed to the parent class
    loads as itself. *)
Theorem load_is_idempotent (super_load : gmap string V -> R)
    (state_dict : gmap string V) :
  exists d',
    _load_from_state_dict super_load state_dict = Done (d', super_load d')
    /\ _load_from_state_dict super_load d' = Done (d', super_load d')
    /\ ((exists k, is_Some (state_dict !! k) /\ names_role k = true) -> d' = state_dict).
Proof.
  assert (Hnamed : forall d : gmap string V,
            (exists k, is_Some (d !! k) /\ names_role k = true) ->
            _load_from_state_dict super_load d = Done (d, super_load d)).
  { intros d Hd. apply any_names_role in Hd. unfold _load_from_state_dict.
    by rewrite Hd. }
  destruct (existsb (fun key => contains "student" key || contains "teacher" key)
              (map_to_list state_dict).*1) eqn:Hany.
  - apply any_names_role in Hany. exists state_dict. by rewrite Hnamed.
  - assert (Hbare : forall k, is_Some (state_dict !! k) -> names_role k = false).
    { intros k Hk. apply not_true_is_false. intros Hr.
      assert (Ht : existsb (fun key => contains "student" key || contains "teacher" key)
                     (map_to_list state_dict).*1 = true)
        by (apply any_names_role; eauto).
      congruence. }
    destruct (load_bare super_load state_dict Hbare) as (d' & Hrun & Hboth).
    exists d'. split; [done|]. split.
    + destruct (existsb (fun key => contains "student" key || contains "teacher" key)
                  (map_to_list d').*1) eqn:Hany'.
      * apply Hnamed. by apply any_names_role.
      * assert (Hempty : forall k', d' !! k' = None).
        { intros k'. destruct (d' !! k') as [v|] eqn:Hv; [|done].
          assert (Ht : existsb (fun key => contains "student" key || contains "teacher" key)
                         (map_to_list d').*1 = true).
          { apply any_names_role. exists k'. split; [eauto|].
            apply Hboth in Hv as (k & _ & [-> | ->]);
              [apply teacher_key_names_role | apply student_key_names_role]. }
          congruence. }
        destruct (load_bare super_load d') as (d'' & Hrun' & Hboth').
        { intros k [v Hk]. by rewrite Hempty in Hk. }
        assert (d'' = d') as ->; [|done].
        apply map_eq. intros k'. rewrite Hempty.
        destruct (d'' !! k') as [v|] eqn:Hv; [|done].
        apply Hboth' in Hv as (k & Hk & _). by rewrite Hempty in Hk.
    + intros Hex. apply any_names_role in Hex. congruence.
Qed.

End StateDictProofs.

(** * Examples for the further properties *)

(** A queue of four rows with the cursor at 3. *)
Definition state_3 : @State Z := demo_state (axis_queue 4) 3 [] [].

(** Three enqueues of 3, 0 and 2 rows move the cursor from 3 to
    (3 + 5) mod 4. *)
Lemma enqueue_cursor_sum_witness :
  exists merged : list (@Tensor2 Z),
    length merged = 3%nat
    /\ queue_ptr (for_each unit_batches (_dequeue_and_enqueue self4) state_3).1
       = (3 + fold_right Z.add 0 (map size0 merged)) mod 4
    /\ rounds (for_each unit_batches (_dequeue_and_enqueue self4) state_3).1 = 3%nat.
Proof.
  destruct (enqueue_cursor_sum self4 unit_batches state_3
              (for_each unit_batches (_dequeue_and_enqueue self4) state_3).1)
    as (merged & Hlen & _ & Hp & Hr & _).
  - vm_compute. split; [discriminate | reflexivity].
  - vm_compute. reflexivity.
  - exists merged. split; [exact Hlen|]. split; [exact Hp | exact Hr].
Defined.

(** Five unit rows enqueued into a queue of four rows from the cursor 3:
    the rows number 1 to 4 are at the positions 0 to 3, the row number 0
    has been overwritten. *)
Lemma queue_holds_latest_rows_witness :
  rows (queue_vector (for_each unit_batches (_dequeue_and_enqueue self4) state_3).1)
  = [[0; 0; -1; 0; 0]; [0; 0; 0; 1; 0]; [0; 0; 0; 0; 1]; [-1; 0; 0; 0; 0]].
Proof.
  destruct (queue_holds_latest_rows self4 unit_batches state_3
              (for_each unit_batches (_dequeue_and_enqueue self4) state_3).1)
    as (merged & [Hlen Hall] & Hlatest);
    [reflexivity | reflexivity | vm_compute; split; [discriminate | reflexivity]
    | vm_compute; reflexivity |].
  destruct merged as [|m0 [|m1 [|m2 [|? ?]]]]; try discriminate Hlen.
  destruct (Hall 0%nat _ eq_refl) as (? & [= <-] & [= <-]).
  destruct (Hall 1%nat _ eq_refl) as (? & [= <-] & [= <-]).
  destruct (Hall 2%nat _ eq_refl) as (? & [= <-] & [= <-]).
  assert (Hfit : Forall (fun m : @Tensor2 Z => size0 m <= memory_k self4) unit_batches)
    by (repeat constructor; discriminate).
  destruct (Hlatest Hfit) as (Hsize & _ & Hrows).
  pose proof (Hrows 1%nat ltac:(simpl; lia) ltac:(discriminate)) as H1.
  pose proof (Hrows 2%nat ltac:(simpl; lia) ltac:(discriminate)) as H2.
  pose proof (Hrows 3%nat ltac:(simpl; lia) ltac:(discriminate)) as H3.
  pose proof (Hrows 4%nat ltac:(simpl; lia) ltac:(discriminate)) as H4.
  change (rows (queue_vector (for_each unit_batches (_dequeue_and_enqueue self4)
                                state_3).1) !! 0%nat = Some [0; 0; -1; 0; 0]) in H1.
  change (rows (queue_vector (for_each unit_batches (_dequeue_and_enqueue self4)
                                state_3).1) !! 1%nat = Some [0; 0; 0; 1; 0]) in H2.
  change (rows (queue_vector (for_each unit_batches (_dequeue_and_enqueue self4)
                                state_3).1) !! 2%nat = Some [0; 0; 0; 0; 1]) in H3.
  change (rows (queue_vector (for_each unit_batches (_dequeue_and_enqueue self4)
                                state_3).1) !! 3%nat = Some [-1; 0; 0; 0; 0]) in H4.
  unfold size0 in Hsize. change (memory_k self4) with 4 in Hsize.
  destruct (rows (queue_vector (for_each unit_batches (_dequeue_and_enqueue self4)
                                  state_3).1)) as [|r0 [|r1 [|r2 [|r3 [|? ?]]]]];
    simpl length in Hsize; try lia.
  by injection H1 as ->; injection H2 as ->; injection H3 as ->; injection H4 as ->.
Defined.

(** Two rows of two columns are refused by a queue of five columns: the
    queue and the cursor stay as they were. *)
Lemma enqueue_failure_keeps_cursor_witness :
  (_dequeue_and_enqueue self4 two_rows state_3).2 = Raised AssertionError
  /\ queue_vector (_dequeue_and_enqueue self4 two_rows state_3).1 = queue_vector state_3
  /\ queue_ptr (_dequeue_and_enqueue self4 two_rows state_3).1 = queue_ptr state_3.
Proof.
  destruct (enqueue_failure_keeps_cursor self4 two_rows state_3
              (_dequeue_and_enqueue self4 two_rows state_3).1
              (_dequeue_and_enqueue self4 two_rows state_3).2)
    as [Hptr Hrefused]; [apply surjective_pairing|].
  destruct (Hrefused two_rows) as [Ho Hq];
    [reflexivity | discriminate | discriminate |].
  split; [exact Ho|]. split; [exact Hq|].
  apply Hptr. rewrite Ho. discriminate.
Defined.

(** The ranks 1 and 3 of four ranks holding 2, 1, 0 and 3 rows get the
    same six rows. *)
Lemma gather_agrees_across_ranks_witness :
  concat_all_gather self4 (mkGroup [two_rows; one_row; no_rows] []) three_more_rows
  = Done (mkT2 [[1; 2]; [3; 4]; [5; 6]; [7; 8]; [9; 10]; [11; 12]] 2).
Proof.
  apply (gather_agrees_across_ranks self4 four_ranks
           (mkGroup [two_rows; one_row; no_rows] []) one_row three_more_rows);
    reflexivity.
Defined.

(** The losses [ctr_loss] reports for the batch of the images a and b. *)
Definition losses_ab : gmap string (@LossT Z) :=
  match (ctr_loss self4 anchor_ab ctr_ba state_ab).2 with
  | Done l => l
  | _ => ∅
  end.

Lemma ctr_loss_result_keys_witness :
  exists a_b c1 c2,
    box_lists state_ab !! gt_bboxes anchor_ab = Some a_b
    /\ losses_ab = <[ "ctr2_loss"%string := c2 ]> {[ "ctr1_loss"%string := c1 ]}
    /\ dom losses_ab = {[ "ctr1_loss"%string; "ctr2_loss"%string ]}
    /\ (gt_num a_b = 0 -> c1 = Vector [zero self4] /\ c2 = Vector [zero self4])
    /\ (gt_num a_b <> 0 -> exists x, c2 = Scalar x).
Proof.
  refine (ctr_loss_result_keys self4 anchor_ab ctr_ba state_ab state_ab_after
            losses_ab _).
  vm_compute. reflexivity.
Defined.

(** The list objects 0 and 1 of the batch hold three boxes for image a
    after [ctr_loss], although [ctr_loss_2] has cut them down to two. *)
Lemma ctr_loss_keeps_batch_lists_witness :
  box_lists state_ab_after !! 0%nat = Some [three_boxes; no_box]
  /\ label_lists state_ab_after !! 0%nat = Some [[5; 6; 5]; []].
Proof.
  destruct (ctr_loss_keeps_batch_lists self4 anchor_ab ctr_ba state_ab state_ab_after
              (ctr_loss self4 anchor_ab ctr_ba state_ab).2) as [Hb Hl].
  - apply surjective_pairing.
  - split; [apply Hb | apply Hl]; reflexivity.
Defined.

(** The state and the losses of [forward_train] on the supervised groups
    of the images a, b and c. *)
Definition state_sup_after : @State Z := (forward_train self4 groups_sup state_abc).1.
Definition losses_sup : gmap string (@LossT Z) :=
  match (forward_train self4 groups_sup state_abc).2 with
  | Done l => l
  | _ => ∅
  end.

Lemma forward_train_sup_returns :
  forward_train self4 groups_sup state_abc = (state_sup_after, Done losses_sup).
Proof. vm_compute. reflexivity. Qed.

Lemma forward_train_loss_keys_witness :
  (forall k, is_Some (losses_sup !! k) ->
     exists k0, k = "sup_" +:+ k0 \/ k = "unsup_" +:+ k0)
  /\ is_Some (losses_sup !! "sup_ctr1_loss"%string)
  /\ is_Some (losses_sup !! "sup_ctr2_loss"%string).
Proof.
  destruct (forward_train_loss_keys self4 groups_sup state_abc state_sup_after
              losses_sup forward_train_sup_returns) as (Hkeys & Hsup & _ & _).
  split; [exact Hkeys|].
  destruct Hsup as (_ & _ & H1 & H2); [by eexists | by split].
Defined.

Lemma sup_contrastive_losses_are_weighted_witness :
  exists s1 l c1 c2,
    ctr_loss self4 batch_abc batch_bac state_abc = (s1, Done l)
    /\ l !! "ctr1_loss"%string = Some c1
    /\ l !! "ctr2_loss"%string = Some c2
    /\ losses_sup !! "sup_ctr1_loss"%string = Some (scale self4 c1 (ctr1_lam_sup self4))
    /\ losses_sup !! "sup_ctr2_loss"%string = Some (scale self4 c2 (ctr2_lam_sup self4)).
Proof.
  apply (sup_contrastive_losses_are_weighted self4 groups_sup state_abc state_sup_after
           losses_sup batch_abc batch_bac forward_train_sup_returns).
  - by eexists.
  - reflexivity.
  - reflexivity.
Defined.

(** A detector without RPN, and the instance whose two detectors are of
    that kind. *)
Definition demo_detector_no_rpn
  : @Detector Z string (list string) (list string) unit :=
  mkDetector false (fun imgs => imgs) (fun feat => feat)
    (fun rpn_out _ => map (fun _ => mkT2 [[0; 0; 4; 4; 1]] 5) rpn_out)
    (fun _ _ _ => ∅)
    (fun _ _ props => (props, map (fun p => map (fun _ => 7) (rows p)) props))
    sample_gt keep_rois (fun t => t)
    (fun _ _ _ _ _ => ∅)
    (fun _ _ _ _ => ∅).

Definition self_no_rpn : @SoftTeacher Z string (list string) (list string) unit :=
  demo_self (fun _ _ => tt) (fun _ => Done tt) 4 5 (CfgFloat 0)
    demo_detector_no_rpn alone.

(** The images a, b and c without any box. *)
Definition state_abc_empty : @State Z :=
  demo_state (axis_queue 4) 0
    [[no_box; no_box; no_box]; [no_box; no_box; no_box]]
    [[[]; []; []]; [[]; []; []]].

Lemma student_rpn_is_required_witness :
  groups_sup !! "unsup_student"%string = None
  /\ exists a_b,
       box_lists state_abc_empty !! gt_bboxes batch_abc = Some a_b /\ gt_num a_b = 0.
Proof.
  destruct (student_rpn_is_required self_no_rpn groups_sup state_abc_empty
              (forward_train self_no_rpn groups_sup state_abc_empty).1
              (match (forward_train self_no_rpn groups_sup state_abc_empty).2 with
               | Done l => l
               | _ => ∅
               end)) as [Hnone Hsup].
  - reflexivity.
  - vm_compute. reflexivity.
  - split; [exact Hnone|]. apply Hsup; [by eexists | reflexivity].
Defined.

(** The teacher batch in the order b, a, c against the student batch in
    the order a, b, c. *)
Lemma unsup_pseudo_labels_pair_by_filename_witness :
  exists log,
    paired (foward_unsup_train self4 batch_bac batch_abc batch_abc batch_bac state_abc).1
    = log ++ [[("a", "a"); ("b", "b"); ("c", "c")]].
Proof.
  destruct (unsup_pseudo_labels_pair_by_filename self4 batch_bac batch_abc batch_abc
              batch_bac state_abc
              (foward_unsup_train self4 batch_bac batch_abc batch_abc batch_bac
                 state_abc).1
              (match (foward_unsup_train self4 batch_bac batch_abc batch_abc batch_bac
                        state_abc).2 with
               | Done l => l
               | _ => ∅
               end)) as (log & _ & _ & _ & _ & _ & Hp).
  - vm_compute. reflexivity.
  - exists log. exact Hp.
Defined.

(** Three counterpart positives assigned to the ground-truth indices 1, 0
    and 0, as rois of image 0. *)
Definition ctr_rois : @Tensor2 Z :=
  mkT2 [[0; 1; 1; 3; 3]; [0; 5; 5; 7; 7]; [0; 6; 6; 8; 8]] 5.

Lemma ctr_loss_1_select_same_gt_witness :
  (exists picked,
     (ctr_loss_1_select self4 [0; 1; 0] [1; 0; 0] ctr_rois (mkT2 [] 5) state_3).2
     = Done (mkT2 picked 5)
     /\ rng_pos (ctr_loss_1_select self4 [0; 1; 0] [1; 0; 0] ctr_rois (mkT2 [] 5)
                   state_3).1 = 3%nat
     /\ Forall2 (fun g r => exists j, [1; 0; 0] !! j = Some g
                                      /\ rows ctr_rois !! j = Some r)
                [0; 1; 0] picked)
  /\ (ctr_loss_1_select self4 [0; 2] [1; 0; 0] ctr_rois (mkT2 [] 5) state_3).2
     = Raised RuntimeError.
Proof.
  split.
  - apply (ctr_loss_1_select_same_gt self4 [0; 1; 0] [1; 0; 0] ctr_rois state_3
             eq_refl eq_refl).
    repeat constructor; set_solver.
  - apply (ctr_loss_1_select_same_gt self4 [0; 2] [1; 0; 0] ctr_rois state_3
             eq_refl eq_refl).
    intros H. apply Forall_cons in H as [_ H]. apply Forall_cons in H as [H _].
    set_solver.
Defined.

(** The instance [self] with another labeled-item index. *)
Definition with_dataset {A Image Feat RpnOut Mat : Type}
    (self : @SoftTeacher A Image Feat RpnOut Mat)
    (index_ : Z -> nat -> list (@Item A Image))
  : @SoftTeacher A Image Feat RpnOut Mat :=
  mkSelf (memory_k self) (projector_dim self) (ctr2_num self) (ctr1_T self)
    (ctr2_T self) (ctr1_lam_sup self) (ctr2_lam_sup self) (teacher self)
    (student self) (unsup_weight self) (pseudo_label_initial_score_thr self)
    (min_pseduo_box_size self) (cls_pseudo_threshold self)
    (rpn_pseudo_threshold self) (use_teacher_proposal self) (zero self)
    (of_int self) (fmul self) (fdiv self) (dot self) (normalize self)
    (cross_entropy self) (matmul self) (inverse self) (randn_entry self)
    (rand self) (filter_invalid self) (filter_invalid_boxes self)
    (transform_bboxes self) (weighted_loss self) index_ (world self).

(** An index whose items never hold the label asked for. *)
Definition other_label_index (label : Z) (n : nat) : list (@Item Z string) :=
  [mkItem "x" (mkT2 [] 4) []; mkItem "y" (mkT2 [] 4) [];
   mkItem "z" (mkT2 [[1; 1; 2; 2]] 4) [label + 1]].

(** Two labels: the index is asked twice.  With an index whose items lack
    the label, it is asked twice for the first label and the loop ends
    with a TypeError. *)
Lemma exemplars_are_fetched_once_witness :
  dataset_pos (ctr_loss_2_exemplars self4 [5; 6] (mkT2 [] 5) state_3).1 = 2%nat
  /\ ctr_loss_2_exemplars (with_dataset self4 other_label_index) [5; 6] (mkT2 [] 5)
       state_3
     = (set_dataset_pos 2 state_3, Raised TypeError).
Proof.
  split.
  - destruct (exemplars_are_fetched_once self4 [5; 6] (mkT2 [] 5) state_3) as [Hok _].
    destruct (Hok (ctr_loss_2_exemplars self4 [5; 6] (mkT2 [] 5) state_3).1
                (match (ctr_loss_2_exemplars self4 [5; 6] (mkT2 [] 5) state_3).2 with
                 | Done out => out
                 | _ => mkT2 [] 5
                 end)) as [Hpos _].
    + vm_compute. reflexivity.
    + exact Hpos.
  - destruct (exemplars_are_fetched_once (with_dataset self4 other_label_index)
                [5; 6] (mkT2 [] 5) state_3) as [_ Hbad].
    apply (Hbad 5 [6] (mkItem "x" (mkT2 [] 4) []) (mkItem "y" (mkT2 [] 4) [])
             (mkItem "z" (mkT2 [[1; 1; 2; 2]] 4) [6])); [reflexivity..|].
    set_solver.
Defined.

(** One box of width 4 and height 2 with the score 9, two copies, the
    samples all 1 and [frac] 3. *)
Lemma aug_box_keeps_shape_and_scores_witness :
  exists out,
    aug_box Z.add Z.sub Z.mul Z.max 1 (fun _ _ _ _ => 1)
      [mkT2 [[0; 0; 4; 2; 9]] 5] 2 3 = Done out
    /\ length out = 1%nat.
Proof.
  destruct (aug_box_keeps_shape_and_scores Z.add Z.sub Z.mul Z.max 1
              (fun _ _ _ _ => 1) [mkT2 [[0; 0; 4; 2; 9]] 5] 2 3) as [Hok _];
    [discriminate|].
  destruct Hok as (out & Hrun & Hlen & _).
  - repeat constructor; discriminate.
  - exists out. split; [exact Hrun | exact Hlen].
Defined.

(** A checkpoint of a bare detector with two entries. *)
Definition bare_checkpoint : gmap string Z :=
  <[ "backbone.conv1.weight"%string := 1 ]> {[ "roi_head.fc.bias"%string := 2 ]}.

Lemma load_duplicates_bare_checkpoint_witness :
  exists d',
    _load_from_state_dict (fun d : gmap string Z => size d) bare_checkpoint
    = Done (d', 4%nat)
    /\ d' !! "teacher.backbone.conv1.weight"%string = Some 1
    /\ d' !! "student.roi_head.fc.bias"%string = Some 2
    /\ d' !! "roi_head.fc.bias"%string = None.
Proof.
  destruct (load_duplicates_bare_checkpoint (fun d : gmap string Z => size d)
              bare_checkpoint) as (Hrun & Hsize & Hgone).
  - intros k [v Hk]. unfold bare_checkpoint in Hk.
    apply lookup_insert_Some in Hk as [[<- _] | [_ Hk]]; [reflexivity|].
    apply lookup_singleton_Some in Hk as [<- _]. reflexivity.
  - eexists. split; [rewrite Hrun, Hsize; reflexivity|].
    split; [|split].
    + apply lookup_union_Some_l.
      change "teacher.backbone.conv1.weight"%string
        with ("teacher." +:+ "backbone.conv1.weight").
      by rewrite (lookup_kmap (String.append "teacher.")).
    + rewrite lookup_union_r.
      * change "student.roi_head.fc.bias"%string
          with ("student." +:+ "roi_head.fc.bias").
        by rewrite (lookup_kmap (String.append "student.")).
      * apply (lookup_kmap_None (String.append "teacher.")). intros i Hi. discriminate.
    + apply Hgone. by eexists.
Defined.

(** The sampling results of an image with three boxes and of an image with
    one box, in both views: [batch] is 3, the indices of the second image
    become 3. *)
Definition sampled_31 : list (@SamplingResult Z * @SamplingResult Z) :=
  [(sample_gt no_box three_boxes [5; 6; 5], sample_gt no_box three_boxes [5; 6; 5]);
   (sample_gt no_box (one_box 9) [4], sample_gt no_box (one_box 9) [4])].

Definition collected_31 : list (list Z * list Z * @Tensor2 Z * @Tensor2 Z) :=
  match omapi (ctr_loss_1_collect 3) 0 sampled_31 with
  | Done c => c
  | _ => []
  end.

(** With [batch] 3 the index 3 belongs to the second image alone.  With
    [batch] 1, as for a first image with one sampled box, the index 1 of
    the first image and the index 0 of the second image are both numbered
    1. *)
Lemma gt_offsets_separate_images_witness :
  (forall i i' c c',
     collected_31 !! i = Some c -> collected_31 !! i' = Some c' ->
     3 ∈ c.1.1.1 -> 3 ∈ c'.1.1.2 -> i = i')
  /\ omapi (ctr_loss_1_collect 1) 0 sampled_31
     = Done [([0; 1; 2], [0; 1; 2], three_boxes, three_boxes);
             ([1], [1], one_box 9, one_box 9)].
Proof.
  split; [|reflexivity].
  destruct (gt_offsets_separate_images 3 sampled_31 collected_31) as [_ Hsep].
  - reflexivity.
  - intros res Hres. repeat (apply elem_of_cons in Hres as [->|Hres]);
      [| |by apply not_elem_of_nil in Hres];
      split; repeat constructor; discriminate.
  - intros i i' c c' Hc Hc' Hg Hg'. by destruct (Hsep i i' c c' 3 Hc Hc' Hg Hg').
Defined.

(** The valid images of the batch of a (three boxes) and b (no box). *)
Definition valid_ab : @Data Z string unit * @Data Z string unit :=
  match (ctr_loss_valid_data anchor_ab ctr_ba [three_boxes; no_box]
           [three_boxes; no_box] [[5; 6; 5]; []] [[5; 6; 5]; []] state_ab).2 with
  | Done v => v
  | _ => (anchor_ab, ctr_ba)
  end.

Lemma valid_data_keeps_images_with_boxes_witness :
  exists vab val,
    box_lists (ctr_loss_valid_data anchor_ab ctr_ba [three_boxes; no_box]
                 [three_boxes; no_box] [[5; 6; 5]; []] [[5; 6; 5]; []] state_ab).1
      !! gt_bboxes valid_ab.1 = Some vab
    /\ label_lists (ctr_loss_valid_data anchor_ab ctr_ba [three_boxes; no_box]
                      [three_boxes; no_box] [[5; 6; 5]; []] [[5; 6; 5]; []] state_ab).1
         !! gt_labels valid_ab.1 = Some val
    /\ vab = [three_boxes] /\ val = [[5; 6; 5]]
    /\ img valid_ab.1 = ["a"] /\ img valid_ab.2 = ["b"].
Proof.
  destruct (valid_data_keeps_images_with_boxes anchor_ab ctr_ba [three_boxes; no_box]
              [three_boxes; no_box] [[5; 6; 5]; []] [[5; 6; 5]; []] state_ab
              (ctr_loss_valid_data anchor_ab ctr_ba [three_boxes; no_box]
                 [three_boxes; no_box] [[5; 6; 5]; []] [[5; 6; 5]; []] state_ab).1
              valid_ab.1 valid_ab.2)
    as (vab & val & vcb & vcl & Hb & Hl & _ & _ & Hsb & Hsl & _).
  - vm_compute. reflexivity.
  - exists vab, val. split; [exact Hb|]. split; [exact Hl|].
    injection Hsb as <-. injection Hsl as <-. by repeat split.
Defined.
